(** * network_stats: probe parsing, job execution and scheduling

    A shallow embedding of the engine of the network statistics collector:
    - [PingCollector] (src/collectors/ping_collector.py): the probe, the parser
      of the ping utility's output and the jitter statistic;
    - [JobManager] (src/services/job_manager.py): starting, stopping and
      executing jobs, with the records they persist;
    - [Scheduler] (src/services/scheduler.py): delayed dispatch and the
      maintenance loop.

    Conventions of the embedding.
    - Python [str] values are [string]s whose characters are the code points
      0..255; [int] values are [Z]; a key that a [dict] may lack is an
      [option] field.
    - A Python [float] is an IEEE 754 binary64 number, [spec_float] of the
      Standard Library; its operations round to the nearest number, ties to
      even, and raise where Python raises ([Float]).  The [pow] of the C
      library behind [**] is taken as correctly rounded, and [sum] adds from
      left to right.
    - Instants are [Z] microseconds since the epoch ([datetime] has
      microsecond resolution and ends with the year 9999); a function that
      reads [datetime.now] takes the reading as an argument.
    - A call returns a value or raises an exception ([outcome]);
      [try ... except Exception] is [try_except], and [try_] where the
      engine's state is threaded through.
    - The store and the destination manager are handed to the engine when it
      is built: the store is a record of tables whose sessions commit or
      raise as a script of faults says, and
      [DestinationManager.get_destination_by_host] is a parameter, a function
      that returns or raises.
    - The engine also uses names that the classes of the sources do not
      define.  [PingCollector] has no [ping_host], [MetricRecord] has no
      columns [value] and [unit], [Job] has no [config], and the event loop
      refuses [text=True] when it is asked for a subprocess.  The definitions
      take the call of [ping_host] and the decoding of a row as parameters,
      so that their statements hold whatever these do; [MetricRecord],
      [create_subprocess_exec] and the readings of [ping_host] and
      [Job.config] in the sources are defined as the sources have them. *)

From Stdlib Require Import ZArith QArith Qround Ascii String DecimalString DecimalZ List Bool Lia
  SpecFloat.
From stdpp Require Import gmap.
Import ListNotations.

Local Open Scope string_scope.
Local Open Scope Z_scope.

(** ** Exceptions and outcomes *)

Inductive exn : Type :=
| TimeoutError                (* asyncio.TimeoutError *)
| KeyError (key : Z)          (* del d[k] on a missing key *)
| Exception (msg : string).   (* any other subclass of Exception *)

Inductive outcome (A : Type) : Type :=
| Return (a : A)
| Raised (e : exn).
Arguments Return {A} a.
Arguments Raised {A} e.

(** Calls in sequence: the first that raises ends the sequence. *)
#[global] Instance outcome_ret : MRet outcome := fun A a => Return a.
#[global] Instance outcome_bind : MBind outcome :=
  fun A B k m => match m with Return a => k a | Raised e => Raised e end.
#[global] Instance outcome_fmap : FMap outcome :=
  fun A B f m => match m with Return a => Return (f a) | Raised e => Raised e end.

(** Decimal rendering of an [int], as [str(n)] and f-strings do. *)
Definition str_of_Z (n : Z) : string :=
  NilZero.string_of_int (Z.to_int n).

(** [str(e)] *)
Definition str_exn (e : exn) : string :=
  match e with
  | TimeoutError => ""
  | KeyError k => str_of_Z k
  | Exception msg => msg
  end.

(** ** Strings *)

Module Str.

Definition code (c : ascii) : Z := Z.of_nat (nat_of_ascii c).

(** [c.isspace()] on the code points below 256. *)
Definition isspace (c : ascii) : bool :=
  let n := code c in
  ((9 <=? n) && (n <=? 13)) || ((28 <=? n) && (n <=? 32))
  || (n =? 133) || (n =? 160).

(** [\d] on the code points below 256. *)
Definition isdigit (c : ascii) : bool :=
  let n := code c in (48 <=? n) && (n <=? 57).

Definition is_dot (c : ascii) : bool := code c =? 46.

Definition is_newline (c : ascii) : bool := code c =? 10.

Definition is_empty (s : string) : bool :=
  match s with EmptyString => true | String _ _ => false end.

Fixpoint lstrip (s : string) : string :=
  match s with
  | EmptyString => EmptyString
  | String c s' => if isspace c then lstrip s' else s
  end.

Fixpoint rstrip (s : string) : string :=
  match s with
  | EmptyString => EmptyString
  | String c s' =>
      let r := rstrip s' in
      if isspace c && is_empty r then EmptyString else String c r
  end.

(** [s.strip()] *)
Definition strip (s : string) : string := rstrip (lstrip s).

(** [s.split('\n')] *)
Fixpoint split_lines (s : string) : list string :=
  match s with
  | EmptyString => [EmptyString]
  | String c s' =>
      if is_newline c then EmptyString :: split_lines s'
      else match split_lines s' with
           | h :: t => String c h :: t
           | [] => [String c EmptyString]
           end
  end.

Definition lower_char (c : ascii) : ascii :=
  let n := code c in
  if ((65 <=? n) && (n <=? 90))
     || ((192 <=? n) && (n <=? 222) && negb (n =? 215))
  then ascii_of_nat (Z.to_nat (n + 32)) else c.

(** [s.lower()] *)
Fixpoint lower (s : string) : string :=
  match s with
  | EmptyString => EmptyString
  | String c s' => String (lower_char c) (lower s')
  end.

(** [s.startswith(p)] *)
Definition startswith (p s : string) : bool := String.prefix p s.

(** [needle in hay] *)
Fixpoint contains (needle hay : string) : bool :=
  String.prefix needle hay ||
  match hay with
  | EmptyString => false
  | String _ hay' => contains needle hay'
  end.

(** The rest of [s] after the literal [p], when [s] starts with it. *)
Fixpoint strip_prefix (p s : string) : option string :=
  match p, s with
  | EmptyString, _ => Some s
  | String a p', String b s' =>
      if Ascii.eqb a b then strip_prefix p' s' else None
  | String _ _, EmptyString => None
  end.

(** The longest prefix of characters satisfying [f], and the rest: a greedy
    [[class]*]. *)
Fixpoint span (f : ascii -> bool) (s : string) : string * string :=
  match s with
  | EmptyString => (EmptyString, EmptyString)
  | String c s' =>
      if f c then let (a, b) := span f s' in (String c a, b)
      else (EmptyString, s)
  end.

(** The part of [s] before its first newline: what [.*] can range over. *)
Fixpoint upto_newline (s : string) : string :=
  match s with
  | EmptyString => EmptyString
  | String c s' => if is_newline c then EmptyString else String c (upto_newline s')
  end.

Fixpoint int_acc (acc : Z) (s : string) : Z :=
  match s with
  | EmptyString => acc
  | String c s' => int_acc (10 * acc + (code c - 48)) s'
  end.

(** [int(s)] for a string of decimal digits. *)
Definition int_of_digits (s : string) : Z := int_acc 0 s.

(** [re.search]: the match at the leftmost position where [m] matches. *)
Fixpoint re_search {A : Type} (m : string -> option A) (s : string) : option A :=
  match m s with
  | Some r => Some r
  | None =>
      match s with
      | EmptyString => None
      | String _ s' => re_search m s'
      end
  end.

End Str.

(** ** Floating-point numbers *)

Module Float.

(** A binary64 number: 53 bits of precision, exponents below 1024. *)
Definition float : Type := spec_float.

Definition prec : Z := 53.
Definition emax : Z := 1024.

Definition zero : float := S754_zero false.

(** An [int] as the operand of a division that is rounded once. *)
Definition exact (n : Z) : float :=
  match n with
  | Z0 => S754_zero false
  | Zpos p => S754_finite false p 0
  | Zneg p => S754_finite true p 0
  end.

(** The number nearest to [a / b]: what the literal [1.12] denotes is
    [ratio 112 100]. *)
Definition ratio (a b : Z) : float := SFdiv prec emax (exact a) (exact b).

Definition is_infinite (x : float) : bool :=
  match x with
  | S754_infinity _ => true
  | _ => false
  end.

(** [float(n)], and the conversion of an [int] operand that meets a
    [float]. *)
Definition of_int (n : Z) : outcome float :=
  let x := binary_normalize prec emax n 0 false in
  if is_infinite x then Raised (Exception "int too large to convert to float")
  else Return x.

(** [a / b] on two [int]s. *)
Definition true_div (a b : Z) : outcome float :=
  if b =? 0 then Raised (Exception "division by zero")
  else if is_infinite (ratio a b)
       then Raised (Exception "integer division result too large for a float")
       else Return (ratio a b).

(** [x + y] and [x - y] *)
Definition add (x y : float) : float := SFadd prec emax x y.
Definition sub (x y : float) : float := SFsub prec emax x y.

(** [x / y] on two [float]s. *)
Definition div (x y : float) : outcome float :=
  match y with
  | S754_zero _ => Raised (Exception "float division by zero")
  | _ => Return (SFdiv prec emax x y)
  end.

(** [x ** 2]: Python raises when [pow] overflows. *)
Definition square (x : float) : outcome float :=
  let y := SFmul prec emax x x in
  match x with
  | S754_finite _ _ _ =>
      if is_infinite y then Raised (Exception "(34, 'Numerical result out of range')")
      else Return y
  | _ => Return y
  end.

(** [x ** 0.5].  A negative [x] gives a complex number, which [round]
    rejects. *)
Definition sqrt (x : float) : outcome float :=
  match x with
  | S754_zero _ => Return zero
  | S754_infinity _ => Return (S754_infinity false)
  | S754_finite true _ _ => Raised (Exception "type complex doesn't define __round__ method")
  | _ => Return (SFsqrt prec emax x)
  end.

(** [sum(l)] over [float]s, from the [int] [0]. *)
Definition sum (l : list float) : float := fold_left add l zero.

(** The integer nearest to [100 * x], ties to even, for a finite [x]. *)
Definition hundredths (x : float) : Z :=
  match x with
  | S754_finite s m e =>
      let n := 100 * Zpos m in
      let k :=
        if 0 <=? e then n * 2 ^ e
        else
          let d := 2 ^ (- e) in
          match 2 * (n mod d) ?= d with
          | Lt => n / d
          | Gt => n / d + 1
          | Eq => if Z.even (n / d) then n / d else n / d + 1
          end in
      if s then - k else k
  | _ => 0
  end.

(** [round(x, 2)]: the decimal with two places nearest to [x], and the
    number nearest to that decimal. *)
Definition round2 (x : float) : float :=
  match x with
  | S754_finite s _ _ => if hundredths x =? 0 then S754_zero s else ratio (hundredths x) 100
  | _ => x
  end.

(** [float(s)] for a string of decimal digits: the nearest number, infinite
    when the digits say too much. *)
Definition of_digits (s : string) : float :=
  binary_normalize prec emax (Str.int_of_digits s) 0 false.

End Float.

(** ** The probe: src/collectors/ping_collector.py *)

Module PingCollector.

Definition default_timeout : Z := 5.
Definition default_count : Z := 4.

(** [x or d] for an optional [int]: [None] and [0] are falsy. *)
Definition py_or (x : option Z) (d : Z) : Z :=
  match x with
  | Some n => if n =? 0 then d else n
  | None => d
  end.

(** [_build_ping_command] *)
Definition _build_ping_command (host : string) (count timeout : Z) : list string :=
  ["ping"; "-n"; str_of_Z count; "-w"; str_of_Z (timeout * 1000); host].

(** *** Reply lines *)

Record ReplyInfo : Type := { time_ms : Z; reply_ttl : option Z }.

(** The pattern of [_parse_reply_line],
    [Reply from [\d.]+: bytes=\d+ time=(\d+)ms(?: TTL=(\d+))?],
    matched at the start of [s].  Each repetition is followed by a literal
    that is outside its class, so the greedy match is the only one. *)
Definition match_reply (s : string) : option ReplyInfo :=
  s1 ← Str.strip_prefix "Reply from " s;
  let '(addr, s2) := Str.span (fun c => Str.isdigit c || Str.is_dot c) s1 in
  if Str.is_empty addr then None else
  s3 ← Str.strip_prefix ": bytes=" s2;
  let '(size, s4) := Str.span Str.isdigit s3 in
  if Str.is_empty size then None else
  s5 ← Str.strip_prefix " time=" s4;
  let '(t, s6) := Str.span Str.isdigit s5 in
  if Str.is_empty t then None else
  s7 ← Str.strip_prefix "ms" s6;
  let group2 :=
    s8 ← Str.strip_prefix " TTL=" s7;
    let '(d, _) := Str.span Str.isdigit s8 in
    if Str.is_empty d then None else Some d in
  Some {| time_ms := Str.int_of_digits t;
          reply_ttl := Str.int_of_digits <$> group2 |}.

(** [_parse_reply_line] *)
Definition _parse_reply_line (line : string) : option ReplyInfo :=
  Str.re_search match_reply line.

(** *** The loss percentage *)

(** The pattern of [_parse_packet_loss], [\((\d+)%.*loss\)], matched at the
    start of [s]. *)
Definition match_loss (s : string) : option Z :=
  s1 ← Str.strip_prefix "(" s;
  let '(d, s2) := Str.span Str.isdigit s1 in
  if Str.is_empty d then None else
  s3 ← Str.strip_prefix "%" s2;
  if Str.contains "loss)" (Str.upto_newline s3)
  then Some (Str.int_of_digits d) else None.

(** [_parse_packet_loss] *)
Definition _parse_packet_loss (line : string) : Z :=
  match Str.re_search match_loss line with
  | Some n => n
  | None => 0
  end.

(** *** Jitter *)

(** [sum(l)] over [int]s. *)
Definition sum_Z (l : list Z) : Z := fold_right Z.add 0 l.

Definition len {A : Type} (l : list A) : Z := Z.of_nat (length l).

(** [sum(l) / len(l)] *)
Definition average (l : list Z) : outcome Float.float :=
  Float.true_div (sum_Z l) (len l).

(** [(time - avg) ** 2] *)
Definition squared_deviation (avg : Float.float) (time : Z) : outcome Float.float :=
  t ← Float.of_int time; Float.square (Float.sub t avg).

(** The body of the [try] of [_calculate_jitter]. *)
Definition jitter_of (response_times : list Z) : outcome Float.float :=
  avg ← average response_times;
  squares ← mapM (squared_deviation avg) response_times;
  n ← Float.of_int (len response_times);
  variance ← Float.div (Float.sum squares) n;
  jitter ← Float.sqrt variance;
  Return (Float.round2 jitter).

(** [_calculate_jitter] *)
Definition _calculate_jitter (response_times : list Z) : option Float.float :=
  if len response_times <? 2 then None
  else
    match jitter_of response_times with
    | Return jitter => Some jitter
    | Raised _ => None
    end.

(** *** Result dictionaries *)

(** The dictionary built by the main path of [_parse_ping_output]. *)
Record ParsedPing : Type := {
  pp_success : bool;
  pp_host : string;
  pp_timestamp : Z;
  pp_packets_sent : Z;
  pp_packets_received : Z;
  pp_packet_loss_percent : Z;
  pp_response_times : list Z;
  pp_min_response_time_ms : option Z;
  pp_max_response_time_ms : option Z;
  pp_avg_response_time_ms : option Float.float;
  pp_jitter_ms : option Float.float;
  pp_ttl : option Z;
  pp_raw_output : string
}.

(** The dictionaries built on the failure paths: ['success': False], a
    ['host'], an ['error'] and the keys particular to the path. *)
Record PingFailure : Type := {
  pf_host : string;
  pf_error : string;
  pf_output : option string;
  pf_stderr : option string;
  pf_timeout : option Z;
  pf_raw_output : option string
}.

Inductive PingDict : Type :=
| Parsed (p : ParsedPing)
| Failure (f : PingFailure).

(** [d['success']] *)
Definition get_success (d : PingDict) : bool :=
  match d with
  | Parsed p => pp_success p
  | Failure _ => false
  end.

(** [d.get('error')] *)
Definition get_error (d : PingDict) : option string :=
  match d with
  | Parsed _ => None
  | Failure f => Some (pf_error f)
  end.

(** [d.get('packets_received')] *)
Definition get_packets_received (d : PingDict) : option Z :=
  match d with
  | Parsed p => Some (pp_packets_received p)
  | Failure _ => None
  end.

(** [d.get('packets_sent')] *)
Definition get_packets_sent (d : PingDict) : option Z :=
  match d with
  | Parsed p => Some (pp_packets_sent p)
  | Failure _ => None
  end.

(** *** Parsing the output *)

(** The variables the loop of [_parse_ping_output] updates. *)
Record ParseState : Type := {
  reply_times : list Z;
  packet_loss : Z;
  ttl : option Z
}.

Definition parse_init : ParseState :=
  {| reply_times := []; packet_loss := 0; ttl := None |}.

(** One iteration of [for line in lines]. *)
Definition parse_line (st : ParseState) (line : string) : ParseState :=
  let st1 :=
    if Str.startswith "Reply from" (Str.strip line) then
      match _parse_reply_line line with
      | Some reply_info =>
          {| reply_times := (reply_times st ++ [time_ms reply_info])%list;
             packet_loss := packet_loss st;
             ttl := match reply_ttl reply_info with
                    | Some t => if t =? 0 then ttl st else Some t
                    | None => ttl st
                    end |}
      | None => st
      end
    else st in
  if Str.contains "packet loss" (Str.lower line) || Str.contains "lost" (Str.lower line)
  then {| reply_times := reply_times st1;
          packet_loss := _parse_packet_loss line;
          ttl := ttl st1 |}
  else st1.

(** [min(l)] and [max(l)] of a list known to be non-empty. *)
Definition list_min (l : list Z) : option Z :=
  match l with
  | [] => None
  | x :: l' => Some (fold_left Z.min l' x)
  end.

Definition list_max (l : list Z) : option Z :=
  match l with
  | [] => None
  | x :: l' => Some (fold_left Z.max l' x)
  end.

Definition try_except {A : Type} (body : outcome A) (handler : exn -> outcome A) : outcome A :=
  match body with
  | Return a => Return a
  | Raised e => handler e
  end.

Section Clock.

(** The reading of [datetime.now(timezone.utc)] that stamps the result. *)
Variable now : Z.

(** [_parse_ping_output].  The assignment to [stats] is left out: the
    dictionary does not use it.  The mean of the reply times is the one
    computation of the [try] that can raise. *)
Definition _parse_ping_output (output host : string) : PingDict :=
  let body : outcome PingDict :=
    let lines := Str.split_lines (Str.strip output) in
    let st := fold_left parse_line lines parse_init in
    let reply_times := reply_times st in
    let nonempty := negb (len reply_times =? 0) in
    avg_time ← (if nonempty then Some <$> average reply_times else Return None);
    let min_time := if nonempty then list_min reply_times else None in
    let max_time := if nonempty then list_max reply_times else None in
    let jitter := if nonempty then _calculate_jitter reply_times else None in
    let success := 0 <? len reply_times in
    Return (Parsed {|
      pp_success := success;
      pp_host := host;
      pp_timestamp := now;
      pp_packets_sent := len reply_times + packet_loss st;
      pp_packets_received := len reply_times;
      pp_packet_loss_percent := packet_loss st;
      pp_response_times := reply_times;
      pp_min_response_time_ms := min_time;
      pp_max_response_time_ms := max_time;
      pp_avg_response_time_ms := avg_time;
      pp_jitter_ms := jitter;
      pp_ttl := ttl st;
      pp_raw_output := output |}) in
  match body with
  | Return d => d
  | Raised e =>
      Failure {| pf_host := host;
                 pf_error := "Failed to parse ping output: " ++ str_exn e;
                 pf_output := None; pf_stderr := None; pf_timeout := None;
                 pf_raw_output := Some output |}
  end.

(** *** The probe *)

(** What running the ping utility does: [create_subprocess_exec] or
    [communicate] raises, or the process exits with a code and its output. *)
Inductive process : Type :=
| Raises (e : exn)
| Exits (returncode : Z) (stdout stderr : string).

(** The operating system, as far as the probe sees it. *)
Variable subprocess_exec : list string -> process.

(** [asyncio.create_subprocess_exec] on the words of [cmd], with [text=text],
    and [process.communicate()].  The event loop has byte streams only: it
    raises [ValueError] for a true [text] before it starts a process. *)
Definition create_subprocess_exec (cmd : list string) (text : bool) : process :=
  if text then Raises (Exception "text must be False") else subprocess_exec cmd.

(** [ping_async] *)
Definition ping_async (host : string) (count timeout : option Z) : outcome PingDict :=
  let count := py_or count default_count in
  let timeout := py_or timeout default_timeout in
  try_except
    (let cmd := _build_ping_command host count timeout in
     match create_subprocess_exec cmd true with
     | Raises e => Raised e
     | Exits returncode stdout stderr =>
         if returncode =? 0 then Return (_parse_ping_output stdout host)
         else Return (Failure {|
                pf_host := host;
                pf_error := "Ping failed with code " ++ str_of_Z returncode;
                pf_output := Some stdout; pf_stderr := Some stderr;
                pf_timeout := None; pf_raw_output := None |})
     end)
    (fun e =>
       match e with
       | TimeoutError =>
           Return (Failure {|
             pf_host := host;
             pf_error := "Ping timed out after " ++ str_of_Z timeout ++ " seconds";
             pf_output := None; pf_stderr := None;
             pf_timeout := Some timeout; pf_raw_output := None |})
       | _ =>
           Return (Failure {|
             pf_host := host;
             pf_error := str_exn e;
             pf_output := None; pf_stderr := None;
             pf_timeout := None; pf_raw_output := None |})
       end).

End Clock.

(** *** The statistics line *)

(** The dictionary [_parse_statistics_line] returns on a match; [None] is
    its empty dictionary. *)
Record Statistics : Type := {
  stat_min : Float.float;
  stat_max : Float.float;
  stat_avg : Float.float
}.

(** The pattern of [_parse_statistics_line],
    [Minimum = (\d+)ms, Maximum = (\d+)ms, Average = (\d+)ms], matched at the
    start of [s]. *)
Definition match_statistics (s : string) : option Statistics :=
  s1 ← Str.strip_prefix "Minimum = " s;
  let '(lo, s2) := Str.span Str.isdigit s1 in
  if Str.is_empty lo then None else
  s3 ← Str.strip_prefix "ms, Maximum = " s2;
  let '(hi, s4) := Str.span Str.isdigit s3 in
  if Str.is_empty hi then None else
  s5 ← Str.strip_prefix "ms, Average = " s4;
  let '(avg, s6) := Str.span Str.isdigit s5 in
  if Str.is_empty avg then None else
  _ ← Str.strip_prefix "ms" s6;
  Some {| stat_min := Float.of_digits lo;
          stat_max := Float.of_digits hi;
          stat_avg := Float.of_digits avg |}.

(** [_parse_statistics_line] *)
Definition _parse_statistics_line (line : string) : option Statistics :=
  Str.re_search match_statistics line.

(** [get_supported_metrics] *)
Definition get_supported_metrics : list string := ["ping"].

(** *** Validating a host *)

(** [[a-zA-Z0-9]] *)
Definition isalnum (c : ascii) : bool :=
  let n := Str.code c in
  ((97 <=? n) && (n <=? 122)) || ((65 <=? n) && (n <=? 90)) || ((48 <=? n) && (n <=? 57)).

(** [[a-zA-Z0-9.-]] *)
Definition ishostchar (c : ascii) : bool :=
  isalnum c || (Str.code c =? 46) || (Str.code c =? 45).

(** [$]: the end of the string, or the newline that ends it. *)
Definition at_end (s : string) : bool :=
  match s with
  | EmptyString => true
  | String c EmptyString => Str.is_newline c
  | String _ (String _ _) => false
  end.

(** A literal, then the rest of the pattern [k]. *)
Definition lit (p : string) (k : string -> bool) (s : string) : bool :=
  match Str.strip_prefix p s with
  | Some rest => k rest
  | None => false
  end.

(** One character of the class [f], then the rest of the pattern [k]. *)
Definition one (f : ascii -> bool) (k : string -> bool) (s : string) : bool :=
  match s with
  | EmptyString => false
  | String c s' => f c && k s'
  end.

(** [[f]{lo,hi}], then the rest of the pattern [k]: one more character
    first, and what was taken so far when the rest fails after it. *)
Fixpoint rep (f : ascii -> bool) (lo hi : nat) (k : string -> bool) (s : string) : bool :=
  match hi with
  | O => Nat.eqb lo 0 && k s
  | S hi' =>
      match s with
      | EmptyString => false
      | String c s' => f c && rep f (Nat.pred lo) hi' k s'
      end
      || (Nat.eqb lo 0 && k s)
  end.

(** [re.match(r'^\d{1,3}\.\d{1,3}\.\d{1,3}\.\d{1,3}$', host)] *)
Definition match_ipv4 (host : string) : bool :=
  rep Str.isdigit 1 3 (lit "."
    (rep Str.isdigit 1 3 (lit "."
      (rep Str.isdigit 1 3 (lit "."
        (rep Str.isdigit 1 3 at_end)))))) host.

(** [re.match(r'^[a-zA-Z0-9][a-zA-Z0-9.-]*[a-zA-Z0-9]$', host)] *)
Definition match_hostname (host : string) : bool :=
  one isalnum (rep ishostchar 0 (String.length host) (one isalnum at_end)) host.

(** [validate_host] *)
Definition validate_host (host : string) : bool :=
  if Str.is_empty host || (len (list_ascii_of_string (Str.strip host)) =? 0) then false
  else
    let host := Str.strip host in
    if match_ipv4 host then true
    else if match_hostname host then true
    else 0 <? len (list_ascii_of_string host).

(** *** Connectivity and batches *)

(** [d['host']] *)
Definition get_host (d : PingDict) : string :=
  match d with
  | Parsed p => pp_host p
  | Failure f => pf_host f
  end.

(** [d['timestamp']]: only the dictionary of the main parse path has the
    key. *)
Definition get_timestamp (d : PingDict) : outcome Z :=
  match d with
  | Parsed p => Return (pp_timestamp p)
  | Failure _ => Raised (Exception "'timestamp'")
  end.

(** [d.get('avg_response_time_ms')] *)
Definition get_avg_response_time_ms (d : PingDict) : option Float.float :=
  match d with
  | Parsed p => pp_avg_response_time_ms p
  | Failure _ => None
  end.

(** The two dictionaries [test_connectivity] returns. *)
Inductive Connectivity : Type :=
| Good (host : string) (response_time_ms : option Float.float) (timestamp : Z)
| Failed (host : string) (error : string) (timestamp : Z).

(** [r['connectivity']] *)
Definition connectivity (r : Connectivity) : string :=
  match r with
  | Good _ _ _ => "good"
  | Failed _ _ _ => "failed"
  end.

Section Callers.

(** What running the ping utility does. *)
Variable subprocess_exec : list string -> process.

(** [test_connectivity]; [now] is the reading of the clock that stamps the
    parsed result, [now'] the one [test_connectivity] takes itself. *)
Definition test_connectivity (now now' : Z) (host : string) : outcome Connectivity :=
  match ping_async now subprocess_exec host (Some 1) (Some 3) with
  | Raised e => Raised e
  | Return result =>
      if get_success result then
        match get_timestamp result with
        | Return timestamp =>
            Return (Good host (get_avg_response_time_ms result) timestamp)
        | Raised e => Raised e
        end
      else
        Return (Failed host
                  (match get_error result with
                   | Some error => error
                   | None => "Unknown error"
                   end)
                  now')
  end.

(** The tasks of [ping_batch], gathered with [return_exceptions=True]: the
    probe of the host at index [i] stamps its result with [clock i]. *)
Fixpoint gather (clock : nat -> Z) (i : nat) (hosts : list string) (count timeout : option Z)
    : list (outcome PingDict) :=
  match hosts with
  | [] => []
  | host :: rest =>
      ping_async (clock i) subprocess_exec host count timeout
      :: gather clock (S i) rest count timeout
  end.

(** [for i, result in enumerate(results): ...] *)
Fixpoint process_results (hosts : list string) (i : nat) (results : list (outcome PingDict))
    : outcome (list PingDict) :=
  match results with
  | [] => Return []
  | result :: rest =>
      match result with
      | Raised e =>
          match nth_error hosts i with
          | None => Raised (Exception "list index out of range")
          | Some host =>
              match process_results hosts (S i) rest with
              | Return processed =>
                  Return (Failure {| pf_host := host; pf_error := str_exn e;
                                     pf_output := None; pf_stderr := None;
                                     pf_timeout := None; pf_raw_output := None |}
                          :: processed)
              | Raised e' => Raised e'
              end
          end
      | Return d =>
          match process_results hosts (S i) rest with
          | Return processed => Return (d :: processed)
          | Raised e' => Raised e'
          end
      end
  end.

(** [ping_batch] *)
Definition ping_batch (clock : nat -> Z) (hosts : list string) (count timeout : option Z)
    : outcome (list PingDict) :=
  match hosts with
  | [] => Return []
  | _ :: _ => process_results hosts 0 (gather clock 0 hosts count timeout)
  end.

End Callers.

End PingCollector.

(** ** Configuration: src/core/config.py *)

Record DestinationConfig : Type := {
  dc_host : string;
  dc_display_name : string
}.

Record JobConfig : Type := {
  jc_name : string;
  jc_interval : Z;                        (* seconds *)
  jc_enabled : bool;
  jc_metrics : list string;
  jc_destinations : list DestinationConfig
}.

(** The registry of jobs that [Config] keeps: [self.jobs], a dictionary from
    names to configurations.  A method that changes it returns the new
    dictionary, or raises and leaves it as it was. *)
Module Config.

(** [get_job] *)
Definition get_job (jobs : gmap string JobConfig) (name : string) : option JobConfig :=
  jobs !! name.

(** [get_all_jobs] *)
Definition get_all_jobs (jobs : gmap string JobConfig) : gmap string JobConfig := jobs.

(** [get_enabled_jobs] *)
Definition get_enabled_jobs (jobs : gmap string JobConfig) : gmap string JobConfig :=
  filter (fun entry : string * JobConfig => jc_enabled (snd entry) = true) jobs.

(** The loop of [_load_config] over the job configurations of the file. *)
Definition load_jobs (jobs_data : list JobConfig) : gmap string JobConfig :=
  fold_left (fun jobs job_config => <[jc_name job_config := job_config]> jobs) jobs_data ∅.

(** [add_job] *)
Definition add_job (job_config : JobConfig) (jobs : gmap string JobConfig)
    : outcome (gmap string JobConfig) :=
  match jobs !! jc_name job_config with
  | Some _ => Raised (Exception ("Job '" ++ jc_name job_config ++ "' already exists"))
  | None => Return (<[jc_name job_config := job_config]> jobs)
  end.

(** [update_job] *)
Definition update_job (name : string) (job_config : JobConfig) (jobs : gmap string JobConfig)
    : outcome (gmap string JobConfig) :=
  match jobs !! name with
  | None => Raised (Exception ("Job '" ++ name ++ "' not found"))
  | Some _ =>
      if negb (String.eqb (jc_name job_config) name) then
        match jobs !! jc_name job_config with
        | Some _ => Raised (Exception ("Job '" ++ jc_name job_config ++ "' already exists"))
        | None => Return (<[jc_name job_config := job_config]> (delete name jobs))
        end
      else Return (<[jc_name job_config := job_config]> jobs)
  end.

(** [remove_job] *)
Definition remove_job (name : string) (jobs : gmap string JobConfig)
    : outcome (gmap string JobConfig) :=
  match jobs !! name with
  | None => Raised (Exception ("Job '" ++ name ++ "' not found"))
  | Some _ => Return (delete name jobs)
  end.

End Config.

(** ** Destinations: src/services/destination_manager.py *)

Module DestinationManager.

(** [s.isspace()] *)
Definition isspace (s : string) : bool :=
  negb (Str.is_empty s) && forallb Str.isspace (list_ascii_of_string s).

(** [_validate_host] *)
Definition _validate_host (host : string) : bool :=
  if Str.is_empty host || (PingCollector.len (list_ascii_of_string (Str.strip host)) =? 0)
  then false
  else
    let host := Str.strip host in
    (0 <? PingCollector.len (list_ascii_of_string host)) && negb (isspace host).

End DestinationManager.

(** ** The store and the engine's state *)

(** The columns of [jobs] that the engine reads and writes. *)
Record Job : Type := {
  job_id : Z;
  job_enabled : bool;
  job_last_run : option Z;
  job_next_run : option Z
}.

Record JobRun : Type := {
  run_id : Z;
  run_job_id : Z;
  run_start_time : Z;
  run_end_time : option Z;
  run_status : string;
  run_total_destinations : Z;
  run_successful_destinations : Z;
  run_failed_destinations : Z;
  run_error_message : option string
}.

(** The values the engine passes to a constructor by keyword. *)
#[warnings="-register-all"] Inductive value : Type :=
| VNone
| VBool (b : bool)
| VInt (n : Z)
| VFloat (x : Float.float)
| VStr (s : string)
| VDict (entries : list (string * value)).

(** An instance of a model class: the attributes its constructor has set,
    in the order of the call. *)
Definition instance : Type := list (string * value).

(** The constructor that [declarative_base] gives a model class:
    [for k in kwargs: if not hasattr(cls_, k): raise TypeError(...);
    setattr(self, k, kwargs[k])]. *)
Fixpoint declarative_constructor (cls_name : string) (attributes : list string)
    (kwargs : list (string * value)) : outcome instance :=
  match kwargs with
  | [] => Return []
  | (k, v) :: rest =>
      if existsb (String.eqb k) attributes then
        self ← declarative_constructor cls_name attributes rest;
        Return ((k, v) :: self)
      else
        Raised (Exception ("'" ++ k ++ "' is an invalid keyword argument for " ++ cls_name))
  end.

(** A row of [metrics]. *)
Definition MetricRecord : Type := instance.

(** The attributes of class [MetricRecord] (src/core/database.py) that a
    keyword can name: its columns, and [metadata] and [registry], which every
    class of [Base] has. *)
Definition MetricRecord_attributes : list string :=
  ["id"; "timestamp"; "job_id"; "destination_id"; "host"; "metric_type"; "status";
   "response_time_ms"; "additional_data"; "created_at"; "metadata"; "registry"].

(** [MetricRecord( ... )] *)
Definition new_MetricRecord (kwargs : list (string * value)) : outcome MetricRecord :=
  declarative_constructor "MetricRecord" MetricRecord_attributes kwargs.

(** The execution unit of a job: the task around [_execute_job].  A task
    that was created and has not run yet is not started; one that has run up
    to an [await] inside the [try] of [_execute_job] is started.  A finished
    task has left the running map (the [finally] of [_execute_job]). *)
Record Task : Type := {
  task_job_id : Z;
  task_job_config : JobConfig;
  task_run_id : Z;
  task_started : bool
}.

(** The dispatch unit of a job: the task around [_delayed_job_execution]. *)
Record Dispatch : Type := {
  dispatch_job_id : Z;
  dispatch_job_config : JobConfig;
  dispatch_delay : Z;                     (* microseconds *)
  dispatch_done : bool                    (* task.done() *)
}.

Record World : Type := {
  running_jobs : gmap Z Task;             (* JobManager._running_jobs *)
  scheduled_jobs : gmap Z Dispatch;       (* Scheduler._scheduled_jobs *)
  jobs : list Job;                        (* table jobs *)
  job_runs : list JobRun;                 (* table job_runs *)
  metrics : list MetricRecord;            (* table metrics *)
  faults : list (option exn);             (* what the next sessions do: [Some e] raises [e] *)
  probes : list string                    (* the hosts probed so far *)
}.

Definition set_running_jobs (f : gmap Z Task -> gmap Z Task) (w : World) : World :=
  {| running_jobs := f (running_jobs w); scheduled_jobs := scheduled_jobs w;
     jobs := jobs w; job_runs := job_runs w; metrics := metrics w;
     faults := faults w; probes := probes w |}.

Definition set_scheduled_jobs (f : gmap Z Dispatch -> gmap Z Dispatch) (w : World) : World :=
  {| running_jobs := running_jobs w; scheduled_jobs := f (scheduled_jobs w);
     jobs := jobs w; job_runs := job_runs w; metrics := metrics w;
     faults := faults w; probes := probes w |}.

Definition set_jobs (f : list Job -> list Job) (w : World) : World :=
  {| running_jobs := running_jobs w; scheduled_jobs := scheduled_jobs w;
     jobs := f (jobs w); job_runs := job_runs w; metrics := metrics w;
     faults := faults w; probes := probes w |}.

Definition set_job_runs (f : list JobRun -> list JobRun) (w : World) : World :=
  {| running_jobs := running_jobs w; scheduled_jobs := scheduled_jobs w;
     jobs := jobs w; job_runs := f (job_runs w); metrics := metrics w;
     faults := faults w; probes := probes w |}.

Definition set_metrics (f : list MetricRecord -> list MetricRecord) (w : World) : World :=
  {| running_jobs := running_jobs w; scheduled_jobs := scheduled_jobs w;
     jobs := jobs w; job_runs := job_runs w; metrics := f (metrics w);
     faults := faults w; probes := probes w |}.

Definition set_faults (fs : list (option exn)) (w : World) : World :=
  {| running_jobs := running_jobs w; scheduled_jobs := scheduled_jobs w;
     jobs := jobs w; job_runs := job_runs w; metrics := metrics w;
     faults := fs; probes := probes w |}.

Definition set_probes (f : list string -> list string) (w : World) : World :=
  {| running_jobs := running_jobs w; scheduled_jobs := scheduled_jobs w;
     jobs := jobs w; job_runs := job_runs w; metrics := metrics w;
     faults := faults w; probes := f (probes w) |}.

(** *** Effects: state and exceptions *)

Definition Eff (A : Type) : Type := World -> outcome A * World.

Definition ret {A : Type} (a : A) : Eff A := fun w => (Return a, w).

Definition raise {A : Type} (e : exn) : Eff A := fun w => (Raised e, w).

Definition bind {A B : Type} (m : Eff A) (k : A -> Eff B) : Eff B :=
  fun w =>
    match m w with
    | (Return a, w') => k a w'
    | (Raised e, w') => (Raised e, w')
    end.

Notation "x <- m ;; k" := (bind m (fun x => k))
  (at level 100, m at next level, right associativity).
Notation "m ;;; k" := (bind m (fun _ => k))
  (at level 100, right associativity).

(** [try: body except Exception as e: handler(e)] *)
Definition try_ {A : Type} (body : Eff A) (handler : exn -> Eff A) : Eff A :=
  fun w =>
    match body w with
    | (Return a, w') => (Return a, w')
    | (Raised e, w') => handler e w'
    end.

(** [try: body finally: cleanup] *)
Definition finally {A : Type} (body : Eff A) (cleanup : World -> World) : Eff A :=
  fun w => let (r, w') := body w in (r, cleanup w').

Definition get : Eff World := fun w => (Return w, w).

Definition modify (f : World -> World) : Eff unit := fun w => (Return tt, f w).

(** [async with self.db.async_session() as session: ...; await session.commit()]:
    the session raises what the script of faults says and changes nothing,
    or it runs [body] on the tables. *)
Definition session {A : Type} (body : World -> A * World) : Eff A :=
  fun w =>
    match faults w with
    | Some e :: fs => (Raised e, set_faults fs w)
    | None :: fs => let (a, w') := body (set_faults fs w) in (Return a, w')
    | [] => let (a, w') := body w in (Return a, w')
    end.

(** [UPDATE table SET ... WHERE id = row_id] *)
Definition update_where {R : Type} (id_of : R -> Z) (row_id : Z) (f : R -> R) (rows : list R) : list R :=
  map (fun r => if id_of r =? row_id then f r else r) rows.

(** The id an autoincrement key gives the next row. *)
Definition next_id {R : Type} (id_of : R -> Z) (rows : list R) : Z :=
  1 + fold_right Z.max 0 (map id_of rows).

(** A call that touches no state. *)
Definition lift {A : Type} (r : outcome A) : Eff A := fun w => (r, w).

(** *** Instants *)

(** [datetime.min] and [datetime.max]: the first microsecond of the year 1
    and the last of the year 9999. *)
Definition datetime_min : Z := -62135596800000000.
Definition datetime_max : Z := 253402300799999999.

(** The microseconds of [s] seconds. *)
Definition timedelta_seconds (s : Z) : Z := s * 1000000.

(** [timedelta(seconds=s)]: a [timedelta] holds at most 999999999 days. *)
Definition timedelta (s : Z) : outcome Z :=
  if (-999999999 <=? s / 86400) && (s / 86400 <=? 999999999)
  then Return (timedelta_seconds s)
  else Raised (Exception ("days=" ++ str_of_Z (s / 86400) ++ "; must have magnitude <= 999999999")).

(** [t + d] for a [datetime] and a [timedelta]. *)
Definition datetime_add (t d : Z) : outcome Z :=
  if (datetime_min <=? t + d) && (t + d <=? datetime_max) then Return (t + d)
  else Raised (Exception "date value out of range").

(** [now + timedelta(seconds=interval)] *)
Definition after_interval (now interval : Z) : outcome Z :=
  d ← timedelta interval; datetime_add now d.

(** ** Job execution: src/services/job_manager.py *)

Module JobManager.

(** The dictionary [get_destination_by_host] returns: the engine reads
    [destination['id']]. *)
Record Destination : Type := { dest_id : Z }.

(** The dictionary the engine expects of [ping_host], with the keys it
    reads: ['success'] and ['latency_ms'] by subscript, the others by
    [get]. *)
Record PingResult : Type := {
  pr_success : bool;
  pr_latency_ms : value;
  pr_packet_loss : option value;
  pr_jitter_ms : option value;
  pr_min_latency_ms : option value;
  pr_max_latency_ms : option value
}.

(** [d.get(key, default)] *)
Definition get_or (x : option value) (default : value) : value :=
  match x with
  | Some v => v
  | None => default
  end.

Record JobExecutionResult : Type := {
  r_job_id : Z;
  r_success : bool;
  r_metrics_collected : Z;
  r_destinations_successful : Z;
  r_destinations_failed : Z;
  r_error_message : option string;
  r_end_time : Z
}.

(** The local counters of [_execute_job]. *)
Record Counters : Type := {
  metrics_collected : Z;
  destinations_successful : Z;
  destinations_failed : Z
}.

(** [_create_job_run] *)
Definition _create_job_run (now job total_destinations : Z) : Eff (option Z) :=
  try_
    (session (fun w =>
       let run :=
         {| run_id := next_id run_id (job_runs w);
            run_job_id := job;
            run_start_time := now;
            run_end_time := None;
            run_status := "running";
            run_total_destinations := total_destinations;
            run_successful_destinations := 0;
            run_failed_destinations := 0;
            run_error_message := None |} in
       (Some (run_id run), set_job_runs (fun rows => (rows ++ [run])%list) w)))
    (fun e => ret None).

(** [_complete_job_run] *)
Definition _complete_job_run (run : Z) (result : JobExecutionResult) : Eff unit :=
  try_
    (session (fun w =>
       (tt, set_job_runs
              (update_where run_id run (fun r =>
                 {| run_id := run_id r;
                    run_job_id := run_job_id r;
                    run_start_time := run_start_time r;
                    run_end_time := Some (r_end_time result);
                    run_status := if r_success result then "completed" else "failed";
                    run_total_destinations := run_total_destinations r;
                    run_successful_destinations := r_destinations_successful result;
                    run_failed_destinations := r_destinations_failed result;
                    run_error_message := r_error_message result |})) w)))
    (fun e => ret tt).

(** [_update_job_status] *)
Definition _update_job_status (job : Z) (enabled : bool) : Eff unit :=
  try_
    (session (fun w =>
       (tt, set_jobs
              (update_where job_id job (fun j =>
                 {| job_id := job_id j;
                    job_enabled := enabled;
                    job_last_run := job_last_run j;
                    job_next_run := job_next_run j |})) w)))
    (fun e => ret tt).

(** [_update_job_after_run]; [now] is the reading of the clock it takes. *)
Definition _update_job_after_run (now job interval : Z) (result : JobExecutionResult) : Eff unit :=
  try_
    (next_run <- lift (if r_success result then after_interval now interval else Return now) ;;
     session (fun w =>
       (tt, set_jobs
              (update_where job_id job (fun j =>
                 {| job_id := job_id j;
                    job_enabled := r_success result;
                    job_last_run := Some (r_end_time result);
                    job_next_run := Some next_run |})) w)))
    (fun e => ret tt).

(** [start_job]; [now] stamps the [start_time] of the run. *)
Definition start_job (now job : Z) (job_config : JobConfig) : Eff bool :=
  try_
    (w <- get ;;
     match running_jobs w !! job with
     | Some _ => ret false
     | None =>
         run <- _create_job_run now job (PingCollector.len (jc_destinations job_config)) ;;
         match run with
         | None => ret false
         | Some id =>
             if id =? 0 then ret false
             else
               let task := {| task_job_id := job; task_job_config := job_config;
                              task_run_id := id; task_started := false |} in
               modify (set_running_jobs (insert job task)) ;;;
               ret true
         end
     end)
    (fun e => ret false).

(** [task.cancel()] followed by [await task], with the [CancelledError] of
    the awaited task absorbed.  A task that has not started never runs.  A
    started task receives the cancellation at the [await] where it waits,
    inside the [try] of [_execute_job]: no [except Exception] clause handles
    it, and the [finally] clause removes the job from the running map. *)
Definition cancel_and_await (task : Task) : Eff unit :=
  if task_started task
  then modify (set_running_jobs (delete (task_job_id task)))
  else ret tt.

(** The event loop gives the task of a job its first turn: [_execute_job]
    runs up to an [await] inside its [try] and waits there. *)
Definition task_begins (job : Z) : World -> World :=
  set_running_jobs
    (alter (fun task =>
              {| task_job_id := task_job_id task;
                 task_job_config := task_job_config task;
                 task_run_id := task_run_id task;
                 task_started := true |}) job).

(** [del self._running_jobs[job_id]] *)
Definition del_running_job (job : Z) : Eff unit :=
  fun w =>
    match running_jobs w !! job with
    | Some _ => (Return tt, set_running_jobs (delete job) w)
    | None => (Raised (KeyError job), w)
    end.

(** [stop_job] *)
Definition stop_job (job : Z) : Eff bool :=
  try_
    (w <- get ;;
     match running_jobs w !! job with
     | None => ret false
     | Some task =>
         cancel_and_await task ;;;
         del_running_job job ;;;
         _update_job_status job false ;;;
         ret true
     end)
    (fun e => ret false).

(** [get_running_jobs] *)
Definition get_running_jobs (w : World) : gset Z := dom (running_jobs w).

(** [next_run > datetime.now(timezone.utc)] in [get_job_status].  The
    columns of [Job] are [DateTime] without a time zone, so the row holds a
    naive [datetime]; the reading of the clock is an aware one, and Python
    refuses to compare the two. *)
Definition later_than (next_run now : Z) : outcome bool :=
  Raised (Exception "can't compare offset-naive and offset-aware datetimes").

(** [get_job_status]; [now] is the reading of the clock it takes. *)
Definition get_job_status (now job : Z) : Eff (option string) :=
  try_
    (row <- session (fun w => (List.find (fun j => job_id j =? job) (jobs w), w)) ;;
     match row with
     | None => ret None
     | Some row =>
         w <- get ;;
         let is_enabled := job_enabled row in
         let is_running := bool_decide (is_Some (running_jobs w !! job)) in
         let next_run := job_next_run row in
         if is_running then ret (Some "running")
         else
           scheduled <- lift (if is_enabled
                              then match next_run with
                                   | Some next_run => later_than next_run now
                                   | None => Return false
                                   end
                              else Return false) ;;
           if scheduled then ret (Some "scheduled")
           else if is_enabled then ret (Some "ready")
           else ret (Some "disabled")
     end)
    (fun e => ret None).

(** [for job_id in jobs_to_stop: await self.stop_job(job_id)] *)
Fixpoint stop_each (jobs_to_stop : list Z) : Eff unit :=
  match jobs_to_stop with
  | [] => ret tt
  | job :: rest => stop_job job ;;; stop_each rest
  end.

(** [shutdown].  [jobs_to_stop] is [list(self._running_jobs.keys())]: the
    keys of the running map in the order of their insertion, an order that
    the map of the embedding does not record.  The flag [_shutdown] that the
    method sets is read nowhere. *)
Definition shutdown (jobs_to_stop : list Z) : Eff unit :=
  stop_each jobs_to_stop.

(** [self.ping_collector.ping_host] in the sources: [self.ping_collector] is
    a [PingCollector], a class without a [ping_host]; the attribute is looked
    up before the call and the lookup raises [AttributeError]. *)
Definition PingCollector_ping_host (host : string) (count timeout : Z) : outcome PingResult :=
  Raised (Exception "'PingCollector' object has no attribute 'ping_host'").

Section Collaborators.

(** [DestinationManager.get_destination_by_host] *)
Variable get_destination_by_host : string -> outcome (option Destination).

(** [self.ping_collector.ping_host]: what the call does. *)
Variable ping_host : string -> Z -> Z -> outcome PingResult.

(** [await self.ping_collector.ping_host(host, count=..., timeout=...)],
    noted in the log of the hosts a probe was asked for. *)
Definition call_ping_host (host : string) (count timeout : Z) : Eff PingResult :=
  fun w => (ping_host host count timeout, set_probes (fun log => (log ++ [host])%list) w).

(** [session.add(metric); await session.commit()] *)
Definition add_metric (metric : MetricRecord) : Eff unit :=
  session (fun w => (tt, set_metrics (fun rows => (rows ++ [metric])%list) w)).

(** The keyword arguments of the metric of a probe that returned. *)
Definition metric_kwargs (now job destination run : Z) (ping_result : PingResult)
    : list (string * value) :=
  [ ("job_id", VInt job);
    ("destination_id", VInt destination);
    ("metric_type", VStr "ping");
    ("value", pr_latency_ms ping_result);
    ("unit", VStr "ms");
    ("status", VStr (if pr_success ping_result then "success" else "failed"));
    ("timestamp", VInt now);
    ("metadata",
     VDict [ ("run_id", VInt run);
             ("packet_loss", get_or (pr_packet_loss ping_result) (VInt 0));
             ("jitter", get_or (pr_jitter_ms ping_result) (VInt 0));
             ("min_latency", get_or (pr_min_latency_ms ping_result) VNone);
             ("max_latency", get_or (pr_max_latency_ms ping_result) VNone) ]) ].

(** The keyword arguments of the metric of a probe that failed. *)
Definition failed_metric_kwargs (now job destination run : Z) (e : exn)
    : list (string * value) :=
  [ ("job_id", VInt job);
    ("destination_id", VInt destination);
    ("metric_type", VStr "ping");
    ("value", VInt 0);
    ("unit", VStr "ms");
    ("status", VStr "failed");
    ("timestamp", VInt now);
    ("metadata", VDict [ ("run_id", VInt run); ("error", VStr (str_exn e)) ]) ].

(** [_collect_ping_metric]; [now] stamps the metric. *)
Definition _collect_ping_metric (now job destination : Z)
    (destination_config : DestinationConfig) (run : Z) : Eff unit :=
  try_
    (ping_result <- call_ping_host (dc_host destination_config) 4 5 ;;
     metric <- lift (new_MetricRecord (metric_kwargs now job destination run ping_result)) ;;
     add_metric metric)
    (fun e =>
       metric <- lift (new_MetricRecord (failed_metric_kwargs now job destination run e)) ;;
       add_metric metric).

(** [for metric_type in job_config.metrics: ...], with the count of the
    metrics collected before the loop ends or raises. *)
Fixpoint collect_metrics (now job destination : Z) (destination_config : DestinationConfig)
    (run : Z) (metric_types : list string) (collected : Z) (w : World)
    : outcome unit * Z * World :=
  match metric_types with
  | [] => (Return tt, collected, w)
  | metric_type :: rest =>
      if String.eqb metric_type "ping" then
        match _collect_ping_metric now job destination destination_config run w with
        | (Return _, w') =>
            collect_metrics now job destination destination_config run rest (collected + 1) w'
        | (Raised e, w') => (Raised e, collected, w')
        end
      else collect_metrics now job destination destination_config run rest collected w
  end.

(** The body of [for destination_config in job_config.destinations], one
    destination: the [try] with its [except Exception]. *)
Definition collect_destination (now job run : Z) (job_config : JobConfig)
    (c : Counters) (destination_config : DestinationConfig) (w : World) : Counters * World :=
  let failed :=
    {| metrics_collected := metrics_collected c;
       destinations_successful := destinations_successful c;
       destinations_failed := destinations_failed c + 1 |} in
  match get_destination_by_host (dc_host destination_config) with
  | Raised e => (failed, w)
  | Return None => (failed, w)
  | Return (Some destination) =>
      match collect_metrics now job (dest_id destination) destination_config run
              (jc_metrics job_config) (metrics_collected c) w with
      | (Return _, collected, w') =>
          ({| metrics_collected := collected;
              destinations_successful := destinations_successful c + 1;
              destinations_failed := destinations_failed c |}, w')
      | (Raised e, collected, w') =>
          ({| metrics_collected := collected;
              destinations_successful := destinations_successful c;
              destinations_failed := destinations_failed c + 1 |}, w')
      end
  end.

Fixpoint collect_destinations (now job run : Z) (job_config : JobConfig)
    (destinations : list DestinationConfig) (c : Counters) (w : World) : Counters * World :=
  match destinations with
  | [] => (c, w)
  | destination_config :: rest =>
      let (c', w') := collect_destination now job run job_config c destination_config w in
      collect_destinations now job run job_config rest c' w'
  end.

Definition no_counts : Counters :=
  {| metrics_collected := 0; destinations_successful := 0; destinations_failed := 0 |}.

(** [_execute_job], run from its first statement to its end.  The clock is
    read for the metrics ([stamp]), when the result is built ([end_time]) and
    in [_update_job_after_run] ([now]). *)
Definition _execute_job (stamp end_time now job : Z) (job_config : JobConfig) (run : Z) : Eff unit :=
  finally
    (fun w =>
       let (c, w1) :=
         collect_destinations stamp job run job_config (jc_destinations job_config) no_counts w in
       try_
         (let result :=
            {| r_job_id := job;
               r_success := destinations_failed c =? 0;
               r_metrics_collected := metrics_collected c;
               r_destinations_successful := destinations_successful c;
               r_destinations_failed := destinations_failed c;
               r_error_message := None;
               r_end_time := end_time |} in
          _complete_job_run run result ;;;
          _update_job_after_run now job (jc_interval job_config) result)
         (fun e =>
            let result :=
              {| r_job_id := job;
                 r_success := false;
                 r_metrics_collected := metrics_collected c;
                 r_destinations_successful := destinations_successful c;
                 r_destinations_failed := destinations_failed c;
                 r_error_message := Some (str_exn e);
                 r_end_time := end_time |} in
            _complete_job_run run result)
         w1)
    (set_running_jobs (delete job)).

End Collaborators.

End JobManager.

(** ** Scheduling: src/services/scheduler.py *)

Module Scheduler.

(** [_calculate_next_run]; [now] is the reading of the clock it takes. *)
Definition _calculate_next_run (now : Z) (job_config : JobConfig) : outcome (option Z) :=
  next_run ← after_interval now (jc_interval job_config);
  Return (Some next_run).

(** [_update_job_next_run] *)
Definition _update_job_next_run (job : Z) (next_run : option Z) : Eff unit :=
  try_
    (session (fun w =>
       (tt, set_jobs
              (update_where job_id job (fun j =>
                 {| job_id := job_id j;
                    job_enabled := job_enabled j;
                    job_last_run := job_last_run j;
                    job_next_run := next_run |})) w)))
    (fun e => ret tt).

(** [schedule_job]; [now] is the reading of the clock in
    [_calculate_next_run], [now'] the one that the delay is computed from. *)
Definition schedule_job (now now' job : Z) (job_config : JobConfig) : Eff bool :=
  try_
    (w <- get ;;
     let running_jobs := JobManager.get_running_jobs w in
     if bool_decide (job ∈ running_jobs) then ret false
     else
       next_run_time <- lift (_calculate_next_run now job_config) ;;
       match next_run_time with
       | None => ret false
       | Some next_run_time =>
           let delay := next_run_time - now' in
           let delay := if delay <? 0 then 0 else delay in
           let task := {| dispatch_job_id := job; dispatch_job_config := job_config;
                          dispatch_delay := delay; dispatch_done := false |} in
           modify (set_scheduled_jobs (insert job task)) ;;;
           _update_job_next_run job (Some next_run_time) ;;;
           ret true
       end)
    (fun e => ret false).

(** [_cleanup_completed_tasks] *)
Definition _cleanup_completed_tasks : Eff unit :=
  modify (set_scheduled_jobs
            (filter (fun entry : Z * Dispatch => dispatch_done (snd entry) = false))).

(** The [WHERE] clause of [_reschedule_jobs]; a [NULL] [next_run] fails the
    comparison. *)
Definition due (now : Z) (running_jobs scheduled_jobs : gset Z) (job : Job) : bool :=
  job_enabled job
  && match job_next_run job with
     | Some next_run => next_run <=? now
     | None => false
     end
  && bool_decide (job_id job ∉ running_jobs ∪ scheduled_jobs).

(** [unschedule_job].  [task.cancel()] asks the dispatch unit to stop; the
    unit leaves the map here. *)
Definition unschedule_job (job : Z) : Eff bool :=
  try_
    (w <- get ;;
     match scheduled_jobs w !! job with
     | Some task => modify (set_scheduled_jobs (delete job))
     | None => ret tt
     end ;;;
     _update_job_next_run job None ;;;
     ret true)
    (fun e => ret false).

(** [_is_job_enabled]: [scalar_one] raises unless the query returns one
    row. *)
Definition _is_job_enabled (job : Z) : Eff bool :=
  try_
    (rows <- session (fun w => (List.filter (fun j => job_id j =? job) (jobs w), w)) ;;
     match rows with
     | [row] => ret (job_enabled row || false)
     | [] => raise (Exception "No row was found when one was required")
     | _ :: _ :: _ => raise (Exception "Multiple rows were found when exactly one was required")
     end)
    (fun e => ret false).

(** [_delayed_job_execution], run from the end of its sleep to its end.
    [now] is the reading of the clock in [start_job]; [next] and [retry] are
    the pairs of readings of [schedule_job] after a start and in the handler
    of an exception. *)
Definition _delayed_job_execution (now : Z) (next retry : Z * Z) (job : Z) (job_config : JobConfig)
    : Eff unit :=
  finally
    (try_
       (enabled <- _is_job_enabled job ;;
        if negb enabled then ret tt
        else
          started <- JobManager.start_job now job job_config ;;
          if started then
            schedule_job (fst next) (snd next) job job_config ;;; ret tt
          else
            schedule_job (fst next) (snd next) job job_config ;;; ret tt)
       (fun e =>
          try_ (schedule_job (fst retry) (snd retry) job job_config ;;; ret tt)
               (fun e' => ret tt)))
    (set_scheduled_jobs (delete job)).

(** [JobConfig.parse_raw(job.config)] in the sources: class [Job]
    (src/core/database.py) has no column and no attribute [config], and
    reading it raises [AttributeError]. *)
Definition parse_raw_config (job : Job) : outcome JobConfig :=
  Raised (Exception "'Job' object has no attribute 'config'").

Section Collaborators.

(** The decoding of a row, [JobConfig.parse_raw(job.config)], as a parameter
    of the loop; [parse_raw_config] is the one of the sources. *)
Variable parse_config : Job -> outcome JobConfig.

(** The two readings of the clock that the call of [schedule_job] for a job
    takes. *)
Variable clock : Z -> Z * Z.

(** [for job in jobs_to_reschedule: ...], with the ids [schedule_job] was
    called on, in order, before the loop ends or raises. *)
Fixpoint reschedule_each (jobs_to_reschedule : list Job) (called : list Z) (w : World)
    : outcome unit * list Z * World :=
  match jobs_to_reschedule with
  | [] => (Return tt, called, w)
  | job :: rest =>
      match parse_config job with
      | Raised e => (Raised e, called, w)
      | Return job_config =>
          match schedule_job (fst (clock (job_id job))) (snd (clock (job_id job)))
                  (job_id job) job_config w with
          | (Return _, w') => reschedule_each rest (called ++ [job_id job])%list w'
          | (Raised e, w') => (Raised e, (called ++ [job_id job])%list, w')
          end
      end
  end.

(** [_reschedule_jobs]; [now] is the reading of the clock it takes.  The
    result lists the ids [schedule_job] was called on. *)
Definition _reschedule_jobs (now : Z) (w : World) : list Z * World :=
  let running_jobs := JobManager.get_running_jobs w in
  let scheduled_jobs := dom (scheduled_jobs w) in
  match session (fun w' => (List.filter (due now running_jobs scheduled_jobs) (jobs w'), w')) w with
  | (Return jobs_to_reschedule, w1) =>
      let '(_, called, w2) := reschedule_each jobs_to_reschedule [] w1 in
      (called, w2)
  | (Raised e, w1) => ([], w1)
  end.

(** The body of one iteration of [_scheduler_loop], up to its sleep. *)
Definition scheduler_iteration (now : Z) (w : World) : list Z * World :=
  match _cleanup_completed_tasks w with
  | (_, w1) => _reschedule_jobs now w1
  end.

End Collaborators.

End Scheduler.

(** ** Vocabulary of the statements *)

(** *** Jitter, in the words of the specification

    The population standard deviation of [l] is the square root of the mean
    of the squares minus the square of the mean. *)
Definition population_variance (l : list Z) : Q :=
  (inject_Z (PingCollector.sum_Z (map (fun x : Z => (x * x)%Z) l)) / inject_Z (PingCollector.len l)
   - (inject_Z (PingCollector.sum_Z l) / inject_Z (PingCollector.len l)) ^ 2)%Q.

(** [k] is the integer nearest to the square root of [x / 4], ties to the
    even one: with [s] that root, [|k - s| <= 1/2] reads
    [(2k-1)^2 <= x <= (2k+1)^2]. *)
Definition within_half (x : Q) (k : Z) : Prop :=
  0 <= k /\
  (0 < k -> (inject_Z ((2 * k - 1) * (2 * k - 1)) <= x)%Q) /\
  (x <= inject_Z ((2 * k + 1) * (2 * k + 1)))%Q /\
  ((x == inject_Z ((2 * k + 1) * (2 * k + 1)))%Q -> Z.even k = true) /\
  (0 < k -> (x == inject_Z ((2 * k - 1) * (2 * k - 1)))%Q -> Z.even k = true).

(** [k / 100] is the square root of [v] rounded to two decimal places. *)
Definition nearest_hundredth_of_sqrt (v : Q) (k : Z) : Prop :=
  within_half (40000 * v) k.

(** Zero, a positive number or the positive infinity. *)
Definition nonnegative (x : Float.float) : bool :=
  match x with
  | S754_zero false | S754_finite false _ _ | S754_infinity false => true
  | _ => false
  end.

Definition is_nan (x : Float.float) : bool :=
  match x with
  | S754_nan => true
  | _ => false
  end.

(** Zero or a number. *)
Definition is_finite (x : Float.float) : bool :=
  match x with
  | S754_zero _ | S754_finite _ _ _ => true
  | _ => false
  end.

(** The mean of the reply times is not too large for a [float]. *)
Definition mean_fits (times : list Z) : bool :=
  match times with
  | [] => true
  | _ :: _ =>
      negb (Float.is_infinite (Float.ratio (PingCollector.sum_Z times) (PingCollector.len times)))
  end.

(** The mean of the reply times, when there are some. *)
Definition mean (times : list Z) : option Float.float :=
  match times with
  | [] => None
  | _ :: _ => Some (Float.ratio (PingCollector.sum_Z times) (PingCollector.len times))
  end.

(** The number nearest to an integer: [float(n)], infinite when [n] is too
    large. *)
Definition nearest_float (n : Z) : Float.float :=
  binary_normalize Float.prec Float.emax n 0 false.

(** The integer that a number is, when it is one. *)
Definition integer_value (x : Float.float) : option Z :=
  match x with
  | S754_zero _ => Some 0
  | S754_finite s m e =>
      if 0 <=? e then Some ((if s then -1 else 1) * (Zpos m * 2 ^ e))
      else if Zpos m mod 2 ^ (- e) =? 0
           then Some ((if s then -1 else 1) * (Zpos m / 2 ^ (- e)))
           else None
  | _ => None
  end.

(** Two round-trip times a millisecond apart, beyond the integers that
    binary64 tells apart. *)
Definition huge_times : list Z := [10000000000000000; 10000000000000001].

(** 320 round-trip times of 0, 1 and 2 ms whose standard deviation is
    0.175. *)
Definition many_times : list Z := 2 :: repeat 1 6 ++ repeat 0 313.

(** *** Probe outputs *)

(** The reply times [_parse_ping_output] extracts from an output. *)
Definition parsed_replies (output : string) : list Z :=
  PingCollector.reply_times
    (fold_left PingCollector.parse_line (Str.split_lines (Str.strip output))
       PingCollector.parse_init).

(** What the ping utility prints, with exit code 0, when a router answers
    for an unreachable host. *)
Definition unreachable_output : string :=
"Pinging 10.0.0.1 with 32 bytes of data:
Reply from 192.168.1.1: Destination host unreachable.
Reply from 192.168.1.1: Destination host unreachable.
Reply from 192.168.1.1: Destination host unreachable.
Reply from 192.168.1.1: Destination host unreachable.

Ping statistics for 10.0.0.1:
    Packets: Sent = 4, Received = 4, Lost = 0 (0% loss),
".

(** Three replies out of four. *)
Definition lossy_output : string :=
"Pinging 8.8.8.8 with 32 bytes of data:
Reply from 8.8.8.8: bytes=32 time=15ms TTL=118
Reply from 8.8.8.8: bytes=32 time=14ms TTL=118
Request timed out.
Reply from 8.8.8.8: bytes=32 time=16ms TTL=118

Ping statistics for 8.8.8.8:
    Packets: Sent = 4, Received = 3, Lost = 1 (25% loss),
Approximate round trip times in milli-seconds:
    Minimum = 14ms, Maximum = 16ms, Average = 15ms
".

(** *** Lines of a report *)

Definition all_chars (f : ascii -> bool) (s : string) : bool :=
  forallb f (list_ascii_of_string s).

(** The first character of [s] exists and satisfies [f]. *)
Definition head_is (f : ascii -> bool) (s : string) : bool :=
  match s with
  | EmptyString => false
  | String c _ => f c
  end.

(** The last character of [s] exists and satisfies [f]. *)
Fixpoint last_is (f : ascii -> bool) (s : string) : bool :=
  match s with
  | EmptyString => false
  | String c EmptyString => f c
  | String _ s' => last_is f s'
  end.

(** Every character of [s] is white space. *)
Definition blank (s : string) : bool := all_chars Str.isspace s.

(** A dotted address: digits and dots, at least one. *)
Definition is_address (addr : string) : bool :=
  negb (Str.is_empty addr) && all_chars (fun c => Str.isdigit c || Str.is_dot c) addr.

Definition nonneg (n : option Z) : bool :=
  match n with
  | Some n => 0 <=? n
  | None => true
  end.

(** What the ping utility of Windows prints for a reply. *)
Definition reply_line (addr : string) (size time : Z) (ttl : option Z) : string :=
  "Reply from " ++ addr ++ ": bytes=" ++ str_of_Z size ++ " time=" ++ str_of_Z time ++ "ms"
  ++ match ttl with
     | Some n => " TTL=" ++ str_of_Z n
     | None => ""
     end.

(** What it prints for a reply that took less than a millisecond. *)
Definition fast_reply_line (addr : string) (size ttl : Z) : string :=
  "Reply from " ++ addr ++ ": bytes=" ++ str_of_Z size ++ " time<1ms TTL=" ++ str_of_Z ttl.

(** The summary of the packets. *)
Definition packets_line (sent received lost percent : Z) : string :=
  "    Packets: Sent = " ++ str_of_Z sent ++ ", Received = " ++ str_of_Z received
  ++ ", Lost = " ++ str_of_Z lost ++ " (" ++ str_of_Z percent ++ "% loss),".

(** The summary of the round trip times. *)
Definition statistics_line (lo hi avg : Z) : string :=
  "    Minimum = " ++ str_of_Z lo ++ "ms, Maximum = " ++ str_of_Z hi
  ++ "ms, Average = " ++ str_of_Z avg ++ "ms".

(** A line that the loop of [_parse_ping_output] passes over: it holds no
    newline, no reply and no word of loss. *)
Definition inert (text : string) : bool :=
  all_chars (fun c => negb (Str.is_newline c)) text
  && negb (Str.startswith "Reply from" (Str.strip text))
  && negb (Str.contains "packet loss" (Str.lower text))
  && negb (Str.contains "lost" (Str.lower text)).

Inductive ReportLine : Type :=
| Reply (addr : string) (size time : Z) (ttl : option Z)
| FastReply (addr : string) (size ttl : Z)
| Packets (sent received lost percent : Z)
| Other (text : string).

Definition render (l : ReportLine) : string :=
  match l with
  | Reply addr size time ttl => reply_line addr size time ttl
  | FastReply addr size ttl => fast_reply_line addr size ttl
  | Packets sent received lost percent => packets_line sent received lost percent
  | Other text => text
  end.

Definition well_formed (l : ReportLine) : bool :=
  match l with
  | Reply addr size time ttl => is_address addr && (0 <=? size) && (0 <=? time) && nonneg ttl
  | FastReply addr size ttl => is_address addr && (0 <=? size) && (0 <=? ttl)
  | Packets sent received lost percent =>
      (0 <=? sent) && (0 <=? received) && (0 <=? lost) && (0 <=? percent)
  | Other text => inert text
  end.

(** The lines joined by newlines. *)
Fixpoint unlines (lines : list string) : string :=
  match lines with
  | [] => ""
  | [line] => line
  | line :: rest => line ++ String "010" (unlines rest)
  end.

(** The times of the replies of a report that state one, in order. *)
Fixpoint times_of (report : list ReportLine) : list Z :=
  match report with
  | [] => []
  | Reply _ _ time _ :: rest => time :: times_of rest
  | _ :: rest => times_of rest
  end.

(** The percentage of the last summary of the packets, from [percent] on. *)
Fixpoint loss_of (percent : Z) (report : list ReportLine) : Z :=
  match report with
  | [] => percent
  | Packets _ _ _ percent' :: rest => loss_of percent' rest
  | _ :: rest => loss_of percent rest
  end.

(** The last time to live that is stated and not zero, from [ttl] on. *)
Fixpoint ttl_of (ttl : option Z) (report : list ReportLine) : option Z :=
  match report with
  | [] => ttl
  | Reply _ _ _ (Some n) :: rest => ttl_of (if n =? 0 then ttl else Some n) rest
  | _ :: rest => ttl_of ttl rest
  end.

(** Four probes of a host of the local network: two replies with a time,
    one below a millisecond, one lost. *)
Definition lan_report : list ReportLine :=
  [ Other "Pinging 192.168.1.1 with 32 bytes of data:";
    Reply "192.168.1.1" 32 2 (Some 64);
    FastReply "192.168.1.1" 32 64;
    Other "Request timed out.";
    Reply "192.168.1.1" 32 3 (Some 64);
    Other "";
    Other "Ping statistics for 192.168.1.1:";
    Packets 4 3 1 25;
    Other "Approximate round trip times in milli-seconds:";
    Other "    Minimum = 0ms, Maximum = 3ms, Average = 1ms" ].

(** The reply times are natural numbers and so is the loss. *)
Definition natural_state (st : PingCollector.ParseState) : Prop :=
  List.Forall (fun t => 0 <= t) (PingCollector.reply_times st) /\ 0 <= PingCollector.packet_loss st.

(** *** Jobs and worlds *)

Definition office : JobConfig :=
  {| jc_name := "office"; jc_interval := 60; jc_enabled := true;
     jc_metrics := ["ping"];
     jc_destinations := [ {| dc_host := "10.0.0.1"; dc_display_name := "gateway" |};
                          {| dc_host := "10.0.0.2"; dc_display_name := "printer" |} ] |}.

Definition lobby : JobConfig :=
  {| jc_name := "lobby"; jc_interval := 60; jc_enabled := true;
     jc_metrics := ["ping"];
     jc_destinations := [ {| dc_host := "10.0.0.1"; dc_display_name := "gateway" |} ] |}.

Definition office_job : Job :=
  {| job_id := 7; job_enabled := true; job_last_run := None; job_next_run := Some 100 |}.

(** Nothing runs and nothing is scheduled; the store holds job 7 and will
    raise as [fs] says. *)
Definition idle (fs : list (option exn)) : World :=
  {| running_jobs := ∅; scheduled_jobs := ∅; jobs := [office_job]; job_runs := [];
     metrics := []; faults := fs; probes := [] |}.

Definition first_run (total : Z) : JobRun :=
  {| run_id := 1; run_job_id := 7; run_start_time := 1; run_end_time := None;
     run_status := "running"; run_total_destinations := total;
     run_successful_destinations := 0; run_failed_destinations := 0;
     run_error_message := None |}.

(** Job 7 runs under [job_config]; [started] tells whether its execution
    unit has begun and waits inside [_execute_job]. *)
Definition executing (job_config : JobConfig) (started : bool) : World :=
  {| running_jobs := {[ 7 := {| task_job_id := 7; task_job_config := job_config;
                                task_run_id := 1; task_started := started |} ]};
     scheduled_jobs := ∅; jobs := [office_job];
     job_runs := [first_run (PingCollector.len (jc_destinations job_config))];
     metrics := []; faults := []; probes := [] |}.

(** The [job_runs] rows of a job whose status is ["running"]. *)
Definition running_runs (job : Z) (w : World) : list JobRun :=
  List.filter (fun r => (run_job_id r =? job) && String.eqb (run_status r) "running")
    (job_runs w).

(** Only the gateway is a known destination. *)
Definition only_gateway (host : string) : outcome (option JobManager.Destination) :=
  if String.eqb host "10.0.0.1" then Return (Some {| JobManager.dest_id := 1 |})
  else Return None.

(** A [ping_host] that answers in 12 ms. *)
Definition reply_in_12ms (host : string) (count timeout : Z) : outcome JobManager.PingResult :=
  Return {| JobManager.pr_success := true; JobManager.pr_latency_ms := VInt 12;
            JobManager.pr_packet_loss := Some (VInt 0); JobManager.pr_jitter_ms := Some (VInt 1);
            JobManager.pr_min_latency_ms := Some (VInt 11);
            JobManager.pr_max_latency_ms := Some (VInt 13) |}.

(** *** Descriptions of rows and counts *)

(** What a step leaves alone: the two maps and the tables of jobs and runs. *)
Definition same_tables (w w' : World) : Prop :=
  running_jobs w' = running_jobs w /\ scheduled_jobs w' = scheduled_jobs w /\
  jobs w' = jobs w /\ job_runs w' = job_runs w.

(** The row of a job that was disabled. *)
Definition disable (j : Job) : Job :=
  {| job_id := job_id j; job_enabled := false;
     job_last_run := job_last_run j; job_next_run := job_next_run j |}.

(** The row of a job with another [next_run]. *)
Definition with_next_run (next_run : option Z) (j : Job) : Job :=
  {| job_id := job_id j; job_enabled := job_enabled j;
     job_last_run := job_last_run j; job_next_run := next_run |}.

(** The host resolves to a destination record. *)
Definition resolved (get_destination_by_host : string -> outcome (option JobManager.Destination))
    (host : string) : bool :=
  match get_destination_by_host host with
  | Return (Some _) => true
  | _ => false
  end.

Definition resolved_destinations
    (get_destination_by_host : string -> outcome (option JobManager.Destination))
    (destinations : list DestinationConfig) : list DestinationConfig :=
  List.filter (fun d => resolved get_destination_by_host (dc_host d)) destinations.

Definition unresolved_destinations
    (get_destination_by_host : string -> outcome (option JobManager.Destination))
    (destinations : list DestinationConfig) : list DestinationConfig :=
  List.filter (fun d => negb (resolved get_destination_by_host (dc_host d))) destinations.

(** How many probes the metric types of a job ask for. *)
Definition ping_count (metric_types : list string) : nat :=
  length (List.filter (fun metric_type => String.eqb metric_type "ping") metric_types).

(** The hosts for which a run enters the step of a probe: the host of each
    destination that resolves, once, when the job asks for a ["ping"]. *)
Definition asked_hosts
    (get_destination_by_host : string -> outcome (option JobManager.Destination))
    (job_config : JobConfig) (destinations : list DestinationConfig) : list string :=
  match ping_count (jc_metrics job_config) with
  | O => []
  | S _ => map dc_host (resolved_destinations get_destination_by_host destinations)
  end.

(** The row of a run that finished with the counters [c]. *)
Definition finalized (end_time : Z) (c : JobManager.Counters) (r : JobRun) : JobRun :=
  {| run_id := run_id r;
     run_job_id := run_job_id r;
     run_start_time := run_start_time r;
     run_end_time := Some end_time;
     run_status := if 0 <? JobManager.destinations_failed c then "failed" else "completed";
     run_total_destinations := run_total_destinations r;
     run_successful_destinations := JobManager.destinations_successful c;
     run_failed_destinations := JobManager.destinations_failed c;
     run_error_message := None |}.

(** The row of a job after a run that finished with the counters [c]. *)
Definition after_run (end_time now interval : Z) (c : JobManager.Counters) (j : Job) : Job :=
  {| job_id := job_id j;
     job_enabled := negb (0 <? JobManager.destinations_failed c);
     job_last_run := Some end_time;
     job_next_run :=
       Some (if 0 <? JobManager.destinations_failed c then now
             else now + timedelta_seconds interval) |}.

(** [interval] seconds after [now] is an instant that a [datetime] holds,
    and the interval one that a [timedelta] holds. *)
Definition in_range (now interval : Z) : bool :=
  (-999999999 <=? interval / 86400) && (interval / 86400 <=? 999999999)
  && (datetime_min <=? now + timedelta_seconds interval)
  && (now + timedelta_seconds interval <=? datetime_max).

(** The dispatch units that [_cleanup_completed_tasks] keeps. *)
Definition pending (w : World) : gmap Z Dispatch :=
  filter (fun entry : Z * Dispatch => dispatch_done (snd entry) = false) (scheduled_jobs w).

(** The rows the query of [_reschedule_jobs] returns in an iteration of the
    maintenance loop that reads the clock at [now]. *)
Definition overdue (now : Z) (w : World) : list Job :=
  List.filter (Scheduler.due now (JobManager.get_running_jobs w) (dom (pending w))) (jobs w).

(** *** Reachable worlds *)

(** What the engine does to its state, one call or one turn at a time. *)
Inductive engine_step : World -> World -> Prop :=
| step_start_job (now job : Z) (cfg : JobConfig) (w : World) :
    engine_step w (snd (JobManager.start_job now job cfg w))
| step_task_begins (job : Z) (w : World) :
    engine_step w (JobManager.task_begins job w)
| step_task_runs (get_destination_by_host : string -> outcome (option JobManager.Destination))
    (ping_host : string -> Z -> Z -> outcome JobManager.PingResult)
    (stamp end_time now job : Z) (task : Task) (w : World) :
    running_jobs w !! job = Some task ->
    engine_step w
      (snd (JobManager._execute_job get_destination_by_host ping_host stamp end_time now job
              (task_job_config task) (task_run_id task) w))
| step_stop_job (job : Z) (w : World) :
    engine_step w (snd (JobManager.stop_job job w))
| step_schedule_job (now now' job : Z) (cfg : JobConfig) (w : World) :
    engine_step w (snd (Scheduler.schedule_job now now' job cfg w))
| step_scheduler_iteration (parse_config : Job -> outcome JobConfig) (clock : Z -> Z * Z)
    (now : Z) (w : World) :
    engine_step w (snd (Scheduler.scheduler_iteration parse_config clock now w)).

(** The worlds the engine reaches from one where nothing runs. *)
Inductive reachable : World -> Prop :=
| reachable_init (w : World) : running_jobs w = ∅ -> reachable w
| reachable_step (w w' : World) : reachable w -> engine_step w w' -> reachable w'.

(** Every unit is registered under the id of its own job. *)
Definition keyed (w : World) : Prop :=
  forall job task, running_jobs w !! job = Some task -> task_job_id task = job.

(** *** Rows and runs of a job *)

(** The store holds a row for the job. *)
Definition has_row (job : Z) (w : World) : bool :=
  existsb (fun j => job_id j =? job) (jobs w).

(** The row [start_job] adds for a run of the job. *)
Definition new_run (now job : Z) (job_config : JobConfig) (w : World) : JobRun :=
  {| run_id := next_id run_id (job_runs w);
     run_job_id := job;
     run_start_time := now;
     run_end_time := None;
     run_status := "running";
     run_total_destinations := PingCollector.len (jc_destinations job_config);
     run_successful_destinations := 0;
     run_failed_destinations := 0;
     run_error_message := None |}.

(** The unit [start_job] registers for it. *)
Definition new_task (job : Z) (job_config : JobConfig) (w : World) : Task :=
  {| task_job_id := job; task_job_config := job_config;
     task_run_id := next_id run_id (job_runs w); task_started := false |}.

(** The world after a start that the store accepts. *)
Definition started (now job : Z) (job_config : JobConfig) (w : World) : World :=
  set_running_jobs (insert job (new_task job job_config w))
    (set_job_runs (fun rows => (rows ++ [new_run now job job_config w])%list) w).

(** What a step of the engine does to the tables: the rows of [jobs] keep
    their ids, [metrics] grows at its end, and [job_runs] keeps its ids and
    grows by at most one row, with the next id. *)
Definition extends (w w' : World) : Prop :=
  map job_id (jobs w') = map job_id (jobs w) /\
  (exists added, metrics w' = (metrics w ++ added)%list) /\
  (map run_id (job_runs w') = map run_id (job_runs w) \/
   map run_id (job_runs w') = (map run_id (job_runs w) ++ [next_id run_id (job_runs w)])%list).

(** The same over any number of steps. *)
Definition grows (w w' : World) : Prop :=
  map job_id (jobs w') = map job_id (jobs w) /\
  (exists added, metrics w' = (metrics w ++ added)%list) /\
  (exists added, map run_id (job_runs w') = (map run_id (job_runs w) ++ added)%list).

(** A job that runs every million million seconds. *)
Definition far_job : JobConfig :=
  {| jc_name := "archive"; jc_interval := 1000000000000; jc_enabled := true;
     jc_metrics := ["ping"];
     jc_destinations := [ {| dc_host := "10.0.0.1"; dc_display_name := "gateway" |} ] |}.

(** A job that asks for a metric the engine does not collect. *)
Definition dns_job : JobConfig :=
  {| jc_name := "resolver"; jc_interval := 60; jc_enabled := true;
     jc_metrics := ["dns"];
     jc_destinations := [ {| dc_host := "10.0.0.1"; dc_display_name := "gateway" |} ] |}.

(** The two together. *)
Definition far_dns_job : JobConfig :=
  {| jc_name := "zones"; jc_interval := 1000000000000; jc_enabled := true;
     jc_metrics := ["dns"];
     jc_destinations := [ {| dc_host := "10.0.0.1"; dc_display_name := "gateway" |} ] |}.

(** *** The registry of jobs *)

(** Every configuration is registered under its own name. *)
Definition named (jobs : gmap string JobConfig) : Prop :=
  forall name job_config, jobs !! name = Some job_config -> jc_name job_config = name.

(** * Properties *)

(** ** The probe *)

Section ProbeProperties.

Import PingCollector.

Example parse_reply_line_with_ttl :
  _parse_reply_line "Reply from 8.8.8.8: bytes=32 time=15ms TTL=118"
  = Some {| time_ms := 15; reply_ttl := Some 118 |}.
Proof. reflexivity. Qed.

Example parse_reply_line_below_1ms :
  _parse_reply_line "Reply from 8.8.8.8: bytes=32 time<1ms TTL=118" = None.
Proof. reflexivity. Qed.

Example parse_packet_loss_summary :
  _parse_packet_loss "    Packets: Sent = 4, Received = 3, Lost = 1 (25% loss)," = 25.
Proof. reflexivity. Qed.

Example parsed_replies_lossy : parsed_replies lossy_output = [15; 14; 16].
Proof. vm_compute. reflexivity. Qed.

(** C10: the dictionary of a parsed output reports as [packets_sent] the
    number of parsed replies plus the loss percentage of the summary line;
    three replies and a summary of 25% loss give 28. *)
Theorem packets_sent_adds_loss_percent (now : Z) (output host : string) :
  match _parse_ping_output now output host with
  | Parsed p =>
      pp_packets_received p = len (pp_response_times p) /\
      pp_packets_sent p = pp_packets_received p + pp_packet_loss_percent p
  | Failure _ => True
  end /\
  match _parse_ping_output now lossy_output host with
  | Parsed p =>
      pp_success p = true /\ pp_packets_received p = 3 /\
      pp_packet_loss_percent p = 25 /\ pp_packets_sent p = 28
  | Failure _ => False
  end.
Proof.
  split.
  - unfold _parse_ping_output.
    destruct (negb _); [destruct (average _)|]; cbn; auto.
  - vm_compute. auto.
Qed.

(** The event loop refuses [text=True]: whatever the operating system would
    do, the probe ends in the last [except] clause of [ping_async]. *)
Lemma ping_async_fails (now : Z) (subprocess_exec : list string -> process)
    (host : string) (count timeout : option Z) :
  ping_async now subprocess_exec host count timeout
  = Return (Failure {| pf_host := host; pf_error := "text must be False";
                       pf_output := None; pf_stderr := None;
                       pf_timeout := None; pf_raw_output := None |}).
Proof. reflexivity. Qed.

(** C4: [ping_async] never raises, and what it returns has [success = False]
    and an error string.  It is the same dictionary for every host, for the
    probe never starts the ping utility: no output is parsed, and the
    dictionary has no [packets_received], where the parser gives
    [packets_received = 0] to an output without replies. *)
Theorem ping_async_never_parses (now : Z) (subprocess_exec : list string -> process)
    (host : string) (count timeout : option Z) :
  (exists d,
     ping_async now subprocess_exec host count timeout = Return d /\
     get_success d = false /\ get_error d = Some "text must be False" /\
     get_host d = host /\
     get_packets_received d = None) /\
  (let d := _parse_ping_output now unreachable_output "10.0.0.1" in
   get_success d = false /\ get_packets_received d = Some 0 /\ get_error d = None).
Proof.
  split.
  - eexists. split; [apply ping_async_fails|]. cbn. auto.
  - vm_compute. auto.
Qed.

(** *** Jitter *)

Lemma len_cons {A : Type} (a : A) (l : list A) : len (a :: l) = 1 + len l.
Proof. unfold len. cbn [length]. lia. Qed.

Lemma len_nonneg {A : Type} (l : list A) : 0 <= len l.
Proof. unfold len. lia. Qed.

Ltac run_outcome :=
  cbv beta iota delta [mbind outcome_bind mret outcome_ret fmap outcome_fmap].

(** Rounding keeps the sign: no operation of the computation gives a
    negative number or one that is not a number. *)
Lemma shr_1_nonneg (mrs : shr_record) : 0 <= shr_m mrs -> 0 <= shr_m (shr_1 mrs).
Proof.
  destruct mrs as [m r s]. cbn. intros H.
  destruct m as [|p|p]; [cbn; lia | destruct p; cbn; lia | lia].
Qed.

Lemma iter_pos_shr_1_nonneg (p : positive) (mrs : shr_record) :
  0 <= shr_m mrs -> 0 <= shr_m (SpecFloat.iter_pos shr_1 p mrs).
Proof.
  revert mrs. induction p as [p IH|p IH|]; intros mrs H; cbn.
  - apply IH, IH, shr_1_nonneg, H.
  - apply IH, IH, H.
  - apply shr_1_nonneg, H.
Qed.

Lemma shr_fexp_nonneg (m e : Z) (l : location) :
  0 <= m -> 0 <= shr_m (fst (shr_fexp Float.prec Float.emax m e l)).
Proof.
  intros H. unfold shr_fexp, shr.
  assert (H0 : 0 <= shr_m (shr_record_of_loc m l)).
  { destruct l as [|[]]; cbn; exact H. }
  destruct (_ - e) as [|p|p]; cbn [fst]; [exact H0 | apply iter_pos_shr_1_nonneg, H0 | exact H0].
Qed.

Lemma round_nearest_even_nonneg (m : Z) (l : location) : 0 <= m -> 0 <= round_nearest_even m l.
Proof.
  intros H. destruct l as [|[]]; cbn; try lia. destruct (Z.even m); lia.
Qed.

Lemma binary_round_aux_nonneg (m e : Z) (l : location) :
  0 <= m -> nonnegative (binary_round_aux Float.prec Float.emax false m e l) = true.
Proof.
  intros H. unfold binary_round_aux.
  pose proof (shr_fexp_nonneg m e l H) as H1.
  destruct (shr_fexp Float.prec Float.emax m e l) as [mrs' e'] eqn:E1. cbn [fst] in H1.
  pose proof (shr_fexp_nonneg (round_nearest_even (shr_m mrs') (loc_of_shr_record mrs')) e' loc_Exact
                (round_nearest_even_nonneg _ _ H1)) as H2.
  destruct (shr_fexp _ _ (round_nearest_even _ _) e' loc_Exact) as [mrs'' e''] eqn:E2. cbn [fst] in H2.
  destruct (shr_m mrs'') as [|p|p]; [reflexivity | destruct (e'' <=? _); reflexivity | lia].
Qed.

Lemma binary_round_aux_not_nan (sx : bool) (m e : Z) (l : location) :
  0 <= m -> is_nan (binary_round_aux Float.prec Float.emax sx m e l) = false.
Proof.
  intros H. pose proof (binary_round_aux_nonneg m e l H) as Hn. revert Hn.
  unfold binary_round_aux.
  destruct (shr_fexp Float.prec Float.emax m e l) as [mrs' e'].
  destruct (shr_fexp _ _ (round_nearest_even _ _) e' loc_Exact) as [mrs'' e''].
  destruct (shr_m mrs'') as [|p|p]; [reflexivity | destruct (e'' <=? _); reflexivity | discriminate].
Qed.

Lemma binary_round_nonneg (m : positive) (e : Z) :
  nonnegative (binary_round Float.prec Float.emax false m e) = true.
Proof.
  unfold binary_round. destruct (shl_align _ _ _) as [mz ez].
  apply binary_round_aux_nonneg. lia.
Qed.

Lemma binary_normalize_not_nan (m e : Z) (sz : bool) :
  is_nan (binary_normalize Float.prec Float.emax m e sz) = false.
Proof.
  unfold binary_normalize, binary_round.
  destruct m as [|p|p]; [reflexivity| |];
    destruct (shl_align _ _ _) as [mz ez]; apply binary_round_aux_not_nan; lia.
Qed.

Lemma ratio_nonneg (a b : Z) : 0 <= a -> 0 < b -> nonnegative (Float.ratio a b) = true.
Proof.
  intros Ha Hb. unfold Float.ratio.
  destruct b as [|q|q]; try lia. destruct a as [|p|p]; try lia; [reflexivity|].
  cbn [Float.exact SFdiv xorb]. unfold SFdiv_core_binary.
  destruct (Z.div_eucl _ _) as [mz r] eqn:E.
  apply binary_round_aux_nonneg.
  match type of E with Z.div_eucl ?x ?y = _ =>
    assert (Hx : 0 <= x);
    [| pose proof (Z.div_pos x y Hx ltac:(reflexivity)) as Hd;
       unfold Z.div in Hd; rewrite E in Hd; exact Hd] end.
  destruct (_ - _ - _) as [|s|s]; [lia | apply Z.shiftl_nonneg; lia | lia].
Qed.

Lemma ratio_not_nan (a b : Z) : b <> 0 -> is_nan (Float.ratio a b) = false.
Proof.
  intros Hb. unfold Float.ratio.
  destruct b as [|q|q]; try lia; destruct a as [|p|p]; try reflexivity;
    cbn [Float.exact SFdiv]; unfold SFdiv_core_binary;
    destruct (Z.div_eucl _ _) as [mz r] eqn:E;
    apply binary_round_aux_not_nan;
    (match type of E with Z.div_eucl ?x ?y = _ =>
      assert (Hx : 0 <= x);
      [| pose proof (Z.div_pos x y Hx ltac:(reflexivity)) as Hd;
         unfold Z.div in Hd; rewrite E in Hd; exact Hd] end);
    (destruct (_ - _ - _) as [|s|s]; [lia | apply Z.shiftl_nonneg; lia | lia]).
Qed.

Lemma of_int_finite (n : Z) (x : Float.float) : Float.of_int n = Return x -> is_finite x = true.
Proof.
  unfold Float.of_int. pose proof (binary_normalize_not_nan n 0 false) as H.
  destruct (binary_normalize _ _ _ _ _) as [s|s| |s m e]; cbn; intros E; inversion E; subst;
    try reflexivity; discriminate.
Qed.

Lemma true_div_finite (a b : Z) (x : Float.float) :
  Float.true_div a b = Return x -> is_finite x = true.
Proof.
  unfold Float.true_div. destruct (b =? 0) eqn:Eb; [discriminate|].
  apply Z.eqb_neq in Eb. pose proof (ratio_not_nan a b Eb) as H.
  destruct (Float.ratio a b) as [s|s| |s m e]; cbn; intros E; inversion E; subst;
    try reflexivity; discriminate.
Qed.

Lemma sub_not_nan (x y : Float.float) :
  is_finite x = true -> is_finite y = true -> is_nan (Float.sub x y) = false.
Proof.
  unfold Float.sub.
  destruct x as [sx|sx| |sx mx ex]; try discriminate;
    destruct y as [sy|sy| |sy my ey]; try discriminate; intros _ _; cbn [SFsub].
  - destruct sx, sy; reflexivity.
  - reflexivity.
  - reflexivity.
  - apply binary_normalize_not_nan.
Qed.

Lemma square_nonneg (x y : Float.float) :
  is_nan x = false -> Float.square x = Return y -> nonnegative y = true.
Proof.
  unfold Float.square.
  destruct x as [sx|sx| |sx mx ex]; try discriminate; intros _.
  - intros E; inversion E; subst. destruct sx; reflexivity.
  - intros E; inversion E; subst. destruct sx; reflexivity.
  - assert (H : nonnegative (SFmul Float.prec Float.emax (S754_finite sx mx ex) (S754_finite sx mx ex))
                = true).
    { cbn [SFmul]. replace (xorb sx sx) with false by (destruct sx; reflexivity).
      apply binary_round_aux_nonneg. lia. }
    destruct (Float.is_infinite _); [discriminate|].
    intros E; inversion E; subst. exact H.
Qed.

Lemma add_nonneg (x y : Float.float) :
  nonnegative x = true -> nonnegative y = true -> nonnegative (Float.add x y) = true.
Proof.
  unfold Float.add.
  destruct x as [[]|[]| |[] mx ex]; try discriminate;
    destruct y as [[]|[]| |[] my ey]; try discriminate; intros _ _; try reflexivity.
  cbn [SFadd cond_Zopp]. unfold binary_normalize.
  destruct (shl_align mx ex _) as [a ea]. destruct (shl_align my ey _) as [b eb]. cbn [fst].
  change (Z.pos a + Z.pos b) with (Z.pos (a + b)).
  apply binary_round_nonneg.
Qed.

Lemma sum_nonneg (l : list Float.float) :
  Forall (fun x => nonnegative x = true) l -> nonnegative (Float.sum l) = true.
Proof.
  unfold Float.sum. assert (H0 : nonnegative Float.zero = true) by reflexivity.
  revert H0. generalize Float.zero as acc.
  induction l as [|x l IH]; intros acc Hacc Hl; cbn [fold_left]; [exact Hacc|].
  inversion Hl; subst. apply IH; [apply add_nonneg; assumption | assumption].
Qed.

Lemma div_nonneg (x y z : Float.float) :
  nonnegative x = true -> nonnegative y = true -> is_finite y = true ->
  Float.div x y = Return z -> nonnegative z = true.
Proof.
  unfold Float.div.
  destruct y as [[]|[]| |[] my ey]; try discriminate; intros Hx _ _ E; inversion E; subst; clear E;
    destruct x as [[]|[]| |[] mx ex]; try discriminate; try reflexivity.
  cbn [SFdiv xorb]. unfold SFdiv_core_binary.
  destruct (Z.div_eucl _ _) as [mz r] eqn:E.
  apply binary_round_aux_nonneg.
  match type of E with Z.div_eucl ?x ?y = _ =>
    assert (Hx' : 0 <= x);
    [| pose proof (Z.div_pos x y Hx' ltac:(reflexivity)) as Hd;
       unfold Z.div in Hd; rewrite E in Hd; exact Hd] end.
  destruct (_ - _ - _) as [|s|s]; [lia | apply Z.shiftl_nonneg; lia | lia].
Qed.

Lemma sqrt_nonneg (x y : Float.float) :
  nonnegative x = true -> Float.sqrt x = Return y -> nonnegative y = true.
Proof.
  unfold Float.sqrt.
  destruct x as [[]|[]| |[] mx ex]; try discriminate; intros _ E; inversion E; subst; clear E;
    try reflexivity.
  cbn [SFsqrt]. unfold SFsqrt_core_binary.
  destruct (Z.sqrtrem _) as [q r] eqn:E.
  apply binary_round_aux_nonneg.
  match type of E with Z.sqrtrem ?x = _ =>
    pose proof (Z.sqrt_nonneg x) as Hs; rewrite <- (Z.sqrtrem_sqrt x), E in Hs; exact Hs end.
Qed.

Lemma hundredths_nonneg (m : positive) (e : Z) : 0 <= Float.hundredths (S754_finite false m e).
Proof.
  unfold Float.hundredths. destruct (0 <=? e) eqn:He.
  - apply Z.leb_le in He. apply Z.mul_nonneg_nonneg; [lia | apply Z.pow_nonneg; lia].
  - assert (Hd : 0 < 2 ^ (- e)) by (apply Z.pow_pos_nonneg; lia).
    assert (Hq : 0 <= 100 * Z.pos m / 2 ^ (- e)) by (apply Z.div_pos; lia).
    destruct (_ ?= _); [destruct (Z.even _)| |]; lia.
Qed.

Lemma round2_nonneg (x : Float.float) : nonnegative x = true -> nonnegative (Float.round2 x) = true.
Proof.
  destruct x as [[]|[]| |[] m e]; try discriminate; intros _; try reflexivity.
  unfold Float.round2. pose proof (hundredths_nonneg m e) as H.
  destruct (_ =? 0) eqn:E; [reflexivity|]. apply ratio_nonneg; lia.
Qed.

Lemma squared_deviation_nonneg (avg : Float.float) (t : Z) (y : Float.float) :
  is_finite avg = true -> squared_deviation avg t = Return y -> nonnegative y = true.
Proof.
  intros Havg. unfold squared_deviation. run_outcome.
  destruct (Float.of_int t) as [ft|e] eqn:Et; [|discriminate].
  intros Ey. eapply square_nonneg; [|exact Ey].
  apply sub_not_nan; [eapply of_int_finite; exact Et | exact Havg].
Qed.

Lemma squares_nonneg (avg : Float.float) (l : list Z) (squares : list Float.float) :
  is_finite avg = true ->
  mapM (squared_deviation avg) l = Return squares ->
  Forall (fun x => nonnegative x = true) squares.
Proof.
  intros Havg. revert squares. induction l as [|t l IH]; intros squares; cbn [mapM]; run_outcome.
  - intros E. injection E as <-. constructor.
  - destruct (squared_deviation avg t) as [y|e] eqn:Ey; [|discriminate].
    destruct (mapM (squared_deviation avg) l) as [rest|e] eqn:Er; [|discriminate].
    intros E. injection E as <-. constructor; [|apply IH; reflexivity].
    eapply squared_deviation_nonneg; eassumption.
Qed.

Lemma jitter_of_nonneg (l : list Z) (jitter : Float.float) :
  0 < len l -> jitter_of l = Return jitter -> nonnegative jitter = true.
Proof.
  intros Hn. unfold jitter_of, average. run_outcome.
  destruct (Float.true_div _ _) as [avg|e] eqn:Ea; [|discriminate].
  destruct (mapM _ _) as [squares|e] eqn:Es; [|discriminate].
  destruct (Float.of_int (len l)) as [n|e] eqn:En; [|discriminate].
  destruct (Float.div _ _) as [v|e] eqn:Ev; [|discriminate].
  destruct (Float.sqrt v) as [s|e] eqn:Eq; [|discriminate].
  intros E. injection E as <-. apply round2_nonneg.
  eapply sqrt_nonneg; [|exact Eq].
  assert (Hf : is_finite n = true) by (eapply of_int_finite; exact En).
  eapply div_nonneg; [| |exact Hf|exact Ev].
  - apply sum_nonneg. eapply squares_nonneg; [|exact Es]. eapply true_div_finite; exact Ea.
  - unfold Float.of_int in En.
    assert (Hp : nonnegative (binary_normalize Float.prec Float.emax (len l) 0 false) = true).
    { destruct (len l) as [|p|p] eqn:El; try lia. cbn [binary_normalize]. apply binary_round_nonneg. }
    destruct (Float.is_infinite _); [discriminate|]. inversion En; subst. exact Hp.
Qed.

(** [within_half] names one integer. *)
Lemma within_half_below (x : Q) (k k' : Z) :
  within_half x k -> within_half x k' -> k < k' -> False.
Proof.
  intros (H1 & H2 & H3 & H4 & H5) (H1' & H2' & H3' & H4' & H5') Hlt.
  assert (Hk' : 0 < k') by lia. specialize (H2' Hk'). specialize (H5' Hk').
  assert (Hsq : (2 * k' - 1) * (2 * k' - 1) <= (2 * k + 1) * (2 * k + 1)).
  { rewrite Zle_Qle. eapply Qle_trans; eassumption. }
  assert (Ek : k' = k + 1) by nia. subst k'.
  assert (Ex : (x == inject_Z ((2 * k + 1) * (2 * k + 1)))%Q).
  { apply Qle_antisym; [exact H3|].
    replace ((2 * k + 1) * (2 * k + 1)) with ((2 * (k + 1) - 1) * (2 * (k + 1) - 1)) by ring.
    exact H2'. }
  specialize (H4 Ex).
  assert (Ex' : (x == inject_Z ((2 * (k + 1) - 1) * (2 * (k + 1) - 1)))%Q).
  { rewrite Ex. replace ((2 * (k + 1) - 1) * (2 * (k + 1) - 1)) with ((2 * k + 1) * (2 * k + 1)) by ring.
    reflexivity. }
  specialize (H5' Ex'). rewrite Z.even_add, H4 in H5'. discriminate.
Qed.

Lemma within_half_unique (x : Q) (k k' : Z) :
  within_half x k -> within_half x k' -> k = k'.
Proof.
  intros H H'. destruct (Z.lt_trichotomy k k') as [Hlt|[E|Hgt]].
  - destruct (within_half_below x k k' H H' Hlt).
  - exact E.
  - destruct (within_half_below x k' k H' H Hgt).
Qed.

Lemma nearest_of_huge_times :
  nearest_hundredth_of_sqrt (population_variance huge_times) 50.
Proof.
  unfold nearest_hundredth_of_sqrt, within_half.
  assert (E : (40000 * population_variance huge_times == 10000)%Q) by (vm_compute; reflexivity).
  rewrite E. repeat split; try lia; try (intros; vm_compute; discriminate).
Qed.

Lemma nearest_of_many_times :
  nearest_hundredth_of_sqrt (population_variance many_times) 18.
Proof.
  unfold nearest_hundredth_of_sqrt, within_half.
  assert (E : (40000 * population_variance many_times == 1225)%Q) by (vm_compute; reflexivity).
  rewrite E. repeat split; try lia; try (intros; vm_compute; discriminate).
Qed.




End ProbeProperties.

(** ** The store *)

Ltac unfold_eff :=
  unfold try_, bind, ret, raise, get, modify, finally in *.

Lemma set_faults_tl_nil (w : World) : faults w = [] -> set_faults (tl (faults w)) w = w.
Proof. destruct w; cbn; intros ->; reflexivity. Qed.

(** A session whose turn in the script of faults is free runs its body. *)
Lemma session_ok {A : Type} (body : World -> A * World) (w : World) :
  hd None (faults w) = None ->
  session body w =
    (Return (fst (body (set_faults (tl (faults w)) w))),
     snd (body (set_faults (tl (faults w)) w))).
Proof.
  intros H. unfold session. destruct (faults w) as [|[e|] fs] eqn:E; cbn in *.
  - replace (set_faults [] w) with w.
    + destruct (body w); reflexivity.
    + destruct w; cbn in *; subst; reflexivity.
  - discriminate.
  - destruct (body _); reflexivity.
Qed.

Lemma session_healthy {A : Type} (body : World -> A * World) (w : World) :
  faults w = [] ->
  session body w = (Return (fst (body w)), snd (body w)).
Proof.
  intros H. rewrite session_ok by (rewrite H; reflexivity).
  rewrite set_faults_tl_nil by exact H. reflexivity.
Qed.

Lemma next_id_pos {R : Type} (id_of : R -> Z) (rows : list R) : 0 < next_id id_of rows.
Proof.
  unfold next_id.
  assert (0 <= fold_right Z.max 0 (map id_of rows)); [|lia].
  induction rows; cbn; lia.
Qed.

Lemma same_tables_refl (w : World) : same_tables w w.
Proof. repeat split. Qed.

Lemma same_tables_trans (w1 w2 w3 : World) :
  same_tables w1 w2 -> same_tables w2 w3 -> same_tables w1 w3.
Proof. unfold same_tables. intuition congruence. Qed.

(** ** Starting and stopping jobs *)

Section JobLifecycle.

Import JobManager.

Lemma start_job_running (now job : Z) (cfg : JobConfig) (w : World) :
  is_Some (running_jobs w !! job) ->
  start_job now job cfg w = (Return false, w).
Proof.
  intros [task H]. unfold start_job. unfold_eff. rewrite H. reflexivity.
Qed.

(** C1, as stated, fails twice over.  When the store refuses the row of the
    run, both calls return false and no run is created.  And the runs with
    status "running" are not kept to one per job: a run stopped before its
    unit began keeps that status, and the next start adds another. *)
Lemma start_job_twice_counterexample :
  (let down := Some (Exception "database is locked") in
   let '(r1, w1) := start_job 1 7 office (idle [down; down]) in
   let '(r2, w2) := start_job 2 7 office w1 in
   r1 = Return false /\ r2 = Return false /\ job_runs w2 = []) /\
  (let '(r1, w1) := start_job 1 7 office (idle []) in
   let '(r2, w2) := stop_job 7 w1 in
   let '(r3, w3) := start_job 3 7 office w2 in
   r1 = Return true /\ r2 = Return true /\ r3 = Return true /\
   PingCollector.len (running_runs 7 w3) = 2).
Proof. vm_compute. repeat split. Qed.

(** C1, amended: for a job that is not running, when the store accepts the
    row of the run, two calls of [start_job] in succession return true and
    then false, and together they create exactly one run, with status
    "running" and the number of destinations of the job; the job is then in
    the running map with a unit that has not begun.  Whenever the job is in
    the running map, [start_job] returns false and changes nothing. *)
Theorem start_job_twice (now now' job : Z) (cfg : JobConfig) (w : World) :
  running_jobs w !! job = None ->
  hd None (faults w) = None ->
  exists (run : JobRun) (w1 : World),
    start_job now job cfg w = (Return true, w1) /\
    start_job now' job cfg w1 = (Return false, w1) /\
    job_runs w1 = (job_runs w ++ [run])%list /\
    run_job_id run = job /\
    run_status run = "running" /\
    run_total_destinations run = PingCollector.len (jc_destinations cfg) /\
    (exists task, running_jobs w1 !! job = Some task /\
                  task_run_id task = run_id run /\ task_started task = false) /\
    (forall w', is_Some (running_jobs w' !! job) ->
                start_job now job cfg w' = (Return false, w')).
Proof.
  intros Hfree Hok.
  eexists _, _. split; [|split].
  - unfold start_job, _create_job_run. unfold_eff. rewrite Hfree.
    rewrite session_ok by exact Hok. cbn [fst snd].
    pose proof (next_id_pos run_id (job_runs (set_faults (tl (faults w)) w))) as Hpos.
    cbn [run_id] in *.
    destruct (next_id run_id (job_runs (set_faults (tl (faults w)) w)) =? 0) eqn:E.
    + apply Z.eqb_eq in E. lia.
    + reflexivity.
  - apply start_job_running. cbn. rewrite lookup_insert_eq. eauto.
  - cbn. repeat split; try reflexivity.
    + eexists. split; [apply lookup_insert_eq|]. split; reflexivity.
    + intros w'. apply start_job_running.
Qed.

Lemma start_job_twice_witness :
  running_jobs (idle []) !! 7 = None /\
  hd None (faults (idle [])) = None /\
  exists (run : JobRun) (w1 : World),
    start_job 1 7 office (idle []) = (Return true, w1) /\
    start_job 2 7 office w1 = (Return false, w1) /\
    job_runs w1 = ([] ++ [run])%list /\
    run_job_id run = 7 /\
    run_status run = "running" /\
    run_total_destinations run = 2.
Proof.
  split; [reflexivity|]. split; [reflexivity|].
  destruct (start_job_twice 1 2 7 office (idle []) eq_refl eq_refl)
    as (run & w1 & H1 & H2 & H3 & H4 & H5 & H6 & _).
  exists run, w1. repeat split; assumption.
Defined.

Lemma stop_job_not_running (job : Z) (w : World) :
  running_jobs w !! job = None -> stop_job job w = (Return false, w).
Proof. intros H. unfold stop_job. unfold_eff. rewrite H. reflexivity. Qed.

(** Stopping a job whose unit has not begun: the unit never runs, the job
    leaves the running map and is disabled in the store. *)
Lemma stop_job_not_started (job : Z) (task : Task) (w : World) :
  running_jobs w !! job = Some task ->
  task_started task = false ->
  hd None (faults w) = None ->
  exists w',
    stop_job job w = (Return true, w') /\
    running_jobs w' = delete job (running_jobs w) /\
    jobs w' = update_where job_id job disable (jobs w) /\
    job_runs w' = job_runs w.
Proof.
  intros H Hs Hok. eexists. split.
  - unfold stop_job, cancel_and_await, del_running_job, _update_job_status. unfold_eff.
    rewrite H, Hs. cbn. rewrite H.
    rewrite session_ok by exact Hok. cbn [fst snd]. reflexivity.
  - cbn. repeat split.
Qed.

(** Stopping a job whose unit has begun: the [finally] of the unit removes
    the job from the running map, the [del] of [stop_job] then raises
    [KeyError], and [stop_job] returns false before it reaches
    [_update_job_status]. *)
Lemma stop_job_started (job : Z) (task : Task) (w : World) :
  running_jobs w !! job = Some task ->
  task_started task = true ->
  task_job_id task = job ->
  stop_job job w = (Return false, set_running_jobs (delete job) w).
Proof.
  intros H Hs Hj.
  unfold stop_job, cancel_and_await, del_running_job. unfold_eff.
  rewrite H, Hs, Hj. cbn. rewrite lookup_delete_eq. reflexivity.
Qed.

(** C6, at the failing input: job 7 is started, its unit begins, and the job
    is stopped.  [stop_job] returns false and leaves the job enabled in the
    store; the job is out of the running map, and its run keeps the status
    "running". *)
Theorem stop_job_started_returns_false :
  let '(r1, w1) := start_job 1 7 office (idle []) in
  let w2 := task_begins 7 w1 in
  let '(r3, w3) := stop_job 7 w2 in
  r1 = Return true /\
  is_Some (running_jobs w2 !! 7) /\
  r3 = Return false /\
  jobs w3 = [office_job] /\ job_enabled office_job = true /\
  running_jobs w3 !! 7 = None /\
  PingCollector.len (running_runs 7 w3) = 1.
Proof. vm_compute. repeat split. eauto. Qed.

(** The same job stopped before its unit began: what C6 says. *)
Example stop_job_not_started_disables :
  let '(r, w) := stop_job 7 (executing office false) in
  r = Return true /\
  jobs w = [disable office_job] /\
  running_jobs w !! 7 = None.
Proof. vm_compute. repeat split. Qed.

End JobLifecycle.

(** ** Executing a job *)

Section Execution.

Import JobManager.

Variable get_destination_by_host : string -> outcome (option Destination).
Variable ping_host : string -> Z -> Z -> outcome PingResult.

(** [MetricRecord] has no attribute [value]: the metric of a probe is not
    built, neither in the [try] nor in the [except] clause, and the step
    leaves with the [TypeError] of the constructor before it opens a
    session. *)
Lemma collect_ping_metric_raises (now job destination : Z) (dc : DestinationConfig)
    (run : Z) (w : World) :
  _collect_ping_metric ping_host now job destination dc run w
  = (Raised (Exception "'value' is an invalid keyword argument for MetricRecord"),
     set_probes (fun log => (log ++ [dc_host dc])%list) w).
Proof.
  unfold _collect_ping_metric, call_ping_host. unfold_eff.
  destruct (ping_host (dc_host dc) 4 5) as [pr|e]; reflexivity.
Qed.

(** The step asks for one probe, and either it returns with one more metric
    or it raises with none. *)
Lemma collect_ping_metric_cases (now job destination : Z) (dc : DestinationConfig)
    (run : Z) (w : World) :
  let '(r, w') := _collect_ping_metric ping_host now job destination dc run w in
  same_tables w w' /\ probes w' = (probes w ++ [dc_host dc])%list /\
  ((r = Return tt /\ exists m, metrics w' = (metrics w ++ [m])%list) \/
   (exists e, r = Raised e /\ metrics w' = metrics w)).
Proof.
  rewrite collect_ping_metric_raises.
  split; [repeat split|]. split; [reflexivity|]. right. eauto.
Qed.

(** C8: the metric step persists no metric, for a probe that returned as
    for one that raised, and its own exception leaves the step: both calls
    of the constructor of [MetricRecord] pass [value], which the class does
    not have.  The step opens no session and changes no table. *)
Theorem collect_ping_metric_persists_nothing (now job destination : Z)
    (dc : DestinationConfig) (run : Z) (w : World) :
  exists w' : World,
    _collect_ping_metric ping_host now job destination dc run w
    = (Raised (Exception "'value' is an invalid keyword argument for MetricRecord"), w') /\
    metrics w' = metrics w /\ faults w' = faults w /\ same_tables w w' /\
    new_MetricRecord (failed_metric_kwargs now job destination run
                        (Exception "ping: transmit failed"))
    = Raised (Exception "'value' is an invalid keyword argument for MetricRecord").
Proof.
  eexists. split; [apply collect_ping_metric_raises|].
  unfold same_tables. cbn. repeat split.
Qed.

Lemma ping_count_cons (mt : string) (rest : list string) :
  ping_count (mt :: rest)
  = if String.eqb mt "ping" then S (ping_count rest) else ping_count rest.
Proof. unfold ping_count. cbn [List.filter]. destruct (String.eqb mt "ping"); reflexivity. Qed.

(** The loop over the metric types ends at the first ["ping"]. *)
Lemma collect_metrics_spec (now job destination : Z) (dc : DestinationConfig) (run : Z)
    (metric_types : list string) (n : Z) (w : World) :
  collect_metrics ping_host now job destination dc run metric_types n w
  = match ping_count metric_types with
    | O => (Return tt, n, w)
    | S _ => (Raised (Exception "'value' is an invalid keyword argument for MetricRecord"), n,
              set_probes (fun log => (log ++ [dc_host dc])%list) w)
    end.
Proof.
  revert n w. induction metric_types as [|mt rest IH]; intros n w; cbn [collect_metrics].
  - reflexivity.
  - rewrite ping_count_cons. destruct (String.eqb mt "ping").
    + rewrite collect_ping_metric_raises. reflexivity.
    + apply IH.
Qed.

Lemma collect_metrics_frame (now job destination : Z) (dc : DestinationConfig) (run : Z)
    (metric_types : list string) (n : Z) (w : World) :
  let '(r, n', w') := collect_metrics ping_host now job destination dc run metric_types n w in
  same_tables w w' /\
  exists k : nat, probes w' = (probes w ++ repeat (dc_host dc) k)%list.
Proof.
  rewrite collect_metrics_spec. destruct (ping_count metric_types).
  - split; [apply same_tables_refl|]. exists 0%nat. cbn. rewrite app_nil_r. reflexivity.
  - split; [repeat split|]. exists 1%nat. reflexivity.
Qed.

(** One destination of the loop of [_execute_job]. *)
Lemma collect_destination_spec (now job run : Z) (cfg : JobConfig) (c : Counters)
    (dc : DestinationConfig) (w : World) :
  collect_destination get_destination_by_host ping_host now job run cfg c dc w
  = if resolved get_destination_by_host (dc_host dc) then
      match ping_count (jc_metrics cfg) with
      | O => ({| metrics_collected := metrics_collected c;
                 destinations_successful := destinations_successful c + 1;
                 destinations_failed := destinations_failed c |}, w)
      | S _ => ({| metrics_collected := metrics_collected c;
                   destinations_successful := destinations_successful c;
                   destinations_failed := destinations_failed c + 1 |},
                set_probes (fun log => (log ++ [dc_host dc])%list) w)
      end
    else ({| metrics_collected := metrics_collected c;
             destinations_successful := destinations_successful c;
             destinations_failed := destinations_failed c + 1 |}, w).
Proof.
  unfold collect_destination, resolved.
  destruct (get_destination_by_host (dc_host dc)) as [[d|]|e]; try reflexivity.
  rewrite collect_metrics_spec. destruct (ping_count (jc_metrics cfg)); reflexivity.
Qed.

Lemma collect_destination_counts (now job run : Z) (cfg : JobConfig) (c : Counters)
    (dc : DestinationConfig) (w : World) :
  let '(c', w') := collect_destination get_destination_by_host ping_host now job run cfg c dc w in
  same_tables w w' /\ metrics w' = metrics w /\ faults w' = faults w /\
  metrics_collected c' = metrics_collected c /\
  destinations_successful c' + destinations_failed c'
    = destinations_successful c + destinations_failed c + 1 /\
  destinations_successful c <= destinations_successful c' /\
  destinations_failed c <= destinations_failed c' /\
  (exists probed, probes w' = (probes w ++ probed)%list /\
                  Forall (fun host => resolved get_destination_by_host host = true) probed) /\
  (resolved get_destination_by_host (dc_host dc) = false ->
     w' = w /\ destinations_failed c' = destinations_failed c + 1) /\
  (ping_count (jc_metrics cfg) = 0%nat -> w' = w) /\
  destinations_successful c'
  = destinations_successful c
    + (if resolved get_destination_by_host (dc_host dc)
       then match ping_count (jc_metrics cfg) with O => 1 | S _ => 0 end
       else 0).
Proof.
  rewrite collect_destination_spec.
  destruct (resolved get_destination_by_host (dc_host dc)) eqn:E.
  - destruct (ping_count (jc_metrics cfg)); cbn;
      repeat split; try lia; try discriminate.
    + exists []. rewrite app_nil_r. auto.
    + exists [dc_host dc]. split; [reflexivity|]. constructor; [exact E|constructor].
  - cbn. repeat split; try lia.
    exists []. rewrite app_nil_r. auto.
Qed.


Lemma collect_destinations_frame (now job run : Z) (cfg : JobConfig)
    (destinations : list DestinationConfig) (c : Counters) (w : World) :
  let '(c', w') :=
    collect_destinations get_destination_by_host ping_host now job run cfg destinations c w in
  same_tables w w' /\ (faults w = [] -> faults w' = []) /\
  destinations_failed c <= destinations_failed c'.
Proof.
  revert c w. induction destinations as [|dc rest IH]; intros c w; cbn [collect_destinations].
  - split; [apply same_tables_refl|]. split; [auto | lia].
  - pose proof (collect_destination_counts now job run cfg c dc w) as H.
    destruct (collect_destination get_destination_by_host ping_host now job run cfg c dc w)
      as [c1 w1].
    destruct H as (Hs & _ & Hh & _ & _ & _ & Hf & _).
    specialize (IH c1 w1).
    destruct (collect_destinations get_destination_by_host ping_host now job run cfg rest c1 w1)
      as [c' w'].
    destruct IH as (Hs' & Hh' & Hf').
    split; [eapply same_tables_trans; eassumption|]. split; [|lia].
    intros Hw. apply Hh'. rewrite Hh. exact Hw.
Qed.

(** [now + timedelta(seconds=interval)] is the sum when it is in range, and
    raises [OverflowError] when it is not. *)
Lemma after_interval_in_range (now interval : Z) :
  in_range now interval = true ->
  after_interval now interval = Return (now + timedelta_seconds interval).
Proof.
  unfold in_range, after_interval, timedelta, datetime_add. intros H.
  apply andb_prop in H as [H H4]. apply andb_prop in H as [H H3].
  rewrite H. cbn. rewrite H3, H4. reflexivity.
Qed.

Lemma after_interval_out_of_range (now interval : Z) :
  in_range now interval = false -> exists e, after_interval now interval = Raised e.
Proof.
  unfold in_range, after_interval, timedelta, datetime_add. intros H.
  destruct ((-999999999 <=? interval / 86400) && (interval / 86400 <=? 999999999));
    [|eexists; reflexivity].
  cbn in *. rewrite H. eexists; reflexivity.
Qed.

(** C2, amended: with a store that accepts the writes, a job execution ends
    with the row of its run finalized, status "failed" when the count of
    failed destinations is positive and "completed" otherwise.  After
    "failed" the job is disabled and its [next_run] is the clock reading
    itself.  After "completed" the job is enabled and its [next_run] is the
    clock reading plus the interval, when that instant is in the range of
    [datetime]; when it is not, the row of the job is not written. *)
Theorem execute_job_finalization (stamp end_time now job : Z) (cfg : JobConfig) (run : Z)
    (w : World) :
  faults w = [] ->
  let c := fst (collect_destinations get_destination_by_host ping_host stamp job run cfg
                  (jc_destinations cfg) no_counts w) in
  let '(r, w') := _execute_job get_destination_by_host ping_host stamp end_time now job cfg run w in
  r = Return tt /\
  job_runs w' = update_where run_id run (finalized end_time c) (job_runs w) /\
  jobs w' = (if (0 <? destinations_failed c) || in_range now (jc_interval cfg)
             then update_where job_id job (after_run end_time now (jc_interval cfg) c) (jobs w)
             else jobs w) /\
  running_jobs w' = delete job (running_jobs w).
Proof.
  intros Hw. unfold _execute_job, finally.
  pose proof (collect_destinations_frame stamp job run cfg (jc_destinations cfg) no_counts w) as H.
  destruct (collect_destinations get_destination_by_host ping_host stamp job run cfg
              (jc_destinations cfg) no_counts w) as [c w1].
  destruct H as ((Hr & _ & Hj & Hjr) & Hf & Hge). specialize (Hf Hw). cbn [fst].
  cbn [no_counts destinations_failed] in Hge.
  assert (E : (destinations_failed c =? 0) = negb (0 <? destinations_failed c)).
  { destruct (Z.eqb_spec (destinations_failed c) 0), (Z.ltb_spec 0 (destinations_failed c));
      cbn; try reflexivity; lia. }
  unfold _complete_job_run, _update_job_after_run, lift. unfold_eff.
  rewrite session_healthy by exact Hf. cbn [fst snd r_success].
  rewrite E. unfold finalized, after_run.
  destruct (0 <? destinations_failed c); cbn [negb orb].
  - rewrite session_healthy by (cbn; exact Hf). cbn.
    rewrite Hr, Hj, Hjr. repeat split.
  - destruct (in_range now (jc_interval cfg)) eqn:Ein.
    + rewrite after_interval_in_range by exact Ein.
      rewrite session_healthy by (cbn; exact Hf). cbn.
      rewrite Hr, Hj, Hjr. repeat split.
    + destruct (after_interval_out_of_range _ _ Ein) as [e ->]. cbn.
      rewrite Hr, Hj, Hjr. repeat split.
Qed.

End Execution.

(** *** The execution at concrete inputs *)

Section ExecutionExamples.

Import JobManager.

(** The sources' own [ping_host] makes the step raise the same
    [TypeError]. *)
Example collect_ping_metric_of_the_sources :
  _collect_ping_metric PingCollector_ping_host 400 7 1
    {| dc_host := "10.0.0.1"; dc_display_name := "gateway" |} 1 (executing lobby true)
  = (Raised (Exception "'value' is an invalid keyword argument for MetricRecord"),
     set_probes (fun _ => ["10.0.0.1"]) (executing lobby true)).
Proof. reflexivity. Qed.

(** The gateway resolves and the printer does not: with a ["ping"] probe
    both destinations of the job are failed. *)
Example collect_destinations_office :
  let '(c, w) :=
    collect_destinations only_gateway PingCollector_ping_host 400 7 1 office
      (jc_destinations office) no_counts (executing office true) in
  destinations_successful c = 0 /\ destinations_failed c = 2 /\ probes w = ["10.0.0.1"] /\
  metrics w = [].
Proof. vm_compute. repeat split. Qed.

(** C2, as stated, fails: the gateway resolves and the printer does not; no
    destination of the job succeeds, the run is "failed" and the job is
    disabled, but its [next_run], 100 before the run, is now the clock
    reading 500.  And a run that is "completed", of a job with an interval
    of a million million seconds, leaves the row of the job as it was: the
    next run is past the year 9999. *)
Lemma failed_run_resets_next_run :
  (let '(r, w) :=
     _execute_job only_gateway PingCollector_ping_host 400 450 500 7 office 1
       (executing office true) in
   (exists run, job_runs w = [run] /\
                run_status run = "failed" /\
                run_successful_destinations run = 0 /\
                run_failed_destinations run = 2) /\
   exists job, jobs w = [job] /\
               job_enabled job = false /\
               job_next_run office_job = Some 100 /\
               job_next_run job = Some 500 /\
               job_next_run job <> job_next_run office_job) /\
  (let '(r, w) :=
     _execute_job only_gateway PingCollector_ping_host 400 450 1700000000000000 7 far_dns_job 1
       (executing far_dns_job true) in
   r = Return tt /\
   (exists run, job_runs w = [run] /\ run_status run = "completed" /\
                run_successful_destinations run = 1) /\
   jobs w = [office_job] /\
   job_next_run office_job
   <> Some (1700000000000000 + timedelta_seconds (jc_interval far_dns_job))).
Proof.
  split.
  - vm_compute. split; eexists; repeat split. discriminate.
  - vm_compute. split; [reflexivity|]. split; [eexists; repeat split|].
    split; [reflexivity | discriminate].
Qed.

Lemma execute_job_finalization_witness :
  faults (executing dns_job true) = [] /\
  let '(r, w) :=
    _execute_job only_gateway PingCollector_ping_host 400 450 500 7 dns_job 1
      (executing dns_job true) in
  r = Return tt /\
  exists run job,
    job_runs w = [run] /\ run_status run = "completed" /\
    jobs w = [job] /\ job_enabled job = true /\ job_next_run job = Some 60000500.
Proof.
  split; [reflexivity|].
  pose proof (execute_job_finalization only_gateway PingCollector_ping_host 400 450 500 7 dns_job 1
                (executing dns_job true) eq_refl) as H.
  cbv zeta in H.
  destruct (_execute_job only_gateway PingCollector_ping_host 400 450 500 7 dns_job 1
              (executing dns_job true)) as [r w].
  destruct H as (Hr & Hruns & Hjobs & _).
  split; [exact Hr|].
  eexists _, _. rewrite Hruns, Hjobs. vm_compute. repeat split.
Defined.

End ExecutionExamples.

(** ** Scheduling *)

Section Scheduling.

Import Scheduler.

Lemma update_job_next_run_frame (job : Z) (next_run : option Z) (w : World) :
  exists w',
    _update_job_next_run job next_run w = (Return tt, w') /\
    running_jobs w' = running_jobs w /\ scheduled_jobs w' = scheduled_jobs w /\
    (hd None (faults w) = None ->
       jobs w' = update_where job_id job (with_next_run next_run) (jobs w)) /\
    ((exists e, hd None (faults w) = Some e) -> jobs w' = jobs w).
Proof.
  unfold _update_job_next_run, session. unfold_eff.
  destruct (faults w) as [|[e|] fs] eqn:E; cbn; eexists; (split; [reflexivity|]);
    cbn; repeat split; try discriminate; intros [e' He']; discriminate.
Qed.

Lemma schedule_job_running (now now' job : Z) (cfg : JobConfig) (w : World) :
  is_Some (running_jobs w !! job) ->
  schedule_job now now' job cfg w = (Return false, w).
Proof.
  intros H. unfold schedule_job. unfold_eff.
  rewrite bool_decide_eq_true_2; [reflexivity|].
  unfold JobManager.get_running_jobs. apply elem_of_dom. exact H.
Qed.

(** A next run out of the range of [datetime] ends [schedule_job] in its
    [except] clause. *)
Lemma schedule_job_out_of_range (now now' job : Z) (cfg : JobConfig) (w : World) :
  in_range now (jc_interval cfg) = false ->
  schedule_job now now' job cfg w = (Return false, w).
Proof.
  intros H. unfold schedule_job, _calculate_next_run, lift. unfold_eff.
  destruct (after_interval_out_of_range _ _ H) as [e ->].
  destruct (bool_decide _); reflexivity.
Qed.

Lemma schedule_job_not_running (now now' job : Z) (cfg : JobConfig) (w : World) :
  running_jobs w !! job = None ->
  in_range now (jc_interval cfg) = true ->
  let next_run := now + timedelta_seconds (jc_interval cfg) in
  exists w',
    schedule_job now now' job cfg w = (Return true, w') /\
    running_jobs w' = running_jobs w /\
    scheduled_jobs w' =
      <[job := {| dispatch_job_id := job; dispatch_job_config := cfg;
                  dispatch_delay := if next_run <? now' then 0 else next_run - now';
                  dispatch_done := false |}]> (scheduled_jobs w) /\
    (hd None (faults w) = None ->
       jobs w' = update_where job_id job (with_next_run (Some next_run)) (jobs w)) /\
    ((exists e, hd None (faults w) = Some e) -> jobs w' = jobs w).
Proof.
  intros H Hin next_run. unfold schedule_job, _calculate_next_run, lift. unfold_eff.
  rewrite bool_decide_eq_false_2.
  2:{ unfold JobManager.get_running_jobs. rewrite elem_of_dom, H. intros [? ?]; discriminate. }
  rewrite after_interval_in_range by exact Hin. cbn [mbind outcome_bind].
  match goal with |- context [_update_job_next_run ?j ?n ?w0] =>
    destruct (update_job_next_run_frame j n w0) as (w' & -> & Hr & Hs & Hj & Hj') end.
  exists w'. split; [reflexivity|]. cbn in Hr, Hs, Hj, Hj'.
  split; [exact Hr|]. split; [|split].
  - rewrite Hs. subst next_run. f_equal. f_equal.
    destruct (Z.ltb_spec (now + timedelta_seconds (jc_interval cfg) - now') 0),
             (Z.ltb_spec (now + timedelta_seconds (jc_interval cfg)) now'); try reflexivity; lia.
  - exact Hj.
  - exact Hj'.
Qed.

(** [schedule_job] returns, whatever the store does; it changes the running
    map in no case. *)
Lemma schedule_job_cases (now now' job : Z) (cfg : JobConfig) (w : World) :
  schedule_job now now' job cfg w = (Return false, w) \/
  exists w',
    schedule_job now now' job cfg w = (Return true, w') /\
    running_jobs w !! job = None /\ in_range now (jc_interval cfg) = true /\
    running_jobs w' = running_jobs w.
Proof.
  destruct (running_jobs w !! job) as [task|] eqn:E.
  - left. apply schedule_job_running. eauto.
  - destruct (in_range now (jc_interval cfg)) eqn:Hin.
    + right. destruct (schedule_job_not_running now now' job cfg w E Hin) as (w' & -> & Hr & _).
      exists w'. auto.
    + left. apply schedule_job_out_of_range. exact Hin.
Qed.

(** C7, as stated, fails.  With a store that refuses the write
    [schedule_job] returns true and registers a dispatch unit, but the row of
    the job keeps its old [next_run]; and for a job that is not running,
    with an interval of a million million seconds, [schedule_job] returns
    false and registers nothing: the next run is past the year 9999. *)
Lemma schedule_job_persists_or_refuses :
  (running_jobs (idle [Some (Exception "database is locked")]) !! 7 = None /\
   let '(r, w') :=
     schedule_job 1000 90000000 7 office (idle [Some (Exception "database is locked")]) in
   r = Return true /\ is_Some (scheduled_jobs w' !! 7) /\
   jobs w' = [office_job] /\ job_next_run office_job = Some 100) /\
  (running_jobs (idle []) !! 7 = None /\
   jc_interval far_job = 1000000000000 /\
   schedule_job 1700000000000000 1700000000000001 7 far_job (idle [])
   = (Return false, idle [])).
Proof.
  split.
  - split; [reflexivity|]. vm_compute. repeat split. eauto.
  - split; [reflexivity|]. split; [reflexivity|].
    apply schedule_job_out_of_range. reflexivity.
Qed.

(** C7, amended: whenever the job is in the running map, [schedule_job]
    returns false and changes nothing.  For a job that is not running, when
    [next_run = now + interval] is in the range of [datetime],
    [schedule_job] returns true and the scheduled map then holds a dispatch
    unit for the job, whose delay is the time from the second clock reading
    to [next_run], or zero when [next_run] is already past; the row of the
    job carries that [next_run] when the store accepts the write and is
    unchanged when it refuses.  When [next_run] is out of that range,
    [schedule_job] returns false and changes nothing. *)
Theorem schedule_job_spec (now now' job : Z) (cfg : JobConfig) (w : World) :
  running_jobs w !! job = None ->
  let next_run := now + timedelta_seconds (jc_interval cfg) in
  (if in_range now (jc_interval cfg) then
     exists w',
       schedule_job now now' job cfg w = (Return true, w') /\
       scheduled_jobs w' !! job =
         Some {| dispatch_job_id := job; dispatch_job_config := cfg;
                 dispatch_delay := if next_run <? now' then 0 else next_run - now';
                 dispatch_done := false |} /\
       (hd None (faults w) = None ->
          jobs w' = update_where job_id job (with_next_run (Some next_run)) (jobs w)) /\
       ((exists e, hd None (faults w) = Some e) -> jobs w' = jobs w)
   else schedule_job now now' job cfg w = (Return false, w)) /\
  (forall w0, is_Some (running_jobs w0 !! job) ->
              schedule_job now now' job cfg w0 = (Return false, w0)).
Proof.
  intros H next_run. split; [|intros w0; apply schedule_job_running].
  destruct (in_range now (jc_interval cfg)) eqn:Hin.
  - destruct (schedule_job_not_running now now' job cfg w H Hin) as (w' & E & _ & Hs & Hj & Hj').
    exists w'. split; [exact E|]. split; [|split].
    + rewrite Hs. apply lookup_insert_eq.
    + exact Hj.
    + exact Hj'.
  - apply schedule_job_out_of_range. exact Hin.
Qed.

Lemma schedule_job_spec_witness :
  running_jobs (idle []) !! 7 = None /\
  in_range 1000 (jc_interval office) = true /\
  exists w',
    schedule_job 1000 90000000 7 office (idle []) = (Return true, w') /\
    (exists task, scheduled_jobs w' !! 7 = Some task /\ dispatch_delay task = 0) /\
    jobs w' = [with_next_run (Some 60001000) office_job].
Proof.
  split; [reflexivity|]. split; [reflexivity|].
  destruct (proj1 (schedule_job_spec 1000 90000000 7 office (idle []) eq_refl))
    as (w' & E & Hs & Hj & _).
  exists w'. split; [exact E|]. split; [|exact (Hj eq_refl)].
  eexists. split; [exact Hs|]. reflexivity.
Defined.

Lemma due_spec (now : Z) (running : gmap Z Task) (scheduled : gmap Z Dispatch) (job : Job) :
  due now (dom running) (dom scheduled) job = true <->
  job_enabled job = true /\
  (exists next_run, job_next_run job = Some next_run /\ next_run <= now) /\
  running !! job_id job = None /\
  scheduled !! job_id job = None.
Proof.
  unfold due. rewrite !andb_true_iff, bool_decide_eq_true, not_elem_of_union.
  rewrite !not_elem_of_dom.
  split.
  - intros [[He Hn] [Hr Hs]]. repeat split; try assumption.
    destruct (job_next_run job) as [t|]; [|discriminate].
    exists t. split; [reflexivity|]. apply Z.leb_le. exact Hn.
  - intros (He & (t & Ht & Hle) & Hr & Hs). repeat split; try assumption.
    rewrite Ht. apply Z.leb_le. exact Hle.
Qed.

Variable clock : Z -> Z * Z.

(** No row decodes: the loop of [_reschedule_jobs] ends at its first row,
    before it calls [schedule_job]. *)
Lemma reschedule_each_no_config (js : list Job) (called : list Z) (w : World) :
  reschedule_each parse_raw_config clock js called w
  = match js with
    | [] => (Return tt, called, w)
    | _ :: _ => (Raised (Exception "'Job' object has no attribute 'config'"), called, w)
    end.
Proof. destruct js; reflexivity. Qed.

(** C9: an iteration of the maintenance loop calls [schedule_job] on no
    job.  The rows its query selects are the enabled jobs whose [next_run]
    is at or before the clock reading and whose id is in neither map, but
    [job.config] raises for the first of them: the iteration purges the
    completed units and changes nothing else.  Job 7 is enabled and overdue
    with both maps empty, as after a restart, and no iteration schedules
    it. *)
Theorem scheduler_iteration_reschedules_no_job (now : Z) (w : World) :
  (let '(called, w') := scheduler_iteration parse_raw_config clock now w in
   called = [] /\
   scheduled_jobs w' = pending w /\ running_jobs w' = running_jobs w /\
   jobs w' = jobs w /\ job_runs w' = job_runs w) /\
  (forall job, In job (jobs w) ->
     (In job (overdue now w) <->
      job_enabled job = true /\
      (exists next_run, job_next_run job = Some next_run /\ next_run <= now) /\
      running_jobs w !! job_id job = None /\
      pending w !! job_id job = None)) /\
  overdue 500 (idle []) = [office_job] /\
  scheduled_jobs (snd (scheduler_iteration parse_raw_config clock 500 (idle []))) !! 7 = None.
Proof.
  split; [|split; [|split; reflexivity]].
  - unfold scheduler_iteration, _cleanup_completed_tasks, modify, _reschedule_jobs, session.
    cbn [faults set_scheduled_jobs].
    destruct (faults w) as [|[e|] fs]; cbn; rewrite ?reschedule_each_no_config;
      try (destruct (List.filter _ _); cbn); repeat split.
  - intros job Hj. unfold overdue. rewrite filter_In.
    unfold JobManager.get_running_jobs. rewrite due_spec. tauto.
Qed.

End Scheduling.

(** ** Reachable worlds *)

Section Reachability.

Import JobManager.

Lemma session_running {A : Type} (body : World -> A * World) (w : World) :
  (forall w0, running_jobs (snd (body w0)) = running_jobs w0) ->
  running_jobs (snd (session body w)) = running_jobs w.
Proof.
  intros H. unfold session. destruct (faults w) as [|[e|] fs]; cbn.
  - specialize (H w). destruct (body w). exact H.
  - reflexivity.
  - specialize (H (set_faults fs w)). destruct (body _). exact H.
Qed.

Lemma try_session_running (body : World -> unit * World) (w : World) :
  (forall w0, running_jobs (snd (body w0)) = running_jobs w0) ->
  running_jobs (snd (try_ (session body) (fun _ => ret tt) w)) = running_jobs w.
Proof.
  intros H. pose proof (session_running body w H) as Hs.
  unfold try_, ret. destruct (session body w) as [[a|e] w']; exact Hs.
Qed.

Lemma start_job_keyed (now job : Z) (cfg : JobConfig) (w : World) :
  keyed w -> keyed (snd (start_job now job cfg w)).
Proof.
  intros K. unfold start_job, _create_job_run, session, try_, bind, ret, get, modify.
  destruct (running_jobs w !! job) eqn:E; [exact K|].
  destruct (faults w) as [|[e|] fs]; cbn.
  - destruct (_ =? 0); cbn; [exact K|].
    intros j t. unfold set_running_jobs, set_job_runs, set_faults. cbn [running_jobs].
    rewrite lookup_insert. case_decide as Hj.
    + intros [= <-]. cbn. exact Hj.
    + apply K.
  - exact K.
  - destruct (_ =? 0); cbn; [exact K|].
    intros j t. unfold set_running_jobs, set_job_runs, set_faults. cbn [running_jobs].
    rewrite lookup_insert. case_decide as Hj.
    + intros [= <-]. cbn. exact Hj.
    + apply K.
Qed.

Lemma task_begins_keyed (job : Z) (w : World) : keyed w -> keyed (task_begins job w).
Proof.
  intros K j t. unfold task_begins, set_running_jobs. cbn [running_jobs].
  rewrite lookup_alter. case_decide as Hj.
  - subst j. intros H. apply fmap_Some in H as (t0 & E & ->). cbn.
    apply (K _ _ E).
  - apply K.
Qed.

Lemma update_job_status_returns (job : Z) (enabled : bool) (w : World) :
  exists w', _update_job_status job enabled w = (Return tt, w') /\
             running_jobs w' = running_jobs w.
Proof.
  unfold _update_job_status, session, try_, ret.
  destruct (faults w) as [|[e|] fs]; cbn; eexists; split; reflexivity.
Qed.

Lemma stop_job_submap (job : Z) (w : World) :
  forall j t, running_jobs (snd (stop_job job w)) !! j = Some t -> running_jobs w !! j = Some t.
Proof.
  intros j t. unfold stop_job, cancel_and_await, del_running_job, try_, bind, ret, get, modify.
  destruct (running_jobs w !! job) as [task|] eqn:E; [|auto].
  destruct (task_started task).
  - unfold set_running_jobs at 1 2. cbn [running_jobs].
    destruct (delete (task_job_id task) (running_jobs w) !! job) eqn:E2.
    + match goal with |- context [_update_job_status ?a ?b ?w0] =>
        destruct (update_job_status_returns a b w0) as (w' & -> & Hr) end.
      cbn [snd]. rewrite Hr. cbn [running_jobs set_running_jobs].
      intros H. apply lookup_delete_Some in H as [_ H].
      apply lookup_delete_Some in H as [_ H]. exact H.
    + cbn [snd running_jobs set_running_jobs].
      intros H. apply lookup_delete_Some in H as [_ H]. exact H.
  - rewrite E.
    match goal with |- context [_update_job_status ?a ?b ?w0] =>
      destruct (update_job_status_returns a b w0) as (w' & -> & Hr) end.
    cbn [snd]. rewrite Hr. cbn [running_jobs set_running_jobs].
    intros H. apply lookup_delete_Some in H as [_ H]. exact H.
Qed.

Lemma stop_job_keyed (job : Z) (w : World) : keyed w -> keyed (snd (stop_job job w)).
Proof. intros K j t H. apply (K j t). apply (stop_job_submap job w j t H). Qed.

Lemma complete_job_run_returns (run : Z) (result : JobExecutionResult) (w : World) :
  exists w', _complete_job_run run result w = (Return tt, w') /\
             running_jobs w' = running_jobs w.
Proof.
  unfold _complete_job_run, session, try_, ret.
  destruct (faults w) as [|[e|] fs]; cbn; eexists; split; reflexivity.
Qed.

Lemma update_job_after_run_returns (now job interval : Z) (result : JobExecutionResult)
    (w : World) :
  exists w', _update_job_after_run now job interval result w = (Return tt, w') /\
             running_jobs w' = running_jobs w.
Proof.
  unfold _update_job_after_run, session, lift, try_, bind, ret.
  destruct (if r_success result then _ else _) as [next_run|e];
    [|eexists; split; reflexivity].
  destruct (faults w) as [|[e|] fs]; cbn; eexists; split; reflexivity.
Qed.

(** Whatever the store and the probes do, a unit that runs to its end
    returns and has left the running map. *)
Lemma execute_job_leaves_running
    (get_destination_by_host : string -> outcome (option Destination))
    (ping_host : string -> Z -> Z -> outcome PingResult)
    (stamp end_time now job : Z) (cfg : JobConfig) (run : Z) (w : World) :
  exists w',
    _execute_job get_destination_by_host ping_host stamp end_time now job cfg run w
      = (Return tt, w') /\
    running_jobs w' = delete job (running_jobs w).
Proof.
  unfold _execute_job, finally.
  pose proof (collect_destinations_frame get_destination_by_host ping_host stamp job run cfg
                (jc_destinations cfg) no_counts w) as H.
  destruct (collect_destinations get_destination_by_host ping_host stamp job run cfg
              (jc_destinations cfg) no_counts w) as [c w1].
  destruct H as ((Hr & _) & _). unfold try_, bind.
  match goal with |- context [_complete_job_run ?a ?b ?w0] =>
    destruct (complete_job_run_returns a b w0) as (w2 & -> & Hr2) end.
  match goal with |- context [_update_job_after_run ?a ?b ?c ?d ?w0] =>
    destruct (update_job_after_run_returns a b c d w0) as (w3 & -> & Hr3) end.
  eexists. split; [reflexivity|]. cbn. congruence.
Qed.

Lemma schedule_job_leaves_running (now now' job : Z) (cfg : JobConfig) (w : World) :
  running_jobs (snd (Scheduler.schedule_job now now' job cfg w)) = running_jobs w.
Proof.
  destruct (schedule_job_cases now now' job cfg w) as [-> | (w' & -> & _ & _ & Hr)].
  - reflexivity.
  - exact Hr.
Qed.

Lemma reschedule_each_leaves_running (parse_config : Job -> outcome JobConfig)
    (clock : Z -> Z * Z) (js : list Job) (called : list Z) (w : World) :
  running_jobs (snd (Scheduler.reschedule_each parse_config clock js called w)) = running_jobs w.
Proof.
  revert called w. induction js as [|job rest IH]; intros called w; cbn [Scheduler.reschedule_each].
  - reflexivity.
  - destruct (parse_config job) as [cfg|e]; [|reflexivity].
    pose proof (schedule_job_leaves_running (fst (clock (job_id job))) (snd (clock (job_id job)))
                  (job_id job) cfg w) as H.
    destruct (Scheduler.schedule_job _ _ _ _ w) as [[b|e] w1]; cbn [snd] in *.
    + rewrite IH. exact H.
    + exact H.
Qed.

Lemma scheduler_iteration_leaves_running (parse_config : Job -> outcome JobConfig)
    (clock : Z -> Z * Z) (now : Z) (w : World) :
  running_jobs (snd (Scheduler.scheduler_iteration parse_config clock now w)) = running_jobs w.
Proof.
  unfold Scheduler.scheduler_iteration, Scheduler._cleanup_completed_tasks, modify,
    Scheduler._reschedule_jobs, session.
  destruct (faults _) as [|[e|] fs]; cbn [fst snd].
  - match goal with |- context [Scheduler.reschedule_each ?p ?c ?js ?cl ?w0] =>
      pose proof (reschedule_each_leaves_running p c js cl w0) as H;
      destruct (Scheduler.reschedule_each p c js cl w0) as [[r called] w'] end.
    exact H.
  - reflexivity.
  - match goal with |- context [Scheduler.reschedule_each ?p ?c ?js ?cl ?w0] =>
      pose proof (reschedule_each_leaves_running p c js cl w0) as H;
      destruct (Scheduler.reschedule_each p c js cl w0) as [[r called] w'] end.
    exact H.
Qed.

Lemma engine_step_keyed (w w' : World) : engine_step w w' -> keyed w -> keyed w'.
Proof.
  intros Hstep K. destruct Hstep.
  - apply start_job_keyed, K.
  - apply task_begins_keyed, K.
  - destruct (execute_job_leaves_running get_destination_by_host ping_host stamp end_time now
                job (task_job_config task) (task_run_id task) w) as (w' & -> & Hr).
    intros j t. cbn [snd]. rewrite Hr. intros Hl.
    apply lookup_delete_Some in Hl as [_ Hl]. apply (K j t Hl).
  - apply stop_job_keyed, K.
  - intros j t. rewrite schedule_job_leaves_running. apply K.
  - intros j t. rewrite scheduler_iteration_leaves_running. apply K.
Qed.

Lemma reachable_keyed (w : World) : reachable w -> keyed w.
Proof.
  induction 1 as [w Hinit | w w' _ IH Hstep].
  - intros j t. rewrite Hinit, lookup_empty. discriminate.
  - exact (engine_step_keyed w w' Hstep IH).
Qed.

(** In every world the engine reaches, stopping a job whose unit has begun
    returns false, takes the job out of the running map and writes nothing
    to the store. *)
Lemma stop_job_started_reachable (job : Z) (task : Task) (w : World) :
  reachable w ->
  running_jobs w !! job = Some task ->
  task_started task = true ->
  stop_job job w = (Return false, set_running_jobs (delete job) w).
Proof.
  intros Hr H Hs. apply (stop_job_started job task w H Hs).
  apply (reachable_keyed w Hr job task H).
Qed.

End Reachability.

(** * The probe, its callers and the lines it reads *)

(** ** Decimal numerals *)

Lemma int_acc_of_uint_acc (d : Decimal.uint) (acc : positive) :
  Str.int_acc (Z.pos acc) (NilEmpty.string_of_uint d) = Z.pos (Pos.of_uint_acc d acc).
Proof.
  revert acc; induction d; intros acc; cbn [NilEmpty.string_of_uint Str.int_acc Pos.of_uint_acc];
    [reflexivity | rewrite <- IHd; f_equal;
       match goal with
       | |- context [Str.code ?c - 48] =>
           let v := eval vm_compute in (Str.code c - 48) in
           change (Str.code c - 48) with v
       end; lia ..].
Qed.

Lemma int_acc_of_uint (d : Decimal.uint) :
  Str.int_acc 0 (NilEmpty.string_of_uint d) = Z.of_N (Pos.of_uint d).
Proof.
  induction d; cbn [NilEmpty.string_of_uint Str.int_acc Pos.of_uint];
    [reflexivity | exact IHd | ..];
    match goal with
    | |- Str.int_acc ?a _ = _ =>
        let v := eval vm_compute in a in change a with v
    end; rewrite int_acc_of_uint_acc; reflexivity.
Qed.

Lemma string_of_uint_digits (d : Decimal.uint) :
  forallb Str.isdigit (list_ascii_of_string (NilEmpty.string_of_uint d)) = true.
Proof. induction d; cbn [NilEmpty.string_of_uint list_ascii_of_string forallb]; auto. Qed.

(** [int(str(n)) = n] for a natural number. *)
Lemma int_of_digits_str_of_Z (n : Z) : 0 <= n -> Str.int_of_digits (str_of_Z n) = n.
Proof.
  intros H. unfold Str.int_of_digits, str_of_Z.
  rewrite <- (DecimalZ.of_to n) at 2.
  destruct n as [|p|p]; [reflexivity | | lia].
  cbn [Z.to_int NilZero.string_of_int Z.of_int]. unfold Z.of_uint, NilZero.string_of_uint.
  destruct (Pos.to_uint p) eqn:E; try apply int_acc_of_uint.
  reflexivity.
Qed.

Lemma str_of_Z_digits (n : Z) :
  0 <= n -> forallb Str.isdigit (list_ascii_of_string (str_of_Z n)) = true.
Proof.
  intros H. unfold str_of_Z. destruct n as [|p|p]; [reflexivity | | lia].
  cbn [Z.to_int NilZero.string_of_int]. unfold NilZero.string_of_uint.
  destruct (Pos.to_uint p) eqn:E; try (rewrite <- E at 1; try apply string_of_uint_digits); try reflexivity.
  all: apply string_of_uint_digits.
Qed.

Lemma str_of_Z_nonempty (n : Z) : 0 <= n -> Str.is_empty (str_of_Z n) = false.
Proof.
  intros H. unfold str_of_Z. destruct n as [|p|p]; [reflexivity | | lia].
  cbn [Z.to_int NilZero.string_of_int]. unfold NilZero.string_of_uint.
  destruct (Pos.to_uint p); reflexivity.
Qed.

(** ** Strings *)

Lemma append_nil (s : string) : "" ++ s = s.
Proof. reflexivity. Qed.

Lemma append_cons (c : ascii) (a b : string) : String c a ++ b = String c (a ++ b).
Proof. reflexivity. Qed.

Lemma strip_prefix_cons (a b : ascii) (p s : string) :
  Str.strip_prefix (String a p) (String b s)
  = if Ascii.eqb a b then Str.strip_prefix p s else None.
Proof. reflexivity. Qed.

Lemma strip_prefix_app (p s : string) : Str.strip_prefix p (p ++ s) = Some s.
Proof.
  induction p as [|c p IH]; [destruct s; reflexivity|].
  rewrite append_cons, strip_prefix_cons, Ascii.eqb_refl. exact IH.
Qed.

Lemma span_app (f : ascii -> bool) (d rest : string) :
  all_chars f d = true -> head_is f rest = false ->
  Str.span f (d ++ rest) = (d, rest).
Proof.
  unfold all_chars. induction d as [|c d IH]; cbn [list_ascii_of_string forallb].
  - intros _ H. rewrite append_nil. destruct rest as [|c r]; [reflexivity|].
    cbn [Str.span head_is] in *. rewrite H. reflexivity.
  - intros H Hr. apply andb_true_iff in H as [Hc Hd].
    rewrite append_cons. cbn [Str.span]. rewrite Hc, (IH Hd Hr). reflexivity.
Qed.

Lemma re_search_here {A : Type} (m : string -> option A) (s : string) (r : A) :
  m s = Some r -> Str.re_search m s = Some r.
Proof. intros H. destruct s; cbn [Str.re_search]; rewrite H; reflexivity. Qed.

(** The search skips a prefix on whose characters no match starts. *)
Lemma re_search_skip {A : Type} (m : string -> option A) (f : ascii -> bool) (pre s : string) :
  (forall c t, f c = true -> m (String c t) = None) ->
  all_chars f pre = true ->
  Str.re_search m (pre ++ s) = Str.re_search m s.
Proof.
  intros Hm. unfold all_chars. induction pre as [|c pre IH]; [reflexivity|].
  cbn [list_ascii_of_string forallb]. intros H.
  apply andb_true_iff in H as [Hc Hp].
  rewrite append_cons. cbn [Str.re_search]. rewrite (Hm _ _ Hc). exact (IH Hp).
Qed.

Lemma upto_newline_app (a b : string) :
  all_chars (fun c => negb (Str.is_newline c)) a = true ->
  Str.upto_newline (a ++ b) = a ++ Str.upto_newline b.
Proof.
  unfold all_chars. induction a as [|c a IH]; [reflexivity|].
  cbn [list_ascii_of_string forallb]. intros H.
  apply andb_true_iff in H as [Hc Ha]. apply negb_true_iff in Hc.
  rewrite !append_cons. cbn [Str.upto_newline].
  rewrite Hc, (IH Ha). reflexivity.
Qed.

Lemma prefix_app (p s : string) : String.prefix p (p ++ s) = true.
Proof.
  induction p as [|c p IH]; [destruct s; reflexivity|].
  rewrite append_cons. cbn [String.prefix]. destruct (ascii_dec c c); [exact IH | congruence].
Qed.

Lemma contains_app (needle a b : string) : Str.contains needle (a ++ needle ++ b) = true.
Proof.
  induction a as [|c a IH].
  - rewrite append_nil. destruct (needle ++ b) eqn:E; cbn [Str.contains];
      rewrite <- E, prefix_app; reflexivity.
  - rewrite append_cons. cbn [Str.contains]. rewrite IH. apply orb_true_r.
Qed.

Lemma head_str_of_Z (n : Z) (s : string) (f : ascii -> bool) :
  0 <= n -> (forall c, Str.isdigit c = true -> f c = true) -> head_is f (str_of_Z n ++ s) = true.
Proof.
  intros Hn Hf. pose proof (str_of_Z_digits n Hn) as D.
  pose proof (str_of_Z_nonempty n Hn) as E.
  destruct (str_of_Z n) as [|c r]; [discriminate|].
  cbn [list_ascii_of_string forallb] in D. apply andb_true_iff in D as [D _].
  rewrite append_cons. cbn [head_is]. auto.
Qed.

(** ** Blank strings *)

Lemma lstrip_blank (s : string) : Str.is_empty (Str.lstrip s) = blank s.
Proof.
  unfold blank, all_chars. induction s as [|c s IH]; [reflexivity|].
  cbn [Str.lstrip list_ascii_of_string forallb].
  destruct (Str.isspace c); [exact IH | reflexivity].
Qed.

Lemma rstrip_blank (s : string) : Str.is_empty (Str.rstrip s) = blank s.
Proof.
  unfold blank, all_chars. induction s as [|c s IH]; [reflexivity|].
  cbn [Str.rstrip list_ascii_of_string forallb]. rewrite <- IH.
  destruct (Str.isspace c), (Str.is_empty (Str.rstrip s)); reflexivity.
Qed.

Lemma lstrip_head (s : string) :
  match Str.lstrip s with
  | EmptyString => True
  | String c _ => Str.isspace c = false
  end.
Proof.
  induction s as [|c s IH]; [exact I|].
  cbn [Str.lstrip]. destruct (Str.isspace c) eqn:E; [exact IH | exact E].
Qed.

Lemma strip_blank (s : string) : Str.is_empty (Str.strip s) = blank s.
Proof.
  unfold Str.strip. rewrite rstrip_blank, <- (lstrip_blank s).
  pose proof (lstrip_head s) as H. unfold blank, all_chars.
  destruct (Str.lstrip s) as [|c r]; [reflexivity|].
  cbn [list_ascii_of_string forallb Str.is_empty]. rewrite H. reflexivity.
Qed.

Lemma strip_head (s : string) :
  match Str.strip s with
  | EmptyString => True
  | String c _ => Str.isspace c = false
  end.
Proof.
  unfold Str.strip. pose proof (lstrip_head s) as H.
  destruct (Str.lstrip s) as [|c r]; [exact I|].
  cbn [Str.rstrip]. rewrite H. exact H.
Qed.

Lemma len_chars_zero (s : string) :
  (PingCollector.len (list_ascii_of_string s) =? 0) = Str.is_empty s.
Proof. destruct s; reflexivity. Qed.

Lemma blank_empty_false (s : string) : blank s = false -> Str.is_empty s = false.
Proof. destruct s; [discriminate | reflexivity]. Qed.

Lemma validate_host_nonblank (host : string) :
  PingCollector.validate_host host = negb (blank host).
Proof.
  unfold PingCollector.validate_host. rewrite !len_chars_zero, strip_blank.
  destruct (blank host) eqn:B.
  - rewrite orb_true_r. reflexivity.
  - rewrite (blank_empty_false _ B). cbn [orb negb].
    destruct (PingCollector.match_ipv4 _); [reflexivity|].
    destruct (PingCollector.match_hostname _); [reflexivity|].
    pose proof (strip_blank host) as E. rewrite B in E.
    destruct (Str.strip host); [discriminate | reflexivity].
Qed.

Lemma destination_validate_host_nonblank (host : string) :
  DestinationManager._validate_host host = negb (blank host).
Proof.
  unfold DestinationManager._validate_host. rewrite !len_chars_zero, strip_blank.
  destruct (blank host) eqn:B.
  - rewrite orb_true_r. reflexivity.
  - rewrite (blank_empty_false _ B). cbn [orb negb].
    pose proof (strip_blank host) as E. rewrite B in E.
    pose proof (strip_head host) as H.
    unfold DestinationManager.isspace.
    destruct (Str.strip host) as [|c r]; [discriminate|].
    cbn [list_ascii_of_string forallb Str.is_empty negb]. rewrite H. reflexivity.
Qed.

(** ** Numerals inside a line *)

Lemma span_number (n : Z) (rest : string) :
  0 <= n -> head_is Str.isdigit rest = false ->
  Str.span Str.isdigit (str_of_Z n ++ rest) = (str_of_Z n, rest).
Proof. intros Hn Hr. apply span_app; [apply str_of_Z_digits, Hn | exact Hr]. Qed.

Lemma all_chars_app (f : ascii -> bool) (a b : string) :
  all_chars f (a ++ b) = all_chars f a && all_chars f b.
Proof.
  unfold all_chars. induction a as [|c a IH]; [reflexivity|].
  rewrite append_cons. cbn [list_ascii_of_string forallb]. rewrite IH. apply andb_assoc.
Qed.

Lemma all_chars_weaken (f g : ascii -> bool) (s : string) :
  (forall c, f c = true -> g c = true) -> all_chars f s = true -> all_chars g s = true.
Proof.
  intros Hfg. unfold all_chars. induction s as [|c s IH]; [reflexivity|].
  cbn [list_ascii_of_string forallb]. intros H. apply andb_true_iff in H as [Hc Hs].
  rewrite (Hfg _ Hc), (IH Hs). reflexivity.
Qed.

Lemma all_chars_number (f : ascii -> bool) (n : Z) :
  0 <= n -> (forall c, Str.isdigit c = true -> f c = true) -> all_chars f (str_of_Z n) = true.
Proof. intros Hn Hf. exact (all_chars_weaken _ _ _ Hf (str_of_Z_digits n Hn)). Qed.

(** A digit is none of the characters below 48 or above 57. *)
Lemma isdigit_code (c : ascii) : Str.isdigit c = true -> 48 <= Str.code c <= 57.
Proof. unfold Str.isdigit. cbv zeta. intros H. apply andb_true_iff in H. lia. Qed.

Lemma code_eqb (a b : ascii) : Ascii.eqb a b = true -> Str.code a = Str.code b.
Proof. intros H. apply Ascii.eqb_eq in H. congruence. Qed.

Lemma digit_not (b : ascii) :
  (Str.code b <? 48) || (57 <? Str.code b) = true ->
  forall c, Str.isdigit c = true -> negb (Ascii.eqb c b) = true.
Proof.
  intros Hb c Hc. apply isdigit_code in Hc. apply negb_true_iff.
  destruct (Ascii.eqb c b) eqn:E; [|reflexivity].
  apply code_eqb in E. apply orb_true_iff in Hb. lia.
Qed.

(** ** The loss percentage *)

Lemma match_loss_head (c : ascii) (t : string) :
  negb (Ascii.eqb c "(") = true -> PingCollector.match_loss (String c t) = None.
Proof.
  intros H. apply negb_true_iff in H. unfold PingCollector.match_loss.
  rewrite strip_prefix_cons, Ascii.eqb_sym, H. reflexivity.
Qed.

Lemma match_loss_percent (n : Z) (mid post : string) :
  0 <= n ->
  all_chars (fun c => negb (Str.is_newline c)) mid = true ->
  PingCollector.match_loss ("(" ++ str_of_Z n ++ "%" ++ mid ++ "loss)" ++ post) = Some n.
Proof.
  intros Hn Hmid. unfold PingCollector.match_loss.
  rewrite strip_prefix_app. cbn [mbind option_bind].
  rewrite span_number, (str_of_Z_nonempty n Hn); [| exact Hn | reflexivity].
  rewrite strip_prefix_app. cbn [mbind option_bind].
  rewrite (upto_newline_app _ _ Hmid), (upto_newline_app "loss)" post eq_refl).
  rewrite contains_app, (int_of_digits_str_of_Z n Hn).
  reflexivity.
Qed.

(** ** Reply lines *)

Lemma append_empty (s : string) : s ++ "" = s.
Proof. induction s as [|c s IH]; [reflexivity|]. rewrite append_cons, IH. reflexivity. Qed.

Lemma span_all (f : ascii -> bool) (d : string) :
  all_chars f d = true -> Str.span f d = (d, "").
Proof. intros H. rewrite <- (append_empty d) at 1. apply span_app; [exact H | reflexivity]. Qed.

Lemma re_search_none {A : Type} (m : string -> option A) (f : ascii -> bool) (s : string) :
  (forall c t, f c = true -> m (String c t) = None) ->
  m "" = None -> all_chars f s = true -> Str.re_search m s = None.
Proof.
  intros Hm H0 Hs. rewrite <- (append_empty s), (re_search_skip m f s "" Hm Hs).
  cbn [Str.re_search]. rewrite H0. reflexivity.
Qed.

Lemma is_address_chars (addr : string) :
  is_address addr = true ->
  Str.is_empty addr = false /\ all_chars (fun c => Str.isdigit c || Str.is_dot c) addr = true.
Proof.
  unfold is_address. intros H. apply andb_true_iff in H as [H1 H2].
  apply negb_true_iff in H1. auto.
Qed.

Lemma match_reply_address (addr rest : string) :
  is_address addr = true -> head_is (fun c => Str.isdigit c || Str.is_dot c) rest = false ->
  PingCollector.match_reply ("Reply from " ++ addr ++ rest)
  = (let s2 := rest in
     s3 ← Str.strip_prefix ": bytes=" s2;
     let '(size, s4) := Str.span Str.isdigit s3 in
     if Str.is_empty size then None else
     s5 ← Str.strip_prefix " time=" s4;
     let '(t, s6) := Str.span Str.isdigit s5 in
     if Str.is_empty t then None else
     s7 ← Str.strip_prefix "ms" s6;
     let group2 :=
       s8 ← Str.strip_prefix " TTL=" s7;
       let '(d, _) := Str.span Str.isdigit s8 in
       if Str.is_empty d then None else Some d in
     Some {| PingCollector.time_ms := Str.int_of_digits t;
             PingCollector.reply_ttl := Str.int_of_digits <$> group2 |}).
Proof.
  intros Ha Hr. apply is_address_chars in Ha as [Ha1 Ha2].
  unfold PingCollector.match_reply.
  rewrite strip_prefix_app. cbn [mbind option_bind].
  rewrite (span_app _ addr rest Ha2 Hr), Ha1. reflexivity.
Qed.

Lemma parse_reply_line_printed (addr : string) (size time : Z) (ttl : option Z) :
  is_address addr = true -> 0 <= size -> 0 <= time -> nonneg ttl = true ->
  PingCollector._parse_reply_line (reply_line addr size time ttl)
  = Some {| PingCollector.time_ms := time; PingCollector.reply_ttl := ttl |}.
Proof.
  intros Ha Hs Ht Hl. apply re_search_here. unfold reply_line.
  rewrite match_reply_address; [| exact Ha | reflexivity]. cbv zeta.
  rewrite strip_prefix_app. cbn [mbind option_bind].
  rewrite span_number, (str_of_Z_nonempty size Hs); [| exact Hs | reflexivity].
  rewrite strip_prefix_app. cbn [mbind option_bind].
  rewrite span_number, (str_of_Z_nonempty time Ht); [| exact Ht | reflexivity].
  rewrite strip_prefix_app. cbn [mbind option_bind].
  rewrite (int_of_digits_str_of_Z time Ht).
  destruct ttl as [n|].
  - cbn [nonneg] in Hl. apply Z.leb_le in Hl.
    rewrite strip_prefix_app. cbn [mbind option_bind].
    rewrite (span_all _ _ (str_of_Z_digits n Hl)), (str_of_Z_nonempty n Hl).
    cbn [fmap option_fmap option_map]. rewrite (int_of_digits_str_of_Z n Hl). reflexivity.
  - reflexivity.
Qed.

Lemma match_reply_head (c : ascii) (t : string) :
  negb (Ascii.eqb c "R") = true -> PingCollector.match_reply (String c t) = None.
Proof.
  intros H. apply negb_true_iff in H. unfold PingCollector.match_reply.
  rewrite strip_prefix_cons, Ascii.eqb_sym, H. reflexivity.
Qed.

Lemma address_not (b : ascii) (addr : string) :
  (Str.code b <? 46) || ((46 <? Str.code b) && (Str.code b <? 48)) || (57 <? Str.code b) = true ->
  is_address addr = true -> all_chars (fun c => negb (Ascii.eqb c b)) addr = true.
Proof.
  intros Hb Ha. apply is_address_chars in Ha as [_ Ha].
  refine (all_chars_weaken _ _ _ _ Ha). intros c Hc.
  apply negb_true_iff. destruct (Ascii.eqb c b) eqn:E; [|reflexivity].
  apply code_eqb in E. apply orb_true_iff in Hc as [Hc|Hc].
  - apply isdigit_code in Hc. rewrite E in Hc.
    apply orb_true_iff in Hb as [Hb|Hb]; [apply orb_true_iff in Hb as [Hb|Hb]|]; lia.
  - unfold Str.is_dot in Hc. rewrite E in Hc.
    apply orb_true_iff in Hb as [Hb|Hb]; [apply orb_true_iff in Hb as [Hb|Hb]|]; lia.
Qed.

Lemma parse_reply_line_fast (addr : string) (size ttl : Z) :
  is_address addr = true -> 0 <= size -> 0 <= ttl ->
  PingCollector._parse_reply_line (fast_reply_line addr size ttl) = None.
Proof.
  intros Ha Hs Ht. unfold PingCollector._parse_reply_line, fast_reply_line.
  assert (H0 : PingCollector.match_reply
                 ("Reply from " ++ addr ++ ": bytes=" ++ str_of_Z size ++ " time<1ms TTL="
                  ++ str_of_Z ttl) = None).
  { rewrite match_reply_address; [| exact Ha | reflexivity]. cbv zeta.
    rewrite strip_prefix_app. cbn [mbind option_bind].
    rewrite span_number, (str_of_Z_nonempty size Hs); [| exact Hs | reflexivity].
    reflexivity. }
  change ("Reply from " ++ addr ++ ": bytes=" ++ str_of_Z size ++ " time<1ms TTL=" ++ str_of_Z ttl)
    with (String "R" ("eply from " ++ addr ++ ": bytes=" ++ str_of_Z size ++ " time<1ms TTL="
                      ++ str_of_Z ttl)) in *.
  cbn [Str.re_search]. rewrite H0.
  apply (re_search_none _ (fun c => negb (Ascii.eqb c "R"))); [exact match_reply_head | reflexivity |].
  rewrite !all_chars_app.
  rewrite (address_not "R" addr eq_refl Ha).
  rewrite (all_chars_number _ size Hs (digit_not "R" eq_refl)).
  rewrite (all_chars_number _ ttl Ht (digit_not "R" eq_refl)).
  reflexivity.
Qed.

(** ** The statistics line *)

Lemma match_statistics_head (c : ascii) (t : string) :
  negb (Ascii.eqb c "M") = true -> PingCollector.match_statistics (String c t) = None.
Proof.
  intros H. apply negb_true_iff in H. unfold PingCollector.match_statistics.
  rewrite strip_prefix_cons, Ascii.eqb_sym, H. reflexivity.
Qed.

Lemma parse_statistics_line_printed (lo hi avg : Z) :
  0 <= lo -> 0 <= hi -> 0 <= avg ->
  PingCollector._parse_statistics_line (statistics_line lo hi avg)
  = Some {| PingCollector.stat_min := nearest_float lo;
            PingCollector.stat_max := nearest_float hi;
            PingCollector.stat_avg := nearest_float avg |}.
Proof.
  intros Hlo Hhi Havg. unfold PingCollector._parse_statistics_line, statistics_line.
  change ("    Minimum = " ++ str_of_Z lo ++ "ms, Maximum = " ++ str_of_Z hi ++ "ms, Average = "
          ++ str_of_Z avg ++ "ms")
    with ("    " ++ "Minimum = " ++ str_of_Z lo ++ "ms, Maximum = " ++ str_of_Z hi
          ++ "ms, Average = " ++ str_of_Z avg ++ "ms").
  rewrite (re_search_skip _ _ "    " _ match_statistics_head eq_refl).
  apply re_search_here. unfold PingCollector.match_statistics.
  rewrite strip_prefix_app. cbn [mbind option_bind].
  rewrite span_number, (str_of_Z_nonempty lo Hlo); [| exact Hlo | reflexivity].
  rewrite strip_prefix_app. cbn [mbind option_bind].
  rewrite span_number, (str_of_Z_nonempty hi Hhi); [| exact Hhi | reflexivity].
  rewrite strip_prefix_app. cbn [mbind option_bind].
  rewrite span_number, (str_of_Z_nonempty avg Havg); [| exact Havg | reflexivity].
  unfold Float.of_digits. rewrite !int_of_digits_str_of_Z by assumption. reflexivity.
Qed.

(** The integers below 2^53 are floats. *)

Lemma digits2_pos_bound (p : positive) :
  2 ^ (Zpos (digits2_pos p) - 1) <= Zpos p < 2 ^ Zpos (digits2_pos p).
Proof.
  induction p as [p IH|p IH|]; cbn [digits2_pos].
  - rewrite Pos2Z.inj_succ. replace (Z.succ (Zpos (digits2_pos p)) - 1) with (Zpos (digits2_pos p)) by lia.
    rewrite Z.pow_succ_r by lia.
    assert (E : 2 ^ Zpos (digits2_pos p) = 2 * 2 ^ (Zpos (digits2_pos p) - 1)).
    { rewrite <- Z.pow_succ_r by lia. f_equal. lia. }
    lia.
  - rewrite Pos2Z.inj_succ. replace (Z.succ (Zpos (digits2_pos p)) - 1) with (Zpos (digits2_pos p)) by lia.
    rewrite Z.pow_succ_r by lia.
    assert (E : 2 ^ Zpos (digits2_pos p) = 2 * 2 ^ (Zpos (digits2_pos p) - 1)).
    { rewrite <- Z.pow_succ_r by lia. f_equal. lia. }
    lia.
  - cbn. lia.
Qed.

Lemma iter_xO (p k : positive) : Zpos (Pos.iter xO p k) = Zpos p * 2 ^ Zpos k.
Proof.
  revert p. induction k as [|k IH] using Pos.peano_ind; intros p.
  - cbn. lia.
  - rewrite Pos.iter_succ, Pos2Z.inj_succ, Z.pow_succ_r by lia.
    rewrite Pos2Z.inj_xO, IH. lia.
Qed.

Lemma digits2_pos_iter_xO (p k : positive) :
  Zpos (digits2_pos (Pos.iter xO p k)) = Zpos (digits2_pos p) + Zpos k.
Proof.
  revert p. induction k as [|k IH] using Pos.peano_ind; intros p.
  - cbn. lia.
  - rewrite Pos.iter_succ. cbn [digits2_pos]. rewrite Pos2Z.inj_succ, IH. lia.
Qed.

(** A number of exactly 53 binary digits with an exponent in range is
    returned as it is. *)
Lemma binary_round_aux_exact (m : positive) (e : Z) :
  Zpos (digits2_pos m) = 53 -> -1074 <= e <= 971 ->
  binary_round_aux Float.prec Float.emax false (Zpos m) e loc_Exact = S754_finite false m e.
Proof.
  intros Hd He. unfold binary_round_aux, shr_fexp, fexp, emin, Float.prec, Float.emax.
  cbn [Zdigits2 shr_record_of_loc]. rewrite Hd.
  replace (Z.max (53 + e - 53) (3 - 1024 - 53) - e) with 0 by lia.
  cbn [shr shr_m loc_of_shr_record round_nearest_even Zdigits2]. rewrite Hd.
  replace (Z.max (53 + e - 53) (3 - 1024 - 53) - e) with 0 by lia.
  cbn [shr shr_m].
  replace (e <=? 1024 - 53) with true by (symmetry; apply Z.leb_le; lia). reflexivity.
Qed.

Lemma nearest_float_pos (p : positive) :
  Zpos p < 2 ^ 53 ->
  exists (m : positive) (k : Z),
    nearest_float (Zpos p) = S754_finite false m (- k) /\ 0 <= k <= 52 /\
    Zpos m = Zpos p * 2 ^ k.
Proof.
  intros Hp. pose proof (digits2_pos_bound p) as [Hlo Hhi].
  assert (Hd : Zpos (digits2_pos p) <= 53).
  { destruct (Z.le_gt_cases (Zpos (digits2_pos p)) 53) as [H|H]; [exact H|].
    assert (2 ^ 53 <= 2 ^ (Zpos (digits2_pos p) - 1)) by (apply Z.pow_le_mono_r; lia). lia. }
  unfold nearest_float, binary_normalize, binary_round, shl_align, fexp, emin, Float.prec, Float.emax.
  replace (Z.max (Zpos (digits2_pos p) + 0 - 53) (3 - 1024 - 53)) with (Zpos (digits2_pos p) - 53) by lia.
  destruct (Zpos (digits2_pos p) - 53 - 0) as [|d|d] eqn:Ed; try lia.
  - exists p, 0. rewrite binary_round_aux_exact by lia.
    split; [reflexivity|]. split; [lia|]. cbn. lia.
  - exists (Pos.iter xO p d), (Zpos d).
    rewrite binary_round_aux_exact.
    + replace (Zpos (digits2_pos p) - 53) with (- Zpos d) by lia.
      split; [reflexivity|]. split; [lia|]. apply iter_xO.
    + rewrite digits2_pos_iter_xO. lia.
    + lia.
Qed.

Lemma nearest_float_exact (n : Z) :
  0 <= n < 2 ^ 53 -> integer_value (nearest_float n) = Some n.
Proof.
  intros [H0 Hn]. destruct n as [|p|p]; try lia; [reflexivity|].
  destruct (nearest_float_pos p Hn) as (m & k & -> & Hk & Hm).
  unfold integer_value. destruct (Z.eqb_spec k 0) as [->|Hk0].
  - cbn [Z.opp Z.leb Z.compare]. rewrite Z.pow_0_r, Z.mul_1_r in Hm. rewrite Hm.
    change (2 ^ 0) with 1. rewrite Z.mul_1_r, Z.mul_1_l. reflexivity.
  - replace (0 <=? - k) with false by (symmetry; apply Z.leb_gt; lia).
    rewrite Z.opp_involutive, Hm.
    assert (Hpow : 0 < 2 ^ k) by (apply Z.pow_pos_nonneg; lia).
    rewrite Z.mod_mul by lia. rewrite Z.eqb_refl, Z.div_mul by lia.
    rewrite Z.mul_1_l. reflexivity.
Qed.

(** ** Lines that the parser passes over *)

Lemma append_assoc (a b c : string) : (a ++ b) ++ c = a ++ b ++ c.
Proof. induction a as [|x a IH]; [reflexivity|]. rewrite !append_cons, IH. reflexivity. Qed.

Lemma lower_app (a b : string) : Str.lower (a ++ b) = Str.lower a ++ Str.lower b.
Proof.
  induction a as [|c a IH]; [reflexivity|].
  rewrite append_cons. cbn [Str.lower]. rewrite IH, append_cons. reflexivity.
Qed.

Lemma lower_char_below (c : ascii) : Str.code c < 65 -> Str.lower_char c = c.
Proof.
  intros H. unfold Str.lower_char. cbv zeta.
  replace (65 <=? Str.code c) with false by (symmetry; apply Z.leb_gt; lia).
  replace (192 <=? Str.code c) with false by (symmetry; apply Z.leb_gt; lia).
  reflexivity.
Qed.

Lemma lower_fixed (s : string) :
  all_chars (fun c => Str.code c <? 65) s = true -> Str.lower s = s.
Proof.
  unfold all_chars. induction s as [|c s IH]; [reflexivity|].
  cbn [list_ascii_of_string forallb Str.lower]. intros H.
  apply andb_true_iff in H as [Hc Hs]. apply Z.ltb_lt in Hc.
  rewrite (lower_char_below c Hc), (IH Hs). reflexivity.
Qed.

Lemma digit_below (c : ascii) : Str.isdigit c = true -> (Str.code c <? 65) = true.
Proof. intros H. apply isdigit_code in H. apply Z.ltb_lt. lia. Qed.

Lemma lower_number (n : Z) : 0 <= n -> Str.lower (str_of_Z n) = str_of_Z n.
Proof. intros H. apply lower_fixed, (all_chars_number _ n H digit_below). Qed.

Lemma address_below (c : ascii) :
  Str.isdigit c || Str.is_dot c = true -> (Str.code c <? 65) = true.
Proof.
  intros H. apply orb_true_iff in H as [H|H]; [exact (digit_below c H)|].
  unfold Str.is_dot in H. apply Z.ltb_lt. lia.
Qed.

Lemma lower_address (addr : string) : is_address addr = true -> Str.lower addr = addr.
Proof.
  intros H. apply is_address_chars in H as [_ H].
  apply lower_fixed, (all_chars_weaken _ _ _ address_below H).
Qed.

Lemma contains_cons (needle : string) (c : ascii) (s : string) :
  String.prefix needle (String c s) = false ->
  Str.contains needle (String c s) = Str.contains needle s.
Proof. intros H. cbn [Str.contains]. rewrite H. reflexivity. Qed.

Lemma prefix_head (a c : ascii) (p t : string) :
  negb (Ascii.eqb c a) = true -> String.prefix (String a p) (String c t) = false.
Proof.
  intros H. apply negb_true_iff in H. cbn [String.prefix].
  destruct (ascii_dec a c) as [->|]; [rewrite Ascii.eqb_refl in H; discriminate | reflexivity].
Qed.

(** The needle starts at none of the characters of a prefix that lacks its
    first character. *)
Lemma contains_skip (a : ascii) (p pre s : string) :
  all_chars (fun c => negb (Ascii.eqb c a)) pre = true ->
  Str.contains (String a p) (pre ++ s) = Str.contains (String a p) s.
Proof.
  unfold all_chars. induction pre as [|c pre IH]; [reflexivity|].
  cbn [list_ascii_of_string forallb]. intros H. apply andb_true_iff in H as [Hc Hp].
  rewrite append_cons, (contains_cons _ _ _ (prefix_head a c p _ Hc)). exact (IH Hp).
Qed.

Lemma contains_app_r (needle a s : string) :
  Str.contains needle s = true -> Str.contains needle (a ++ s) = true.
Proof.
  intros H. induction a as [|c a IH]; [exact H|].
  rewrite append_cons. cbn [Str.contains]. rewrite IH. apply orb_true_r.
Qed.

Lemma skip_number (a : ascii) (p : string) (n : Z) (s : string) :
  0 <= n -> (Str.code a <? 48) || (57 <? Str.code a) = true ->
  Str.contains (String a p) (str_of_Z n ++ s) = Str.contains (String a p) s.
Proof.
  intros Hn Ha. apply contains_skip, (all_chars_number _ n Hn (digit_not a Ha)).
Qed.

Lemma skip_address (a : ascii) (p addr s : string) :
  is_address addr = true ->
  (Str.code a <? 46) || ((46 <? Str.code a) && (Str.code a <? 48)) || (57 <? Str.code a) = true ->
  Str.contains (String a p) (addr ++ s) = Str.contains (String a p) s.
Proof. intros Haddr Ha. apply contains_skip, (address_not a addr Ha Haddr). Qed.

Lemma lower_reply_line (addr : string) (size time : Z) (ttl : option Z) :
  is_address addr = true -> 0 <= size -> 0 <= time -> nonneg ttl = true ->
  Str.lower (reply_line addr size time ttl)
  = "reply from " ++ addr ++ ": bytes=" ++ str_of_Z size ++ " time=" ++ str_of_Z time ++ "ms"
    ++ match ttl with
       | Some n => " ttl=" ++ str_of_Z n ++ ""
       | None => ""
       end.
Proof.
  intros Ha Hs Ht Hl. unfold reply_line.
  rewrite !lower_app, (lower_address addr Ha), (lower_number size Hs), (lower_number time Ht).
  destruct ttl as [n|]; [|reflexivity].
  cbn [nonneg] in Hl. apply Z.leb_le in Hl.
  rewrite lower_app, (lower_number n Hl), append_empty. reflexivity.
Qed.

Lemma lower_fast_reply_line (addr : string) (size ttl : Z) :
  is_address addr = true -> 0 <= size -> 0 <= ttl ->
  Str.lower (fast_reply_line addr size ttl)
  = "reply from " ++ addr ++ ": bytes=" ++ str_of_Z size ++ " time<1ms ttl=" ++ str_of_Z ttl ++ "".
Proof.
  intros Ha Hs Ht. unfold fast_reply_line.
  rewrite !lower_app, (lower_address addr Ha), (lower_number size Hs), (lower_number ttl Ht).
  rewrite append_empty. reflexivity.
Qed.

(** Steps over the characters of a literal, one at a time. *)
Ltac skip_literal :=
  repeat first [ rewrite append_nil
               | rewrite append_cons; rewrite contains_cons by reflexivity ].

Lemma reply_line_quiet (a : ascii) (p : string) (addr : string) (size time : Z) (ttl : option Z) :
  String a p = "lost" \/ String a p = "packet loss" ->
  is_address addr = true -> 0 <= size -> 0 <= time -> nonneg ttl = true ->
  Str.contains (String a p) (Str.lower (reply_line addr size time ttl)) = false.
Proof.
  intros Hn Ha Hs Ht Hl. rewrite (lower_reply_line addr size time ttl Ha Hs Ht Hl).
  destruct Hn as [Hn|Hn]; injection Hn as -> ->.
  all: skip_literal; (rewrite skip_address; [| exact Ha | reflexivity]).
  all: skip_literal; (rewrite skip_number; [| exact Hs | reflexivity]).
  all: skip_literal; (rewrite skip_number; [| exact Ht | reflexivity]).
  all: destruct ttl as [n|]; [|reflexivity].
  all: cbn [nonneg] in Hl; apply Z.leb_le in Hl.
  all: skip_literal; (rewrite skip_number; [| exact Hl | reflexivity]); reflexivity.
Qed.

Lemma fast_reply_line_quiet (a : ascii) (p : string) (addr : string) (size ttl : Z) :
  String a p = "lost" \/ String a p = "packet loss" ->
  is_address addr = true -> 0 <= size -> 0 <= ttl ->
  Str.contains (String a p) (Str.lower (fast_reply_line addr size ttl)) = false.
Proof.
  intros Hn Ha Hs Ht. rewrite (lower_fast_reply_line addr size ttl Ha Hs Ht).
  destruct Hn as [Hn|Hn]; injection Hn as -> ->.
  all: skip_literal; (rewrite skip_address; [| exact Ha | reflexivity]).
  all: skip_literal; (rewrite skip_number; [| exact Hs | reflexivity]).
  all: skip_literal; (rewrite skip_number; [| exact Ht | reflexivity]); reflexivity.
Qed.

(** ** Stripping *)

Lemma blank_app (a b : string) : blank (a ++ b) = blank a && blank b.
Proof. apply all_chars_app. Qed.

Lemma rstrip_cons (c : ascii) (s : string) :
  blank s = false -> Str.rstrip (String c s) = String c (Str.rstrip s).
Proof.
  intros H. cbn [Str.rstrip]. rewrite rstrip_blank, H, andb_false_r. reflexivity.
Qed.

Lemma rstrip_app (a s : string) :
  blank s = false -> Str.rstrip (a ++ s) = a ++ Str.rstrip s.
Proof.
  intros H. induction a as [|c a IH]; [reflexivity|].
  rewrite !append_cons, rstrip_cons, IH; [reflexivity|].
  rewrite blank_app, H. apply andb_false_r.
Qed.

Lemma head_nonblank (s : string) :
  head_is (fun c => negb (Str.isspace c)) s = true -> blank s = false.
Proof.
  destruct s as [|c s]; [discriminate|]. cbn [head_is]. intros H.
  apply negb_true_iff in H. unfold blank, all_chars.
  cbn [list_ascii_of_string forallb]. rewrite H. reflexivity.
Qed.

Lemma head_is_app (f : ascii -> bool) (a b : string) :
  Str.is_empty a = false -> head_is f (a ++ b) = head_is f a.
Proof. destruct a; [discriminate | reflexivity]. Qed.

Lemma head_all (f : ascii -> bool) (s : string) :
  Str.is_empty s = false -> all_chars f s = true -> head_is f s = true.
Proof.
  destruct s as [|c s]; [discriminate|]. intros _ H. unfold all_chars in H.
  cbn [list_ascii_of_string forallb] in H. apply andb_true_iff in H as [H _]. exact H.
Qed.

Lemma address_code (c : ascii) :
  Str.isdigit c || Str.is_dot c = true -> 46 <= Str.code c <= 57.
Proof.
  intros H. apply orb_true_iff in H as [H|H]; [apply isdigit_code in H; lia|].
  unfold Str.is_dot in H. lia.
Qed.

Lemma address_nonspace (c : ascii) :
  Str.isdigit c || Str.is_dot c = true -> negb (Str.isspace c) = true.
Proof.
  intros H. apply address_code in H.
  apply negb_true_iff. unfold Str.isspace. cbv zeta.
  repeat match goal with
         | |- context [?a <=? ?b] => destruct (Z.leb_spec a b)
         | |- context [?a =? ?b] => destruct (Z.eqb_spec a b)
         end; try reflexivity; lia.
Qed.

Lemma address_nonblank (addr rest : string) : is_address addr = true -> blank (addr ++ rest) = false.
Proof.
  intros H. apply is_address_chars in H as [H1 H2]. apply head_nonblank.
  rewrite (head_is_app _ _ _ H1). apply (head_all _ _ H1).
  exact (all_chars_weaken _ _ _ address_nonspace H2).
Qed.

Lemma strip_cons (c : ascii) (s : string) :
  Str.isspace c = false -> Str.strip (String c s) = Str.rstrip (String c s).
Proof. intros H. unfold Str.strip. cbn [Str.lstrip]. rewrite H. reflexivity. Qed.

Lemma reply_prefix (addr rest : string) :
  is_address addr = true ->
  Str.startswith "Reply from" (Str.strip ("Reply from " ++ addr ++ rest)) = true.
Proof.
  intros H.
  change ("Reply from " ++ addr ++ rest) with (String "R" ("eply from " ++ addr ++ rest)).
  rewrite (strip_cons "R" _ eq_refl).
  change (String "R" ("eply from " ++ addr ++ rest)) with ("Reply from " ++ addr ++ rest).
  rewrite (rstrip_app _ _ (address_nonblank addr rest H)).
  change ("Reply from " ++ Str.rstrip (addr ++ rest))
    with ("Reply from" ++ " " ++ Str.rstrip (addr ++ rest)).
  apply prefix_app.
Qed.

Lemma reply_line_prefix (addr : string) (size time : Z) (ttl : option Z) :
  is_address addr = true ->
  Str.startswith "Reply from" (Str.strip (reply_line addr size time ttl)) = true.
Proof. intros H. unfold reply_line. apply reply_prefix, H. Qed.

(** ** One line of a report *)

Lemma parse_line_reply (st : PingCollector.ParseState) (addr : string) (size time : Z)
    (ttl : option Z) :
  is_address addr = true -> 0 <= size -> 0 <= time -> nonneg ttl = true ->
  PingCollector.parse_line st (reply_line addr size time ttl)
  = {| PingCollector.reply_times := (PingCollector.reply_times st ++ [time])%list;
       PingCollector.packet_loss := PingCollector.packet_loss st;
       PingCollector.ttl := match ttl with
                            | Some t => if t =? 0 then PingCollector.ttl st else Some t
                            | None => PingCollector.ttl st
                            end |}.
Proof.
  intros Ha Hs Ht Hl. unfold PingCollector.parse_line.
  rewrite (reply_line_quiet _ _ addr size time ttl (or_intror eq_refl) Ha Hs Ht Hl).
  rewrite (reply_line_quiet _ _ addr size time ttl (or_introl eq_refl) Ha Hs Ht Hl).
  rewrite (parse_reply_line_printed addr size time ttl Ha Hs Ht Hl).
  rewrite (reply_line_prefix addr size time ttl Ha). reflexivity.
Qed.

Lemma parse_line_fast_reply (st : PingCollector.ParseState) (addr : string) (size ttl : Z) :
  is_address addr = true -> 0 <= size -> 0 <= ttl ->
  PingCollector.parse_line st (fast_reply_line addr size ttl) = st.
Proof.
  intros Ha Hs Ht. unfold PingCollector.parse_line.
  rewrite (fast_reply_line_quiet _ _ addr size ttl (or_intror eq_refl) Ha Hs Ht).
  rewrite (fast_reply_line_quiet _ _ addr size ttl (or_introl eq_refl) Ha Hs Ht).
  rewrite (parse_reply_line_fast addr size ttl Ha Hs Ht).
  destruct (Str.startswith _ _); reflexivity.
Qed.

Lemma parse_line_other (st : PingCollector.ParseState) (text : string) :
  inert text = true -> PingCollector.parse_line st text = st.
Proof.
  unfold inert. intros H.
  apply andb_true_iff in H as [H H4]. apply andb_true_iff in H as [H H3].
  apply andb_true_iff in H as [_ H2].
  apply negb_true_iff in H2, H3, H4.
  unfold PingCollector.parse_line. rewrite H2, H3, H4. reflexivity.
Qed.

Lemma strip_not_reply (s : string) (c : ascii) (t : string) :
  Str.lstrip s = String c t -> negb (Ascii.eqb c "R") = true ->
  Str.startswith "Reply from" (Str.strip s) = false.
Proof.
  intros E Hc. unfold Str.strip. rewrite E.
  pose proof (lstrip_head s) as H. rewrite E in H.
  cbn [Str.rstrip]. rewrite H. cbn [andb]. unfold Str.startswith.
  apply prefix_head, Hc.
Qed.

Lemma parse_packet_loss_printed (pre mid post : string) (n : Z) :
  0 <= n ->
  all_chars (fun c => negb (Ascii.eqb c "(")) pre = true ->
  all_chars (fun c => negb (Str.is_newline c)) mid = true ->
  PingCollector._parse_packet_loss (pre ++ "(" ++ str_of_Z n ++ "%" ++ mid ++ "loss)" ++ post) = n.
Proof.
  intros Hn Hpre Hmid. unfold PingCollector._parse_packet_loss.
  rewrite (re_search_skip _ _ pre _ match_loss_head Hpre).
  rewrite (re_search_here _ _ n (match_loss_percent n mid post Hn Hmid)). reflexivity.
Qed.

Lemma parse_line_packets (st : PingCollector.ParseState) (sent received lost percent : Z) :
  0 <= sent -> 0 <= received -> 0 <= lost -> 0 <= percent ->
  PingCollector.parse_line st (packets_line sent received lost percent)
  = {| PingCollector.reply_times := PingCollector.reply_times st;
       PingCollector.packet_loss := percent;
       PingCollector.ttl := PingCollector.ttl st |}.
Proof.
  intros Hs Hr Hl Hp. unfold PingCollector.parse_line.
  rewrite (strip_not_reply (packets_line sent received lost percent) "P"
             ("ackets: Sent = " ++ str_of_Z sent ++ ", Received = " ++ str_of_Z received
              ++ ", Lost = " ++ str_of_Z lost ++ " (" ++ str_of_Z percent ++ "% loss),")
             eq_refl eq_refl).
  assert (L : Str.contains "lost" (Str.lower (packets_line sent received lost percent)) = true).
  { unfold packets_line. rewrite !lower_app.
    do 4 apply contains_app_r.
    change (Str.lower ", Lost = ") with ("" ++ ", " ++ "lost" ++ " = ") .
    rewrite append_nil, !append_assoc. apply contains_app. }
  rewrite L, orb_true_r. f_equal.
  unfold packets_line.
  replace ("    Packets: Sent = " ++ str_of_Z sent ++ ", Received = " ++ str_of_Z received
           ++ ", Lost = " ++ str_of_Z lost ++ " (" ++ str_of_Z percent ++ "% loss),")
    with (("    Packets: Sent = " ++ str_of_Z sent ++ ", Received = " ++ str_of_Z received
           ++ ", Lost = " ++ str_of_Z lost ++ " ")
          ++ "(" ++ str_of_Z percent ++ "%" ++ " " ++ "loss)" ++ ",")
    by (rewrite !append_assoc; reflexivity).
  apply parse_packet_loss_printed; [exact Hp | | reflexivity].
  rewrite !all_chars_app.
  rewrite !(fun n H => all_chars_number _ n H (digit_not "(" eq_refl)) by assumption.
  reflexivity.
Qed.

(** ** The lines of an output *)

Lemma split_lines_line (s : string) :
  all_chars (fun c => negb (Str.is_newline c)) s = true -> Str.split_lines s = [s].
Proof.
  unfold all_chars. induction s as [|c s IH]; [reflexivity|].
  cbn [list_ascii_of_string forallb Str.split_lines]. intros H.
  apply andb_true_iff in H as [Hc Hs]. apply negb_true_iff in Hc.
  rewrite Hc, (IH Hs). reflexivity.
Qed.

Lemma split_lines_app (a s : string) :
  all_chars (fun c => negb (Str.is_newline c)) a = true ->
  Str.split_lines (a ++ String "010" s) = a :: Str.split_lines s.
Proof.
  unfold all_chars. induction a as [|c a IH].
  - intros _. reflexivity.
  - cbn [list_ascii_of_string forallb]. intros H.
    apply andb_true_iff in H as [Hc Ha]. apply negb_true_iff in Hc.
    rewrite append_cons. cbn [Str.split_lines]. rewrite Hc, (IH Ha). reflexivity.
Qed.

Lemma split_lines_unlines (lines : list string) :
  lines <> [] ->
  forallb (all_chars (fun c => negb (Str.is_newline c))) lines = true ->
  Str.split_lines (unlines lines) = lines.
Proof.
  induction lines as [|line rest IH]; [congruence|]. intros _ H.
  cbn [forallb] in H. apply andb_true_iff in H as [Hl Hr].
  destruct rest as [|line' rest'].
  - cbn [unlines]. apply split_lines_line, Hl.
  - change (unlines (line :: line' :: rest'))
      with (line ++ String "010" (unlines (line' :: rest'))).
    rewrite (split_lines_app _ _ Hl), IH; [reflexivity | congruence | exact Hr].
Qed.

Lemma number_line (n : Z) :
  0 <= n -> all_chars (fun c => negb (Str.is_newline c)) (str_of_Z n) = true.
Proof.
  intros H. apply (all_chars_number _ n H). intros c Hc.
  apply isdigit_code in Hc. apply negb_true_iff. unfold Str.is_newline. lia.
Qed.

Lemma address_line (addr : string) :
  is_address addr = true -> all_chars (fun c => negb (Str.is_newline c)) addr = true.
Proof.
  intros H. apply is_address_chars in H as [_ H].
  refine (all_chars_weaken _ _ _ _ H). intros c Hc. apply address_code in Hc.
  apply negb_true_iff. unfold Str.is_newline. lia.
Qed.

Lemma well_formed_reply (addr : string) (size time : Z) (ttl : option Z) :
  well_formed (Reply addr size time ttl) = true ->
  is_address addr = true /\ 0 <= size /\ 0 <= time /\ nonneg ttl = true.
Proof.
  cbn [well_formed]. intros H.
  apply andb_true_iff in H as [H H4]. apply andb_true_iff in H as [H H3].
  apply andb_true_iff in H as [H1 H2]. repeat split; try assumption; lia.
Qed.

Lemma well_formed_fast_reply (addr : string) (size ttl : Z) :
  well_formed (FastReply addr size ttl) = true ->
  is_address addr = true /\ 0 <= size /\ 0 <= ttl.
Proof.
  cbn [well_formed]. intros H.
  apply andb_true_iff in H as [H H3]. apply andb_true_iff in H as [H1 H2].
  repeat split; try assumption; lia.
Qed.

Lemma well_formed_packets (sent received lost percent : Z) :
  well_formed (Packets sent received lost percent) = true ->
  0 <= sent /\ 0 <= received /\ 0 <= lost /\ 0 <= percent.
Proof.
  cbn [well_formed]. intros H.
  apply andb_true_iff in H as [H H4]. apply andb_true_iff in H as [H H3].
  apply andb_true_iff in H as [H1 H2]. lia.
Qed.

Lemma render_line (l : ReportLine) :
  well_formed l = true -> all_chars (fun c => negb (Str.is_newline c)) (render l) = true.
Proof.
  destruct l as [addr size time ttl | addr size ttl | sent received lost percent | text].
  - intros H. apply well_formed_reply in H as (Ha & Hs & Ht & Hl).
    cbn [render]. unfold reply_line. rewrite !all_chars_app.
    rewrite (address_line addr Ha), (number_line size Hs), (number_line time Ht).
    destruct ttl as [n|]; [|reflexivity].
    cbn [nonneg] in Hl. apply Z.leb_le in Hl.
    rewrite all_chars_app, (number_line n Hl). reflexivity.
  - intros H. apply well_formed_fast_reply in H as (Ha & Hs & Ht).
    cbn [render]. unfold fast_reply_line. rewrite !all_chars_app.
    rewrite (address_line addr Ha), (number_line size Hs), (number_line ttl Ht). reflexivity.
  - intros H. apply well_formed_packets in H as (Hs & Hr & Hl & Hp).
    cbn [render]. unfold packets_line. rewrite !all_chars_app.
    rewrite (number_line sent Hs), (number_line received Hr), (number_line lost Hl),
      (number_line percent Hp). reflexivity.
  - cbn [well_formed render]. unfold inert. intros H.
    apply andb_true_iff in H as [H _]. apply andb_true_iff in H as [H _].
    apply andb_true_iff in H as [H _]. exact H.
Qed.

(** The state of the loop after the lines of a report. *)
Lemma parse_report (report : list ReportLine) (st : PingCollector.ParseState) :
  forallb well_formed report = true ->
  fold_left PingCollector.parse_line (map render report) st
  = {| PingCollector.reply_times := (PingCollector.reply_times st ++ times_of report)%list;
       PingCollector.packet_loss := loss_of (PingCollector.packet_loss st) report;
       PingCollector.ttl := ttl_of (PingCollector.ttl st) report |}.
Proof.
  revert st. induction report as [|l report IH]; intros st H.
  - cbn [map fold_left times_of loss_of ttl_of]. rewrite app_nil_r. destruct st; reflexivity.
  - cbn [forallb] in H. apply andb_true_iff in H as [Hl Hr].
    cbn [map fold_left]. rewrite (IH _ Hr). clear IH.
    destruct l as [addr size time ttl | addr size ttl | sent received lost percent | text].
    + apply well_formed_reply in Hl as (Ha & Hs & Ht & Hn).
      cbn [render]. rewrite (parse_line_reply st addr size time ttl Ha Hs Ht Hn).
      cbn [PingCollector.reply_times PingCollector.packet_loss PingCollector.ttl
           times_of loss_of ttl_of].
      rewrite <- app_assoc. destruct ttl; reflexivity.
    + apply well_formed_fast_reply in Hl as (Ha & Hs & Ht).
      cbn [render]. rewrite (parse_line_fast_reply st addr size ttl Ha Hs Ht). reflexivity.
    + apply well_formed_packets in Hl as (Hs & Hr' & Hl' & Hp).
      cbn [render]. rewrite (parse_line_packets st sent received lost percent Hs Hr' Hl' Hp).
      reflexivity.
    + cbn [well_formed] in Hl. cbn [render]. rewrite (parse_line_other st text Hl). reflexivity.
Qed.

(** ** Stripping an output *)

Lemma lstrip_app (lead s : string) : blank lead = true -> Str.lstrip (lead ++ s) = Str.lstrip s.
Proof.
  unfold blank, all_chars. induction lead as [|c lead IH]; [reflexivity|].
  cbn [list_ascii_of_string forallb]. intros H. apply andb_true_iff in H as [Hc Hl].
  rewrite append_cons. cbn [Str.lstrip]. rewrite Hc. exact (IH Hl).
Qed.

Lemma lstrip_fixed (s : string) :
  head_is (fun c => negb (Str.isspace c)) s = true -> Str.lstrip s = s.
Proof.
  destruct s as [|c s]; [discriminate|]. cbn [head_is Str.lstrip]. intros H.
  apply negb_true_iff in H. rewrite H. reflexivity.
Qed.

Lemma rstrip_blank_empty (s : string) : blank s = true -> Str.rstrip s = "".
Proof.
  intros H. rewrite <- rstrip_blank in H. destruct (Str.rstrip s); [reflexivity | discriminate].
Qed.

Lemma rstrip_trail (body trail : string) :
  last_is (fun c => negb (Str.isspace c)) body = true -> blank trail = true ->
  Str.rstrip (body ++ trail) = body.
Proof.
  intros Hb Ht. induction body as [|c body IH]; [discriminate|].
  rewrite append_cons. destruct body as [|c' body'].
  - cbn [last_is] in Hb. apply negb_true_iff in Hb.
    rewrite append_nil. cbn [Str.rstrip]. rewrite Hb, (rstrip_blank_empty trail Ht). reflexivity.
  - cbn [Str.rstrip]. rewrite (IH Hb). cbn [Str.is_empty]. rewrite andb_false_r. reflexivity.
Qed.

Lemma strip_padded (lead body trail : string) :
  blank lead = true -> blank trail = true ->
  head_is (fun c => negb (Str.isspace c)) body = true ->
  last_is (fun c => negb (Str.isspace c)) body = true ->
  Str.strip (lead ++ body ++ trail) = body.
Proof.
  intros Hl Ht Hh Hb. unfold Str.strip.
  rewrite (lstrip_app lead _ Hl), lstrip_fixed; [apply (rstrip_trail body trail Hb Ht)|].
  destruct body; [discriminate | exact Hh].
Qed.

(** The two ends of [_parse_ping_output]: the dictionary of its main path,
    and the one of its [except] clause when the mean of the reply times is
    too large for a [float]. *)
Lemma parse_ping_output_spec (now : Z) (output host : string) :
  PingCollector._parse_ping_output now output host
  = let st := fold_left PingCollector.parse_line (Str.split_lines (Str.strip output))
                PingCollector.parse_init in
    let reply_times := PingCollector.reply_times st in
    if mean_fits reply_times then
      PingCollector.Parsed
        {| PingCollector.pp_success := 0 <? PingCollector.len reply_times;
           PingCollector.pp_host := host;
           PingCollector.pp_timestamp := now;
           PingCollector.pp_packets_sent :=
             PingCollector.len reply_times + PingCollector.packet_loss st;
           PingCollector.pp_packets_received := PingCollector.len reply_times;
           PingCollector.pp_packet_loss_percent := PingCollector.packet_loss st;
           PingCollector.pp_response_times := reply_times;
           PingCollector.pp_min_response_time_ms := PingCollector.list_min reply_times;
           PingCollector.pp_max_response_time_ms := PingCollector.list_max reply_times;
           PingCollector.pp_avg_response_time_ms := mean reply_times;
           PingCollector.pp_jitter_ms :=
             match reply_times with
             | [] => None
             | _ :: _ => PingCollector._calculate_jitter reply_times
             end;
           PingCollector.pp_ttl := PingCollector.ttl st;
           PingCollector.pp_raw_output := output |}
    else
      PingCollector.Failure
        {| PingCollector.pf_host := host;
           PingCollector.pf_error :=
             "Failed to parse ping output: integer division result too large for a float";
           PingCollector.pf_output := None; PingCollector.pf_stderr := None;
           PingCollector.pf_timeout := None; PingCollector.pf_raw_output := Some output |}.
Proof.
  unfold PingCollector._parse_ping_output. cbv zeta.
  destruct (PingCollector.reply_times _) as [|t times] eqn:E; [reflexivity|].
  assert (Hn : (PingCollector.len (t :: times) =? 0) = false).
  { apply Z.eqb_neq. rewrite len_cons. pose proof (len_nonneg times). lia. }
  unfold mean_fits, mean, PingCollector.average, Float.true_div.
  rewrite Hn. cbn [negb].
  destruct (Float.is_infinite _); reflexivity.
Qed.

(** X7.  The parse of a printed report.  For an output made of well formed
    lines (replies with a time, replies below a millisecond, summaries of the
    packets, and lines that are inert), padded with white space, the result
    of [_parse_ping_output] lists the times of the replies that state one,
    in order; the count of packets received is their number, replies below a
    millisecond not counted; the loss is the percentage of the last summary;
    the time to live is the last one stated that is not zero.  That is when
    the mean of the times is a [float]; when it is too large, the result is
    the dictionary of a failed parse. *)
Theorem parse_ping_output_report (now : Z) (host lead trail : string) (report : list ReportLine) :
  forallb well_formed report = true ->
  blank lead = true -> blank trail = true ->
  head_is (fun c => negb (Str.isspace c)) (unlines (map render report)) = true ->
  last_is (fun c => negb (Str.isspace c)) (unlines (map render report)) = true ->
  if mean_fits (times_of report) then
    exists p : PingCollector.ParsedPing,
      PingCollector._parse_ping_output now (lead ++ unlines (map render report) ++ trail) host
      = PingCollector.Parsed p /\
      PingCollector.pp_response_times p = times_of report /\
      PingCollector.pp_packets_received p = PingCollector.len (times_of report) /\
      PingCollector.pp_packet_loss_percent p = loss_of 0 report /\
      PingCollector.pp_packets_sent p = PingCollector.len (times_of report) + loss_of 0 report /\
      PingCollector.pp_ttl p = ttl_of None report /\
      PingCollector.pp_success p = (0 <? PingCollector.len (times_of report))
  else
    exists f : PingCollector.PingFailure,
      PingCollector._parse_ping_output now (lead ++ unlines (map render report) ++ trail) host
      = PingCollector.Failure f /\
      PingCollector.pf_error f
      = "Failed to parse ping output: integer division result too large for a float".
Proof.
  intros Hw Hl Ht Hh Hb. rewrite parse_ping_output_spec. cbv zeta.
  rewrite (strip_padded lead _ trail Hl Ht Hh Hb).
  rewrite split_lines_unlines.
  - rewrite (parse_report report _ Hw). cbn [PingCollector.reply_times PingCollector.packet_loss
      PingCollector.ttl PingCollector.parse_init app].
    destruct (mean_fits (times_of report)); eexists; (split; [reflexivity|]); cbn;
      repeat split; reflexivity.
  - destruct report; [discriminate | cbn [map]; congruence].
  - rewrite forallb_forall in *. intros line Hin. apply in_map_iff in Hin as (l & <- & Hin).
    apply render_line, Hw, Hin.
Qed.

(** ** What every parse keeps *)

Lemma span_fst (f : ascii -> bool) (s : string) : all_chars f (fst (Str.span f s)) = true.
Proof.
  unfold all_chars. induction s as [|c s IH]; [reflexivity|].
  cbn [Str.span]. destruct (f c) eqn:E; [|reflexivity].
  destruct (Str.span f s) as [a b]. cbn [fst list_ascii_of_string forallb] in *.
  rewrite E, IH. reflexivity.
Qed.

Lemma int_acc_nonneg (s : string) (acc : Z) :
  all_chars Str.isdigit s = true -> 0 <= acc -> 0 <= Str.int_acc acc s.
Proof.
  unfold all_chars. revert acc. induction s as [|c s IH]; intros acc H Hacc; [exact Hacc|].
  cbn [list_ascii_of_string forallb] in H. apply andb_true_iff in H as [Hc Hs].
  apply isdigit_code in Hc. cbn [Str.int_acc]. apply (IH _ Hs). lia.
Qed.

Lemma int_of_span_nonneg (s : string) :
  0 <= Str.int_of_digits (fst (Str.span Str.isdigit s)).
Proof. apply int_acc_nonneg; [apply span_fst | lia]. Qed.

Lemma match_reply_nonneg (s : string) (r : PingCollector.ReplyInfo) :
  PingCollector.match_reply s = Some r -> 0 <= PingCollector.time_ms r.
Proof.
  unfold PingCollector.match_reply. intros H.
  destruct (Str.strip_prefix "Reply from " s) as [s1|]; [|discriminate].
  cbn [mbind option_bind] in H.
  destruct (Str.span _ s1) as [addr s2]. destruct (Str.is_empty addr); [discriminate|].
  destruct (Str.strip_prefix ": bytes=" s2) as [s3|]; [|discriminate].
  cbn [mbind option_bind] in H.
  destruct (Str.span Str.isdigit s3) as [size s4]. destruct (Str.is_empty size); [discriminate|].
  destruct (Str.strip_prefix " time=" s4) as [s5|]; [|discriminate].
  cbn [mbind option_bind] in H.
  pose proof (int_of_span_nonneg s5) as N.
  destruct (Str.span Str.isdigit s5) as [t s6]. destruct (Str.is_empty t); [discriminate|].
  destruct (Str.strip_prefix "ms" s6) as [s7|]; [|discriminate].
  cbn [mbind option_bind] in H. injection H as <-. exact N.
Qed.

Lemma match_loss_nonneg (s : string) (n : Z) : PingCollector.match_loss s = Some n -> 0 <= n.
Proof.
  unfold PingCollector.match_loss. intros H.
  destruct (Str.strip_prefix "(" s) as [s1|]; [|discriminate].
  cbn [mbind option_bind] in H.
  pose proof (int_of_span_nonneg s1) as N.
  destruct (Str.span Str.isdigit s1) as [d s2]. destruct (Str.is_empty d); [discriminate|].
  destruct (Str.strip_prefix "%" s2) as [s3|]; [|discriminate].
  cbn [mbind option_bind] in H.
  destruct (Str.contains _ _); [|discriminate]. injection H as <-. exact N.
Qed.

Lemma re_search_found {A : Type} (m : string -> option A) (s : string) (r : A) :
  Str.re_search m s = Some r -> exists s', m s' = Some r.
Proof.
  induction s as [|c s IH]; cbn [Str.re_search].
  - destruct (m "") eqn:E; [|discriminate]. intros [= <-]. eauto.
  - destruct (m (String c s)) eqn:E; [intros [= <-]; eauto | exact IH].
Qed.

Lemma parse_packet_loss_nonneg (line : string) : 0 <= PingCollector._parse_packet_loss line.
Proof.
  unfold PingCollector._parse_packet_loss.
  destruct (Str.re_search _ line) as [n|] eqn:E; [|lia].
  apply re_search_found in E as [s' E]. exact (match_loss_nonneg _ _ E).
Qed.

Lemma parse_line_natural (st : PingCollector.ParseState) (line : string) :
  natural_state st -> natural_state (PingCollector.parse_line st line).
Proof.
  intros [Hr Hl]. unfold PingCollector.parse_line.
  assert (H1 : natural_state
                 (if Str.startswith "Reply from" (Str.strip line)
                  then match PingCollector._parse_reply_line line with
                       | Some reply_info =>
                           {| PingCollector.reply_times :=
                                (PingCollector.reply_times st ++ [PingCollector.time_ms reply_info])%list;
                              PingCollector.packet_loss := PingCollector.packet_loss st;
                              PingCollector.ttl :=
                                match PingCollector.reply_ttl reply_info with
                                | Some t => if t =? 0 then PingCollector.ttl st else Some t
                                | None => PingCollector.ttl st
                                end |}
                       | None => st
                       end
                  else st)).
  { destruct (Str.startswith _ _); [|split; assumption].
    unfold PingCollector._parse_reply_line.
    destruct (Str.re_search _ line) as [r|] eqn:E; [|split; assumption].
    apply re_search_found in E as [s' E]. apply match_reply_nonneg in E.
    split; [|exact Hl]. cbn [PingCollector.reply_times].
    apply List.Forall_app. split; [exact Hr | constructor; [exact E | constructor]]. }
  destruct (_ || _); [|exact H1].
  destruct H1 as [H1 _]. split; [exact H1 | apply parse_packet_loss_nonneg].
Qed.

Lemma parse_lines_natural (lines : list string) (st : PingCollector.ParseState) :
  natural_state st -> natural_state (fold_left PingCollector.parse_line lines st).
Proof.
  revert st. induction lines as [|line lines IH]; intros st H; [exact H|].
  cbn [fold_left]. apply IH, parse_line_natural, H.
Qed.

(** ** Minimum, maximum and mean *)

Lemma fold_min_spec (l : list Z) (x : Z) :
  (fold_left Z.min l x <= x /\ List.Forall (fun t => fold_left Z.min l x <= t) l)
  /\ (fold_left Z.min l x = x \/ In (fold_left Z.min l x) l).
Proof.
  revert x. induction l as [|y l IH]; intros x; cbn [fold_left].
  - repeat split; [lia | constructor | left; reflexivity].
  - destruct (IH (Z.min x y)) as [[H1 H2] H3]. repeat split.
    + lia.
    + constructor; [lia | exact H2].
    + destruct H3 as [H3|H3]; [|right; right; exact H3].
      destruct (Z.min_spec x y) as [[_ E]|[_ E]].
      * left; congruence.
      * right; left; congruence.
Qed.

Lemma fold_max_spec (l : list Z) (x : Z) :
  (x <= fold_left Z.max l x /\ List.Forall (fun t => t <= fold_left Z.max l x) l)
  /\ (fold_left Z.max l x = x \/ In (fold_left Z.max l x) l).
Proof.
  revert x. induction l as [|y l IH]; intros x; cbn [fold_left].
  - repeat split; [lia | constructor | left; reflexivity].
  - destruct (IH (Z.max x y)) as [[H1 H2] H3]. repeat split.
    + lia.
    + constructor; [lia | exact H2].
    + destruct H3 as [H3|H3]; [|right; right; exact H3].
      destruct (Z.max_spec x y) as [[_ E]|[_ E]].
      * right; left; congruence.
      * left; congruence.
Qed.

Lemma sum_natural (l : list Z) :
  List.Forall (fun t => 0 <= t) l -> 0 <= PingCollector.sum_Z l.
Proof.
  induction 1 as [|t l Ht Hl IH]; [cbn; lia|].
  cbn [PingCollector.sum_Z fold_right].
  change (fold_right Z.add 0 l) with (PingCollector.sum_Z l). lia.
Qed.

Lemma list_min_max_spec (l : list Z) :
  l <> [] ->
  exists lo hi : Z,
    PingCollector.list_min l = Some lo /\ PingCollector.list_max l = Some hi /\
    List.Forall (fun t => lo <= t <= hi) l /\ In lo l /\ In hi l.
Proof.
  destruct l as [|x l]; [congruence|]. intros _.
  destruct (fold_min_spec l x) as [[A1 A2] A3]. destruct (fold_max_spec l x) as [[B1 B2] B3].
  exists (fold_left Z.min l x), (fold_left Z.max l x).
  split; [reflexivity|]. split; [reflexivity|]. split; [|split].
  - constructor; [lia|]. rewrite List.Forall_forall in *. intros t Ht.
    specialize (A2 t Ht). specialize (B2 t Ht). cbv beta in *. lia.
  - destruct A3 as [->|A3]; [left; reflexivity | right; exact A3].
  - destruct B3 as [->|B3]; [left; reflexivity | right; exact B3].
Qed.

(** X8.  What every parse keeps, whatever the output.  The result is the
    dictionary of a failed parse when the mean of the reply times is too
    large for a [float], and otherwise the dictionary of the main path, in
    which the count of packets received is the number of reply times and the
    loss is a natural number; without a reply it is not a success and has no
    minimum, maximum, average or jitter; with a reply it is a success, the
    minimum and the maximum are reply times, natural numbers that bound
    every reply time, and the average is the number nearest to the mean. *)
Theorem parse_ping_output_bounds (now : Z) (output host : string) :
  match PingCollector._parse_ping_output now output host with
  | PingCollector.Parsed p =>
      mean_fits (parsed_replies output) = true /\
      PingCollector.pp_response_times p = parsed_replies output /\
      PingCollector.pp_packets_received p = PingCollector.len (PingCollector.pp_response_times p) /\
      0 <= PingCollector.pp_packet_loss_percent p /\
      match PingCollector.pp_response_times p with
      | [] =>
          PingCollector.pp_success p = false /\
          PingCollector.pp_min_response_time_ms p = None /\
          PingCollector.pp_max_response_time_ms p = None /\
          PingCollector.pp_avg_response_time_ms p = None /\
          PingCollector.pp_jitter_ms p = None
      | _ :: _ =>
          PingCollector.pp_success p = true /\
          exists (lo hi : Z) (avg : Float.float),
            PingCollector.pp_min_response_time_ms p = Some lo /\
            PingCollector.pp_max_response_time_ms p = Some hi /\
            PingCollector.pp_avg_response_time_ms p = Some avg /\
            avg = Float.ratio (PingCollector.sum_Z (PingCollector.pp_response_times p))
                    (PingCollector.len (PingCollector.pp_response_times p)) /\
            nonnegative avg = true /\
            0 <= lo /\
            List.Forall (fun t => lo <= t <= hi) (PingCollector.pp_response_times p) /\
            In lo (PingCollector.pp_response_times p) /\
            In hi (PingCollector.pp_response_times p)
      end
  | PingCollector.Failure f =>
      mean_fits (parsed_replies output) = false /\
      PingCollector.pf_host f = host /\
      PingCollector.pf_error f
      = "Failed to parse ping output: integer division result too large for a float" /\
      PingCollector.pf_raw_output f = Some output
  end.
Proof.
  rewrite parse_ping_output_spec. cbv zeta. unfold parsed_replies.
  pose proof (parse_lines_natural (Str.split_lines (Str.strip output)) PingCollector.parse_init
                (conj (List.Forall_nil _) (Z.le_refl 0))) as [Hn Hl].
  destruct (fold_left PingCollector.parse_line _ PingCollector.parse_init) as [times loss ttl].
  cbn [PingCollector.reply_times PingCollector.packet_loss PingCollector.ttl] in *.
  destruct (mean_fits times) eqn:Hfit; [|repeat split; reflexivity].
  cbn [PingCollector.pp_packets_received PingCollector.pp_response_times
       PingCollector.pp_packet_loss_percent PingCollector.pp_success
       PingCollector.pp_min_response_time_ms PingCollector.pp_max_response_time_ms
       PingCollector.pp_avg_response_time_ms PingCollector.pp_jitter_ms].
  split; [reflexivity|]. split; [reflexivity|]. split; [reflexivity|]. split; [exact Hl|].
  destruct times as [|t times]; [repeat split; reflexivity|].
  assert (Hlen : 0 < PingCollector.len (t :: times)).
  { rewrite len_cons. pose proof (len_nonneg times). lia. }
  replace (0 <? PingCollector.len (t :: times)) with true by (symmetry; apply Z.ltb_lt; lia).
  split; [reflexivity|].
  destruct (list_min_max_spec (t :: times)) as (lo & hi & E1 & E2 & F & I1 & I2); [congruence|].
  exists lo, hi, (Float.ratio (PingCollector.sum_Z (t :: times)) (PingCollector.len (t :: times))).
  rewrite E1, E2. repeat split; try assumption.
  - apply ratio_nonneg; [apply sum_natural; exact Hn | exact Hlen].
  - rewrite List.Forall_forall in Hn. exact (Hn lo I1).
Qed.

(** ** Callers of the probe *)

Section ProbeCallers.

Import PingCollector.

Variable subprocess_exec : list string -> process.

Lemma parse_ping_output_host (now : Z) (output host : string) :
  get_host (_parse_ping_output now output host) = host.
Proof. rewrite parse_ping_output_spec. cbv zeta. destruct (mean_fits _); reflexivity. Qed.

(** The probe returns a dictionary for its host, whatever the utility does. *)
Lemma ping_async_returns (now : Z) (host : string) (count timeout : option Z) :
  exists d : PingDict,
    ping_async now subprocess_exec host count timeout = Return d /\ get_host d = host.
Proof. eexists. split; [apply ping_async_fails | reflexivity]. Qed.

(** X9.  [test_connectivity] never raises and never answers "good": for
    every host, and whatever the operating system would do, the probe it
    calls ends before a process is started, and the answer is "failed" with
    the host, the error of the event loop and the reading of the clock that
    [test_connectivity] takes itself. *)
Theorem test_connectivity_cases (now now' : Z) (host : string) :
  exists r : Connectivity,
    test_connectivity subprocess_exec now now' host = Return r /\
    connectivity r = "failed" /\
    r = Failed host "text must be False" now' /\
    ping_async now subprocess_exec host (Some 1) (Some 3)
    = Return (Failure {| pf_host := host; pf_error := "text must be False";
                         pf_output := None; pf_stderr := None;
                         pf_timeout := None; pf_raw_output := None |}).
Proof.
  eexists. unfold test_connectivity. rewrite ping_async_fails.
  repeat split; reflexivity.
Qed.

Lemma process_gather (clock : nat -> Z) (hosts : list string) (count timeout : option Z)
    (rest : list string) (i : nat) :
  exists results : list PingDict,
    process_results hosts i (gather subprocess_exec clock i rest count timeout) = Return results /\
    length results = length rest /\
    forall (j : nat) (host : string),
      nth_error rest j = Some host ->
      exists d : PingDict,
        nth_error results j = Some d /\
        ping_async (clock (i + j)%nat) subprocess_exec host count timeout = Return d /\
        get_host d = host.
Proof.
  revert i. induction rest as [|host rest IH]; intros i.
  - exists []. split; [reflexivity|]. split; [reflexivity|].
    intros [|j] h H; discriminate.
  - destruct (IH (S i)) as (results & E & L & H).
    destruct (ping_async_returns (clock i) host count timeout) as (d & Ed & Hd).
    exists (d :: results). cbn [gather process_results]. rewrite Ed, E.
    split; [reflexivity|]. split; [cbn [length]; congruence|].
    intros [|j] h Hj; cbn [nth_error] in *.
    + injection Hj as <-. exists d. rewrite Nat.add_0_r. auto.
    + destruct (H j h Hj) as (d' & A & B & C). exists d'.
      replace (i + S j)%nat with (S i + j)%nat by lia. auto.
Qed.

(** X10.  [ping_batch] never raises and returns one dictionary for each
    host, in the order of the hosts: the dictionary at an index is the one
    the probe returns for the host at that index, and it names that host. *)
Theorem ping_batch_aligned (clock : nat -> Z) (hosts : list string) (count timeout : option Z) :
  exists results : list PingDict,
    ping_batch subprocess_exec clock hosts count timeout = Return results /\
    length results = length hosts /\
    forall (i : nat) (host : string),
      nth_error hosts i = Some host ->
      exists d : PingDict,
        nth_error results i = Some d /\
        ping_async (clock i) subprocess_exec host count timeout = Return d /\
        get_host d = host.
Proof.
  destruct hosts as [|host hosts].
  - exists []. split; [reflexivity|]. split; [reflexivity|]. intros [|i] h H; discriminate.
  - exact (process_gather clock (host :: hosts) count timeout (host :: hosts) 0).
Qed.

End ProbeCallers.

(** ** The probe on printed reports *)

(** X1.  [validate_host] accepts exactly the hosts that hold a character
    that is not white space: the empty string and the blank strings are
    rejected, and the two patterns reject nothing, since a host that matches
    neither is accepted as soon as it is not empty. *)
Theorem validate_host_accepts_nonblank (host : string) :
  PingCollector.validate_host host = negb (blank host).
Proof. exact (validate_host_nonblank host). Qed.

(** X2.  The validator of the destination manager and the validator of the
    probe accept the same hosts. *)
Theorem host_validators_agree (host : string) :
  DestinationManager._validate_host host = PingCollector.validate_host host.
Proof. rewrite validate_host_nonblank. apply destination_validate_host_nonblank. Qed.

(** X3.  A natural number printed as a percentage of loss is read back:
    on a line that holds no parenthesis before it,
    ["(" n "%" ... "loss)"] parses to [n], whatever stands between the
    percent sign and the word on the same line. *)
Theorem parse_packet_loss_round_trip (pre mid post : string) (n : Z) :
  0 <= n ->
  all_chars (fun c => negb (Ascii.eqb c "(")) pre = true ->
  all_chars (fun c => negb (Str.is_newline c)) mid = true ->
  PingCollector._parse_packet_loss (pre ++ "(" ++ str_of_Z n ++ "%" ++ mid ++ "loss)" ++ post) = n.
Proof. exact (parse_packet_loss_printed pre mid post n). Qed.

Lemma parse_packet_loss_round_trip_witness :
  0 <= 25 /\
  all_chars (fun c => negb (Ascii.eqb c "(")) "Lost = 1 " = true /\
  all_chars (fun c => negb (Str.is_newline c)) " " = true /\
  PingCollector._parse_packet_loss ("Lost = 1 " ++ "(" ++ str_of_Z 25 ++ "%" ++ " " ++ "loss)" ++ ",")
  = 25.
Proof.
  split; [lia|]. split; [reflexivity|]. split; [reflexivity|].
  apply parse_packet_loss_round_trip; [lia | reflexivity | reflexivity].
Defined.

(** X4.  A reply line printed from a dotted address, a size, a time and an
    optional time to live, all natural numbers, is read back:
    [_parse_reply_line] returns that time and that time to live. *)
Theorem parse_reply_line_round_trip (addr : string) (size time : Z) (ttl : option Z) :
  is_address addr = true -> 0 <= size -> 0 <= time -> nonneg ttl = true ->
  PingCollector._parse_reply_line (reply_line addr size time ttl)
  = Some {| PingCollector.time_ms := time; PingCollector.reply_ttl := ttl |}.
Proof. exact (parse_reply_line_printed addr size time ttl). Qed.

Lemma parse_reply_line_round_trip_witness :
  is_address "192.168.1.1" = true /\ 0 <= 32 /\ 0 <= 7 /\ nonneg (Some 64) = true /\
  PingCollector._parse_reply_line (reply_line "192.168.1.1" 32 7 (Some 64))
  = Some {| PingCollector.time_ms := 7; PingCollector.reply_ttl := Some 64 |}.
Proof.
  split; [reflexivity|]. split; [lia|]. split; [lia|]. split; [reflexivity|].
  apply parse_reply_line_round_trip; [reflexivity | lia | lia | reflexivity].
Defined.

(** X5.  A reply that took less than a millisecond is printed with
    [time<1ms]; [_parse_reply_line] finds no match in such a line, so
    [_parse_ping_output] does not count the reply. *)
Theorem fast_reply_line_not_parsed (addr : string) (size ttl : Z) :
  is_address addr = true -> 0 <= size -> 0 <= ttl ->
  PingCollector._parse_reply_line (fast_reply_line addr size ttl) = None /\
  forall st, PingCollector.parse_line st (fast_reply_line addr size ttl) = st.
Proof.
  intros Ha Hs Ht. split; [exact (parse_reply_line_fast addr size ttl Ha Hs Ht)|].
  intros st. exact (parse_line_fast_reply st addr size ttl Ha Hs Ht).
Qed.

Lemma fast_reply_line_not_parsed_witness :
  is_address "192.168.1.1" = true /\ 0 <= 32 /\ 0 <= 64 /\
  PingCollector._parse_reply_line (fast_reply_line "192.168.1.1" 32 64) = None.
Proof.
  split; [reflexivity|]. split; [lia|]. split; [lia|].
  apply (fast_reply_line_not_parsed "192.168.1.1" 32 64); [reflexivity | lia | lia].
Defined.

(** X6.  A statistics line printed from three natural numbers is read back:
    [_parse_statistics_line] returns, for each of them, the [float] nearest
    to the number, which is the number itself when it is below 2^53. *)
Theorem parse_statistics_line_round_trip (lo hi avg : Z) :
  0 <= lo -> 0 <= hi -> 0 <= avg ->
  exists st : PingCollector.Statistics,
    PingCollector._parse_statistics_line (statistics_line lo hi avg) = Some st /\
    PingCollector.stat_min st = nearest_float lo /\
    PingCollector.stat_max st = nearest_float hi /\
    PingCollector.stat_avg st = nearest_float avg /\
    (lo < 2 ^ 53 -> integer_value (PingCollector.stat_min st) = Some lo) /\
    (hi < 2 ^ 53 -> integer_value (PingCollector.stat_max st) = Some hi) /\
    (avg < 2 ^ 53 -> integer_value (PingCollector.stat_avg st) = Some avg).
Proof.
  intros Hlo Hhi Havg. eexists.
  split; [exact (parse_statistics_line_printed lo hi avg Hlo Hhi Havg)|].
  cbn [PingCollector.stat_min PingCollector.stat_max PingCollector.stat_avg].
  repeat split; intros H; apply nearest_float_exact; lia.
Qed.

Lemma parse_statistics_line_round_trip_witness :
  0 <= 14 /\ 0 <= 16 /\ 0 <= 15 /\
  exists st : PingCollector.Statistics,
    PingCollector._parse_statistics_line (statistics_line 14 16 15) = Some st /\
    integer_value (PingCollector.stat_min st) = Some 14 /\
    integer_value (PingCollector.stat_max st) = Some 16 /\
    integer_value (PingCollector.stat_avg st) = Some 15.
Proof.
  split; [lia|]. split; [lia|]. split; [lia|].
  destruct (parse_statistics_line_round_trip 14 16 15) as (st & E & _ & _ & _ & H1 & H2 & H3);
    [lia | lia | lia |].
  exists st. split; [exact E|].
  split; [apply H1; reflexivity|]. split; [apply H2; reflexivity | apply H3; reflexivity].
Defined.

Lemma parse_ping_output_report_witness :
  forallb well_formed lan_report = true /\
  blank (String "010" "") = true /\
  head_is (fun c => negb (Str.isspace c)) (unlines (map render lan_report)) = true /\
  last_is (fun c => negb (Str.isspace c)) (unlines (map render lan_report)) = true /\
  mean_fits (times_of lan_report) = true /\
  exists p : PingCollector.ParsedPing,
    PingCollector._parse_ping_output 0
      (String "010" "" ++ unlines (map render lan_report) ++ String "010" "") "192.168.1.1"
    = PingCollector.Parsed p /\
    PingCollector.pp_response_times p = [2; 3] /\
    PingCollector.pp_packets_received p = 2 /\
    PingCollector.pp_packet_loss_percent p = 25 /\
    PingCollector.pp_packets_sent p = 27.
Proof.
  split; [reflexivity|]. split; [reflexivity|]. split; [reflexivity|]. split; [reflexivity|].
  split; [reflexivity|].
  pose proof (parse_ping_output_report 0 "192.168.1.1" (String "010" "") (String "010" "")
                lan_report eq_refl eq_refl eq_refl eq_refl eq_refl) as H.
  change (mean_fits (times_of lan_report)) with true in H.
  destruct H as (p & E & H1 & H2 & H3 & H4 & _).
  exists p. repeat split; assumption.
Defined.

(** * The engine: status, shutdown and the life of a run *)

(** ** Sessions *)

(** A write whose failure is swallowed: the session runs its body, or it
    raises and only its turn in the script of faults is used up. *)
Lemma try_session_cases (body : World -> unit * World) (w : World) :
  exists w',
    try_ (session body) (fun _ => ret tt) w = (Return tt, w') /\
    ((hd None (faults w) = None /\ w' = snd (body (set_faults (tl (faults w)) w))) \/
     ((exists e, hd None (faults w) = Some e) /\ w' = set_faults (tl (faults w)) w)).
Proof.
  unfold try_, session, ret.
  destruct (faults w) as [|[e|] fs] eqn:E; cbn [hd tl].
  - replace (set_faults [] w) with w by (destruct w; cbn in *; subst; reflexivity).
    destruct (body w) as [[] w']. eexists. split; [reflexivity|]. left. auto.
  - eexists. split; [reflexivity|]. right. eauto.
  - destruct (body (set_faults fs w)) as [[] w'].
    eexists. split; [reflexivity|]. left. auto.
Qed.

Lemma find_has_row (job : Z) (w : World) :
  has_row job w = match List.find (fun j => job_id j =? job) (jobs w) with
                  | Some _ => true
                  | None => false
                  end.
Proof.
  unfold has_row. induction (jobs w) as [|j rows IH]; [reflexivity|].
  cbn [existsb List.find]. destruct (job_id j =? job); [reflexivity | exact IH].
Qed.

(** ** Starting a job *)

Lemma start_job_healthy (now job : Z) (cfg : JobConfig) (w : World) :
  faults w = [] -> running_jobs w !! job = None ->
  JobManager.start_job now job cfg w = (Return true, started now job cfg w).
Proof.
  intros Hw Hr. unfold JobManager.start_job, JobManager._create_job_run. unfold_eff.
  rewrite Hr, session_healthy by exact Hw. cbn [fst snd].
  pose proof (next_id_pos run_id (job_runs w)) as Hpos. cbn [run_id].
  destruct (next_id run_id (job_runs w) =? 0) eqn:E; [apply Z.eqb_eq in E; lia|].
  reflexivity.
Qed.

Lemma get_job_status_healthy (now job : Z) (w : World) :
  faults w = [] ->
  JobManager.get_job_status now job w
  = (Return
       match List.find (fun j => job_id j =? job) (jobs w) with
       | None => None
       | Some row =>
           if bool_decide (is_Some (running_jobs w !! job)) then Some "running"
           else if job_enabled row
                then match job_next_run row with
                     | Some _ => None
                     | None => Some "ready"
                     end
                else Some "disabled"
       end, w).
Proof.
  intros Hw. unfold JobManager.get_job_status, JobManager.later_than. unfold_eff.
  rewrite session_healthy by exact Hw. cbn [fst snd].
  destruct (List.find _ (jobs w)) as [row|]; [|reflexivity].
  destruct (bool_decide _); [reflexivity|]. unfold lift.
  destruct (job_enabled row); [|reflexivity].
  destruct (job_next_run row); reflexivity.
Qed.

(** X11.  After a start that succeeds, [get_job_status] answers "running"
    when the store holds a row for the job, and answers that the job is not
    found when it holds none, although the job runs: the row is looked up
    before the running map. *)
Theorem job_status_after_start (now now' job : Z) (cfg : JobConfig) (w : World) :
  running_jobs w !! job = None -> faults w = [] ->
  fst (JobManager.start_job now job cfg w) = Return true /\
  fst (JobManager.get_job_status now' job (snd (JobManager.start_job now job cfg w)))
  = Return (if has_row job w then Some "running" else None).
Proof.
  intros Hr Hw. rewrite (start_job_healthy now job cfg w Hw Hr). cbn [fst snd].
  split; [reflexivity|].
  rewrite get_job_status_healthy by exact Hw. cbn [fst].
  rewrite find_has_row.
  change (jobs (started now job cfg w)) with (jobs w).
  destruct (List.find _ (jobs w)) as [row|]; [|reflexivity].
  rewrite bool_decide_eq_true_2; [reflexivity|].
  unfold started, set_running_jobs. cbn [running_jobs]. rewrite lookup_insert_eq. eauto.
Qed.

(** X31.  [get_job_status] never answers "scheduled".  For a job that is
    not running and whose row the store returns, the answer is "disabled"
    when the row is disabled and "ready" when it is enabled without a next
    run; when it is enabled with a next run, the comparison of that naive
    [datetime] with the aware reading of the clock raises, and the answer is
    that of a job that was not found. *)
Theorem job_status_of_waiting_job (now job : Z) (w : World) (row : Job) :
  faults w = [] ->
  List.find (fun j => job_id j =? job) (jobs w) = Some row ->
  running_jobs w !! job = None ->
  JobManager.get_job_status now job w
  = (Return (if job_enabled row
             then match job_next_run row with
                  | Some _ => None
                  | None => Some "ready"
                  end
             else Some "disabled"), w) /\
  fst (JobManager.get_job_status now job w) <> Return (Some "scheduled").
Proof.
  intros Hw Hrow Hrun. rewrite (get_job_status_healthy now job w Hw), Hrow.
  rewrite bool_decide_eq_false_2 by (rewrite Hrun; intros [? ?]; discriminate).
  split; [reflexivity|]. cbn [fst].
  destruct (job_enabled row); [destruct (job_next_run row)|]; discriminate.
Qed.

Lemma job_status_of_waiting_job_witness :
  faults (idle []) = [] /\
  List.find (fun j => job_id j =? 7) (jobs (idle [])) = Some office_job /\
  running_jobs (idle []) !! 7 = None /\
  job_enabled office_job = true /\ job_next_run office_job = Some 100 /\
  JobManager.get_job_status 50 7 (idle []) = (Return None, idle []).
Proof.
  split; [reflexivity|]. split; [reflexivity|]. split; [reflexivity|].
  split; [reflexivity|]. split; [reflexivity|].
  exact (proj1 (job_status_of_waiting_job 50 7 (idle []) office_job eq_refl eq_refl eq_refl)).
Defined.

(** ** Rows that keep their ids *)

Lemma map_update_where {R : Type} (id_of : R -> Z) (row_id : Z) (f : R -> R) (rows : list R) :
  (forall r, id_of (f r) = id_of r) ->
  map id_of (update_where id_of row_id f rows) = map id_of rows.
Proof.
  intros Hf. unfold update_where. rewrite map_map. apply map_ext.
  intros r. destruct (id_of r =? row_id); [apply Hf | reflexivity].
Qed.

Lemma update_where_other {R : Type} (id_of : R -> Z) (row_id : Z) (f : R -> R) (rows : list R) :
  List.Forall (fun r => id_of r <> row_id) rows -> update_where id_of row_id f rows = rows.
Proof.
  unfold update_where. induction 1 as [|r rows Hr _ IH]; [reflexivity|].
  cbn [map]. rewrite IH. destruct (Z.eqb_spec (id_of r) row_id); [contradiction | reflexivity].
Qed.

Lemma update_where_app {R : Type} (id_of : R -> Z) (row_id : Z) (f : R -> R) (a b : list R) :
  update_where id_of row_id f (a ++ b)%list
  = (update_where id_of row_id f a ++ update_where id_of row_id f b)%list.
Proof. unfold update_where. apply map_app. Qed.

Lemma next_id_above {R : Type} (id_of : R -> Z) (rows : list R) :
  List.Forall (fun r => id_of r < next_id id_of rows) rows.
Proof.
  unfold next_id. induction rows as [|r rows IH]; [constructor|].
  cbn [map fold_right]. constructor; [lia|].
  eapply List.Forall_impl; [|exact IH]. cbv beta. intros r' H. lia.
Qed.

Lemma next_id_map {R : Type} (id_of : R -> Z) (rows rows' : list R) :
  map id_of rows' = map id_of rows -> next_id id_of rows' = next_id id_of rows.
Proof. unfold next_id. intros ->. reflexivity. Qed.

(** ** The end of a run *)

Section Finishing.

Import JobManager.

(** Closing a run writes to the rows of the run and of the job, and to
    nothing else; the rows keep their ids. *)
Lemma complete_job_run_frame (run : Z) (result : JobExecutionResult) (w : World) :
  exists w',
    _complete_job_run run result w = (Return tt, w') /\
    running_jobs w' = running_jobs w /\ scheduled_jobs w' = scheduled_jobs w /\
    jobs w' = jobs w /\ metrics w' = metrics w /\ probes w' = probes w /\
    map run_id (job_runs w') = map run_id (job_runs w) /\
    (faults w = [] -> faults w' = []).
Proof.
  unfold _complete_job_run.
  match goal with |- context [try_ (session ?b) _ w] =>
    destruct (try_session_cases b w) as (w' & -> & [[_ ->] | [_ ->]]) end.
  - eexists. split; [reflexivity|]. cbn. repeat split.
    + apply map_update_where. reflexivity.
    + intros ->. reflexivity.
  - eexists. split; [reflexivity|]. cbn. repeat split. intros ->. reflexivity.
Qed.

Lemma update_job_after_run_frame (now job interval : Z) (result : JobExecutionResult)
    (w : World) :
  exists w',
    _update_job_after_run now job interval result w = (Return tt, w') /\
    running_jobs w' = running_jobs w /\ scheduled_jobs w' = scheduled_jobs w /\
    job_runs w' = job_runs w /\ metrics w' = metrics w /\ probes w' = probes w /\
    map job_id (jobs w') = map job_id (jobs w) /\
    (faults w = [] -> faults w' = []).
Proof.
  unfold _update_job_after_run, session, lift, try_, bind, ret.
  destruct (if r_success result then _ else _) as [next_run|e].
  - destruct (faults w) as [|[e|] fs] eqn:E; cbn [hd tl]; eexists; (split; [reflexivity|]);
      cbn; repeat split; try (intros; congruence); try (apply map_update_where; reflexivity).
  - eexists. split; [reflexivity|]. repeat split. auto.
Qed.

Lemma update_job_status_frame (job : Z) (enabled : bool) (w : World) :
  exists w',
    _update_job_status job enabled w = (Return tt, w') /\
    running_jobs w' = running_jobs w /\ scheduled_jobs w' = scheduled_jobs w /\
    job_runs w' = job_runs w /\ metrics w' = metrics w /\ probes w' = probes w /\
    map job_id (jobs w') = map job_id (jobs w).
Proof.
  unfold _update_job_status.
  match goal with |- context [try_ (session ?b) _ w] =>
    destruct (try_session_cases b w) as (w' & -> & [[_ ->] | [_ ->]]) end.
  - eexists. split; [reflexivity|]. cbn. repeat split.
    apply map_update_where. reflexivity.
  - eexists. split; [reflexivity|]. cbn. repeat split.
Qed.

End Finishing.

(** ** The metrics of a run *)

Section Metrics.

Import JobManager.

Variable get_destination_by_host : string -> outcome (option Destination).
Variable ping_host : string -> Z -> Z -> outcome PingResult.

Lemma collect_metrics_no_ping (now job destination : Z) (dc : DestinationConfig) (run : Z)
    (metric_types : list string) (n : Z) (w : World) :
  ping_count metric_types = 0%nat ->
  collect_metrics ping_host now job destination dc run metric_types n w = (Return tt, n, w).
Proof.
  induction metric_types as [|mt rest IH]; [reflexivity|].
  rewrite ping_count_cons. cbn [collect_metrics].
  destruct (String.eqb mt "ping"); [discriminate | exact IH].
Qed.

Lemma collect_destinations_no_ping (now job run : Z) (cfg : JobConfig)
    (destinations : list DestinationConfig) (c : Counters) (w : World) :
  ping_count (jc_metrics cfg) = 0%nat ->
  snd (collect_destinations get_destination_by_host ping_host now job run cfg destinations c w)
  = w.
Proof.
  intros H. revert c. induction destinations as [|dc rest IH]; intros c; [reflexivity|].
  cbn [collect_destinations]. unfold collect_destination.
  destruct (get_destination_by_host (dc_host dc)) as [[d|]|e]; try apply IH.
  rewrite (collect_metrics_no_ping _ _ _ _ _ _ _ _ H). apply IH.
Qed.

(** The [try] that closes the run, after the loop over the destinations. *)
Lemma execute_job_frame (stamp end_time now job : Z) (cfg : JobConfig) (run : Z) (w : World) :
  let w1 := snd (collect_destinations get_destination_by_host ping_host stamp job run cfg
                   (jc_destinations cfg) no_counts w) in
  let '(r, w') := _execute_job get_destination_by_host ping_host stamp end_time now job cfg run w in
  r = Return tt /\
  metrics w' = metrics w1 /\ probes w' = probes w1 /\
  scheduled_jobs w' = scheduled_jobs w /\
  running_jobs w' = delete job (running_jobs w) /\
  map job_id (jobs w') = map job_id (jobs w) /\
  map run_id (job_runs w') = map run_id (job_runs w).
Proof.
  unfold _execute_job, finally.
  pose proof (collect_destinations_frame get_destination_by_host ping_host stamp job run cfg
                (jc_destinations cfg) no_counts w) as H.
  destruct (collect_destinations get_destination_by_host ping_host stamp job run cfg
              (jc_destinations cfg) no_counts w) as [c w1].
  destruct H as ((Hr & Hs & Hj & Hjr) & _). cbn [snd]. unfold try_, bind.
  match goal with |- context [_complete_job_run ?a ?b ?w0] =>
    destruct (complete_job_run_frame a b w0) as (w2 & -> & R2 & S2 & J2 & M2 & P2 & I2 & _) end.
  match goal with |- context [_update_job_after_run ?a ?b ?c ?d ?w0] =>
    destruct (update_job_after_run_frame a b c d w0)
      as (w3 & -> & R3 & S3 & J3 & M3 & P3 & I3 & _) end.
  cbn. repeat split; congruence.
Qed.

(** X12.  A job whose metric types hold no ["ping"] runs to its end without
    a probe and without a metric, whatever the store does: the other metric
    types are passed over. *)
Theorem execute_job_without_ping (stamp end_time now job : Z) (cfg : JobConfig) (run : Z)
    (w : World) :
  ping_count (jc_metrics cfg) = 0%nat ->
  let '(r, w') := _execute_job get_destination_by_host ping_host stamp end_time now job cfg run w in
  r = Return tt /\ metrics w' = metrics w /\ probes w' = probes w.
Proof.
  intros H. pose proof (execute_job_frame stamp end_time now job cfg run w) as F.
  cbv zeta in F. rewrite (collect_destinations_no_ping _ _ _ _ _ _ _ H) in F.
  destruct (_execute_job _ _ _ _ _ _ _ _ _) as [r w']. tauto.
Qed.

Lemma collect_destinations_asked (now job run : Z) (cfg : JobConfig)
    (destinations : list DestinationConfig) (c : Counters) (w : World) :
  let w' := snd (collect_destinations get_destination_by_host ping_host now job run cfg
                   destinations c w) in
  metrics w' = metrics w /\
  probes w' = (probes w ++ asked_hosts get_destination_by_host cfg destinations)%list.
Proof.
  unfold asked_hosts, resolved_destinations.
  revert c w. induction destinations as [|dc rest IH]; intros c w; cbn [collect_destinations].
  - cbn. destruct (ping_count (jc_metrics cfg)); rewrite app_nil_r; auto.
  - rewrite collect_destination_spec. cbn [List.filter].
    destruct (resolved get_destination_by_host (dc_host dc)).
    + destruct (ping_count (jc_metrics cfg)) eqn:Ep.
      * specialize (IH {| metrics_collected := metrics_collected c;
                          destinations_successful := destinations_successful c + 1;
                          destinations_failed := destinations_failed c |} w).
        cbv zeta in IH. exact IH.
      * match goal with |- context [collect_destinations _ _ _ _ _ _ _ ?c1 ?w1] =>
          specialize (IH c1 w1) end.
        cbv zeta in *. destruct IH as [Hm Hp]. rewrite Hm, Hp. cbn [map metrics probes set_probes].
        split; [reflexivity|]. rewrite <- app_assoc. reflexivity.
    + match goal with |- context [collect_destinations _ _ _ _ _ _ _ ?c1 ?w1] =>
        specialize (IH c1 w1) end.
      cbv zeta in *. exact IH.
Qed.

(** X13.  A run appends no row to [metrics], whatever the store, the
    resolver and the probe do: the step of a ["ping"] probe raises before it
    opens a session.  The run enters that step once for each destination
    whose host resolves, in the order of the destinations, when the metric
    types of the job hold a ["ping"], and for no destination when they hold
    none. *)
Theorem execute_job_metrics_of_run (stamp end_time now job : Z) (cfg : JobConfig) (run : Z)
    (w : World) :
  let w' := snd (_execute_job get_destination_by_host ping_host stamp end_time now job cfg
                   run w) in
  metrics w' = metrics w /\
  probes w' = (probes w ++ asked_hosts get_destination_by_host cfg (jc_destinations cfg))%list.
Proof.
  pose proof (execute_job_frame stamp end_time now job cfg run w) as F.
  pose proof (collect_destinations_asked stamp job run cfg (jc_destinations cfg) no_counts w)
    as H.
  cbv zeta in *.
  destruct (_execute_job _ _ _ _ _ _ _ _ _) as [r w']. cbn [snd].
  destruct F as (_ & Fm & Fp & _). destruct H as [Hm Hp].
  rewrite Fm, Fp. auto.
Qed.

End Metrics.

(** ** The life of a run *)

Section Runs.

Import JobManager.

Variable get_destination_by_host : string -> outcome (option Destination).
Variable ping_host : string -> Z -> Z -> outcome PingResult.

Lemma collect_destinations_total (now job run : Z) (cfg : JobConfig)
    (destinations : list DestinationConfig) (c : Counters) (w : World) :
  let c' := fst (collect_destinations get_destination_by_host ping_host now job run cfg
                   destinations c w) in
  destinations_successful c' + destinations_failed c'
  = destinations_successful c + destinations_failed c + PingCollector.len destinations
  /\ destinations_failed c <= destinations_failed c'.
Proof.
  revert c w. induction destinations as [|dc rest IH]; intros c w; cbn [collect_destinations].
  - unfold PingCollector.len. cbn. lia.
  - pose proof (collect_destination_counts get_destination_by_host ping_host now job run cfg
                  c dc w) as H.
    destruct (collect_destination get_destination_by_host ping_host now job run cfg c dc w)
      as [c1 w1].
    destruct H as (_ & _ & _ & _ & Hsum & _ & Hf & _).
    specialize (IH c1 w1). cbv zeta in *. rewrite len_cons. lia.
Qed.

(** A run with a store that accepts the writes. *)
Lemma execute_job_healthy (stamp end_time now job : Z) (cfg : JobConfig) (run : Z) (w : World) :
  faults w = [] ->
  let c := fst (collect_destinations get_destination_by_host ping_host stamp job run cfg
                  (jc_destinations cfg) no_counts w) in
  let '(r, w') := _execute_job get_destination_by_host ping_host stamp end_time now job cfg run w in
  r = Return tt /\
  job_runs w' = update_where run_id run (finalized end_time c) (job_runs w) /\
  jobs w' = (if (0 <? destinations_failed c) || in_range now (jc_interval cfg)
             then update_where job_id job (after_run end_time now (jc_interval cfg) c) (jobs w)
             else jobs w) /\
  running_jobs w' = delete job (running_jobs w) /\
  faults w' = [].
Proof.
  intros Hw. unfold _execute_job, finally.
  pose proof (collect_destinations_frame get_destination_by_host ping_host stamp job run cfg
                (jc_destinations cfg) no_counts w) as H.
  destruct (collect_destinations get_destination_by_host ping_host stamp job run cfg
              (jc_destinations cfg) no_counts w) as [c w1].
  destruct H as ((Hr & _ & Hj & Hjr) & Hf & Hge). specialize (Hf Hw). cbn [fst].
  cbn [no_counts destinations_failed] in Hge.
  assert (E : (destinations_failed c =? 0) = negb (0 <? destinations_failed c)).
  { destruct (Z.eqb_spec (destinations_failed c) 0), (Z.ltb_spec 0 (destinations_failed c));
      cbn; try reflexivity; lia. }
  unfold _complete_job_run, _update_job_after_run, lift. unfold_eff.
  rewrite session_healthy by exact Hf. cbn [fst snd r_success].
  rewrite E. unfold finalized, after_run.
  destruct (0 <? destinations_failed c); cbn [negb orb].
  - rewrite session_healthy by (cbn; exact Hf). cbn.
    rewrite Hr, Hj, Hjr. repeat split; exact Hf.
  - destruct (in_range now (jc_interval cfg)) eqn:Ein.
    + rewrite after_interval_in_range by exact Ein.
      rewrite session_healthy by (cbn; exact Hf). cbn.
      rewrite Hr, Hj, Hjr. repeat split; exact Hf.
    + destruct (after_interval_out_of_range _ _ Ein) as [e ->]. cbn.
      rewrite Hr, Hj, Hjr. repeat split; exact Hf.
Qed.

Lemma job_runs_started (t0 job : Z) (cfg : JobConfig) (w : World) (f : JobRun -> JobRun) :
  update_where run_id (next_id run_id (job_runs w)) f (job_runs (started t0 job cfg w))
  = (job_runs w ++ [f (new_run t0 job cfg w)])%list.
Proof.
  unfold started, set_running_jobs, set_job_runs. cbn [job_runs].
  rewrite update_where_app, update_where_other.
  - unfold update_where. cbn [map new_run run_id]. rewrite Z.eqb_refl. reflexivity.
  - eapply List.Forall_impl; [|apply (next_id_above run_id)]. cbv beta. intros r H. lia.
Qed.

(** X14.  A start and the run of the unit it registers, with a store that
    accepts the writes, add exactly one row to [job_runs]: the row of the
    run, finalized, whose counts of successful and failed destinations add
    up to the number of destinations of the job; the earlier rows are left
    as they were, and the job is out of the running map. *)
Theorem start_then_execute_one_run (t0 stamp end_time now job : Z) (cfg : JobConfig) (w : World) :
  faults w = [] -> running_jobs w !! job = None ->
  exists (task : Task) (c : Counters),
    let w1 := snd (start_job t0 job cfg w) in
    let w2 := snd (_execute_job get_destination_by_host ping_host stamp end_time now job
                     (task_job_config task) (task_run_id task) w1) in
    running_jobs w1 !! job = Some task /\
    job_runs w2 = (job_runs w ++ [finalized end_time c (new_run t0 job cfg w)])%list /\
    destinations_successful c + destinations_failed c = PingCollector.len (jc_destinations cfg) /\
    0 <= destinations_failed c /\
    running_jobs w2 !! job = None.
Proof.
  intros Hw Hr. rewrite (start_job_healthy t0 job cfg w Hw Hr). cbn [snd].
  exists (new_task job cfg w). cbn [task_job_config task_run_id new_task].
  pose proof (execute_job_healthy stamp end_time now job cfg (next_id run_id (job_runs w))
                (started t0 job cfg w) Hw) as H. cbv zeta in H.
  pose proof (collect_destinations_total stamp job (next_id run_id (job_runs w)) cfg
                (jc_destinations cfg) no_counts (started t0 job cfg w)) as T. cbv zeta in T.
  eexists. cbv zeta.
  destruct (_execute_job _ _ _ _ _ _ _ _ _) as [r w2]. cbn [snd].
  destruct H as (_ & Hjr & _ & Hrun & _).
  split; [unfold started, set_running_jobs; cbn [running_jobs]; apply lookup_insert_eq|].
  split; [rewrite Hjr; apply job_runs_started|].
  cbn [no_counts destinations_successful destinations_failed] in T.
  split; [lia|]. split; [lia|].
  rewrite Hrun. apply lookup_delete_eq.
Qed.

End Runs.

(** ** Stopping every job *)

Section Stopping.

Import JobManager.

Lemma stop_job_frame (job : Z) (w : World) :
  exists (b : bool) (w' : World),
    stop_job job w = (Return b, w') /\
    running_jobs w' !! job = None /\
    (forall j t, running_jobs w' !! j = Some t -> running_jobs w !! j = Some t) /\
    scheduled_jobs w' = scheduled_jobs w /\
    job_runs w' = job_runs w /\ metrics w' = metrics w /\
    map job_id (jobs w') = map job_id (jobs w).
Proof.
  pose proof (stop_job_submap job w) as Hsub.
  unfold stop_job, cancel_and_await, del_running_job in *. unfold_eff.
  destruct (running_jobs w !! job) as [task|] eqn:E.
  2:{ exists false, w. repeat split; auto. }
  destruct (task_started task).
  - unfold set_running_jobs at 1 2. unfold set_running_jobs at 1 2 in Hsub.
    cbn [running_jobs] in *.
    destruct (delete (task_job_id task) (running_jobs w) !! job) eqn:E2.
    + match goal with |- context [_update_job_status ?a ?b ?w0] =>
        destruct (update_job_status_frame a b w0) as (w' & Eu & R & S & J & M & _ & I) end.
      rewrite Eu in *. exists true, w'. cbn [snd] in Hsub.
      split; [reflexivity|]. split; [rewrite R; cbn; apply lookup_delete_eq|].
      split; [exact Hsub|]. rewrite S, J, M, I. cbn. repeat split.
    + eexists false, _. split; [reflexivity|]. cbn [snd] in Hsub. cbn.
      repeat split; try exact Hsub. exact E2.
  - rewrite E in *.
    match goal with |- context [_update_job_status ?a ?b ?w0] =>
      destruct (update_job_status_frame a b w0) as (w' & Eu & R & S & J & M & _ & I) end.
    rewrite Eu in *. exists true, w'. cbn [snd] in Hsub.
    split; [reflexivity|]. split; [rewrite R; cbn; apply lookup_delete_eq|].
    split; [exact Hsub|]. rewrite S, J, M, I. cbn. repeat split.
Qed.

Lemma stop_each_frame (jobs_to_stop : list Z) (w : World) :
  exists w' : World,
    stop_each jobs_to_stop w = (Return tt, w') /\
    (forall job, In job jobs_to_stop -> running_jobs w' !! job = None) /\
    (forall j t, running_jobs w' !! j = Some t -> running_jobs w !! j = Some t) /\
    scheduled_jobs w' = scheduled_jobs w /\
    job_runs w' = job_runs w /\ metrics w' = metrics w /\
    map job_id (jobs w') = map job_id (jobs w).
Proof.
  revert w. induction jobs_to_stop as [|job rest IH]; intros w; cbn [stop_each].
  - exists w. split; [reflexivity|]. repeat split; auto. intros job [].
  - destruct (stop_job_frame job w) as (b & w1 & E1 & N1 & S1 & C1 & J1 & M1 & I1).
    destruct (IH w1) as (w' & E & N & S & C & J & M & I).
    exists w'. unfold bind. rewrite E1, E. split; [reflexivity|].
    split; [|split; [|repeat split; congruence]].
    + intros j [<-|Hj]; [|apply N, Hj].
      destruct (running_jobs w' !! job) as [t|] eqn:L; [|reflexivity].
      apply S in L. congruence.
    + intros j t L. apply S1, S, L.
Qed.

(** X17.  [shutdown] over a list that names every running job returns and
    leaves the running map empty, whether the units had begun or not; it
    writes nothing to [job_runs], so the runs it interrupts keep the status
    they had. *)
Theorem shutdown_stops_every_job (jobs_to_stop : list Z) (w : World) :
  (forall job, is_Some (running_jobs w !! job) -> In job jobs_to_stop) ->
  exists w' : World,
    shutdown jobs_to_stop w = (Return tt, w') /\
    running_jobs w' = ∅ /\
    job_runs w' = job_runs w /\ metrics w' = metrics w /\
    scheduled_jobs w' = scheduled_jobs w.
Proof.
  intros H. unfold shutdown.
  destruct (stop_each_frame jobs_to_stop w) as (w' & E & N & S & C & J & M & _).
  exists w'. split; [exact E|]. split; [|auto].
  apply map_empty. intros j.
  destruct (running_jobs w' !! j) as [t|] eqn:L; [|reflexivity].
  rewrite <- L. apply N, H. apply S in L. eauto.
Qed.

(** When every unit has begun, shutting down writes nothing to the store:
    no job is disabled. *)
Lemma stop_each_started (jobs_to_stop : list Z) (w : World) :
  keyed w ->
  (forall job task, running_jobs w !! job = Some task -> task_started task = true) ->
  exists w' : World,
    stop_each jobs_to_stop w = (Return tt, w') /\
    jobs w' = jobs w /\ faults w' = faults w /\ keyed w'.
Proof.
  revert w. induction jobs_to_stop as [|job rest IH]; intros w K H; cbn [stop_each].
  - exists w. auto.
  - unfold bind.
    assert (E : exists b, stop_job job w = (Return b, snd (stop_job job w))
                          /\ jobs (snd (stop_job job w)) = jobs w
                          /\ faults (snd (stop_job job w)) = faults w).
    { destruct (running_jobs w !! job) as [task|] eqn:L.
      - rewrite (stop_job_started job task w L (H _ _ L) (K _ _ L)). exists false. auto.
      - rewrite (stop_job_not_running job w L). exists false. auto. }
    destruct E as (b & E & Ej & Ef). rewrite E.
    destruct (IH (snd (stop_job job w))) as (w' & E' & Ej' & Ef' & K').
    + apply stop_job_keyed, K.
    + intros j t L. apply (H j t). apply (stop_job_submap job w j t L).
    + exists w'. rewrite E'. repeat split; try congruence. exact K'.
Qed.

End Stopping.

(** * The scheduler: dispatch, unscheduling and the maintenance loop *)

Section Dispatching.

Import Scheduler.

Lemma update_job_next_run_rows (job : Z) (next_run : option Z) (w : World) :
  exists w',
    _update_job_next_run job next_run w = (Return tt, w') /\
    running_jobs w' = running_jobs w /\ scheduled_jobs w' = scheduled_jobs w /\
    job_runs w' = job_runs w /\ metrics w' = metrics w /\ probes w' = probes w /\
    (jobs w' = jobs w \/ jobs w' = update_where job_id job (with_next_run next_run) (jobs w)) /\
    (hd None (faults w) = None ->
       jobs w' = update_where job_id job (with_next_run next_run) (jobs w)) /\
    faults w' = tl (faults w).
Proof.
  unfold _update_job_next_run.
  match goal with |- context [try_ (session ?b) _ w] =>
    destruct (try_session_cases b w) as (w' & -> & [[Hok ->] | [[e He] ->]]) end.
  - eexists. split; [reflexivity|]. cbn. repeat split. right. reflexivity.
  - eexists. split; [reflexivity|]. cbn. repeat split; auto. rewrite He. discriminate.
Qed.

(** What [schedule_job] does to the state, whatever the store does. *)
Lemma schedule_job_rows (now now' job : Z) (cfg : JobConfig) (w : World) :
  exists (b : bool) (w' : World),
    schedule_job now now' job cfg w = (Return b, w') /\
    running_jobs w' = running_jobs w /\
    job_runs w' = job_runs w /\ metrics w' = metrics w /\
    (jobs w' = jobs w \/
     exists next_run, jobs w' = update_where job_id job (with_next_run next_run) (jobs w)) /\
    ((b = false /\ w' = w) \/
     exists task, dispatch_done task = false /\
                  scheduled_jobs w' = <[job := task]> (scheduled_jobs w)).
Proof.
  destruct (running_jobs w !! job) as [task|] eqn:E.
  - rewrite schedule_job_running by eauto. exists false, w. repeat split; eauto.
  - destruct (in_range now (jc_interval cfg)) eqn:Hin.
    2:{ rewrite schedule_job_out_of_range by exact Hin. exists false, w. repeat split; eauto. }
    unfold schedule_job, _calculate_next_run, lift. unfold_eff.
    rewrite bool_decide_eq_false_2.
    2:{ unfold JobManager.get_running_jobs. rewrite elem_of_dom, E. intros [? ?]; discriminate. }
    rewrite after_interval_in_range by exact Hin. cbn [mbind outcome_bind].
    match goal with |- context [_update_job_next_run ?j ?n ?w0] =>
      destruct (update_job_next_run_rows j n w0) as (w' & -> & R & S & J & M & _ & Hj & _) end.
    exists true, w'. split; [reflexivity|]. cbn in R, S, J, M, Hj.
    repeat split; try assumption.
    + cbn [jobs set_scheduled_jobs] in Hj. destruct Hj as [Hj|Hj]; [left; exact Hj | right; eauto].
    + right. eexists. split; [|exact S]. reflexivity.
Qed.

(** [unschedule_job] always returns true. *)
Lemma unschedule_job_cases (job : Z) (w : World) :
  exists w' : World,
    unschedule_job job w = (Return true, w') /\
    scheduled_jobs w' = delete job (scheduled_jobs w) /\
    running_jobs w' = running_jobs w /\
    job_runs w' = job_runs w /\ metrics w' = metrics w /\
    (hd None (faults w) = None ->
       jobs w' = update_where job_id job (with_next_run None) (jobs w)) /\
    ((exists e, hd None (faults w) = Some e) -> jobs w' = jobs w).
Proof.
  unfold unschedule_job. unfold_eff.
  destruct (scheduled_jobs w !! job) as [task|] eqn:E.
  - match goal with |- context [_update_job_next_run ?j ?n ?w0] =>
      pose proof (try_session_cases
                    (fun w => (tt, set_jobs (update_where job_id j (with_next_run n)) w)) w0)
        as (w' & Eu & C) end.
    unfold _update_job_next_run. unfold with_next_run in Eu. rewrite Eu.
    exists w'. split; [reflexivity|].
    destruct C as [[Hok ->] | [[e He] ->]]; cbn in *; repeat split; auto.
    + intros [e' He']. congruence.
    + intros Hok. congruence.
  - match goal with |- context [_update_job_next_run ?j ?n ?w0] =>
      pose proof (try_session_cases
                    (fun w => (tt, set_jobs (update_where job_id j (with_next_run n)) w)) w0)
        as (w' & Eu & C) end.
    unfold _update_job_next_run. unfold with_next_run in Eu. rewrite Eu.
    exists w'. split; [reflexivity|].
    assert (D : delete job (scheduled_jobs w) = scheduled_jobs w) by (apply delete_id, E).
    rewrite D.
    destruct C as [[Hok ->] | [[e He] ->]]; cbn in *; repeat split; auto.
    + intros [e' He']. congruence.
    + intros Hok. congruence.
Qed.

End Dispatching.

(** ** The maintenance loop *)

Section Maintenance.

Import Scheduler.

Variable parse_config : Job -> outcome JobConfig.
Variable clock : Z -> Z * Z.

Lemma in_update_where {R : Type} (id_of : R -> Z) (row_id : Z) (f : R -> R) (rows : list R)
    (row : R) :
  (forall r, id_of (f r) = id_of r) ->
  In row (update_where id_of row_id f rows) -> In row rows \/ id_of row = row_id.
Proof.
  intros Hf H. unfold update_where in H. apply in_map_iff in H as (r & <- & Hr).
  destruct (Z.eqb_spec (id_of r) row_id) as [E|E]; [right; rewrite Hf; exact E | left; exact Hr].
Qed.

(** The loop over the rows to reschedule, whatever the store and the
    decoding do: the ids called extend [called] with ids of the rows; the
    rows of the other jobs are left as they were; and a dispatch unit that
    waits keeps waiting. *)
Lemma reschedule_each_rows (js : list Job) (called : list Z) (w : World) :
  let '(r, called', w') := reschedule_each parse_config clock js called w in
  (forall id, In id called -> In id called') /\
  (forall id, In id called' -> In id called \/ In id (map job_id js)) /\
  running_jobs w' = running_jobs w /\ job_runs w' = job_runs w /\ metrics w' = metrics w /\
  map job_id (jobs w') = map job_id (jobs w) /\
  (forall row, In row (jobs w') -> In row (jobs w) \/ In (job_id row) called') /\
  (forall id d, scheduled_jobs w !! id = Some d -> dispatch_done d = false ->
                exists d', scheduled_jobs w' !! id = Some d' /\ dispatch_done d' = false).
Proof.
  revert called w. induction js as [|job rest IH]; intros called w; cbn [reschedule_each].
  - repeat split; eauto.
  - destruct (parse_config job) as [cfg|e]; [|repeat split; eauto].
    destruct (schedule_job_rows (fst (clock (job_id job))) (snd (clock (job_id job)))
                (job_id job) cfg w) as (b & w1 & -> & R1 & J1 & M1 & Hj1 & Hs1).
    specialize (IH (called ++ [job_id job])%list w1).
    destruct (reschedule_each parse_config clock rest (called ++ [job_id job])%list w1)
      as [[r called'] w'].
    destruct IH as (I1 & I2 & R & J & M & Hid & Hrow & Hpend).
    assert (Hkeep : forall id d, scheduled_jobs w !! id = Some d -> dispatch_done d = false ->
                      exists d', scheduled_jobs w1 !! id = Some d' /\ dispatch_done d' = false).
    { intros id d Hl Hd. destruct Hs1 as [(_ & ->) | (task & Ht & ->)]; [eauto|].
      destruct (decide (id = job_id job)) as [->|Hne].
      - rewrite lookup_insert_eq. eauto.
      - rewrite lookup_insert_ne by congruence. eauto. }
    split; [intros id Hin; apply I1, in_or_app; left; exact Hin|].
    split.
    { intros id Hin. apply I2 in Hin as [Hin|Hin].
      - apply in_app_or in Hin as [Hin|[<-|[]]]; [left; exact Hin | right; left; reflexivity].
      - right. right. exact Hin. }
    split; [congruence|]. split; [congruence|]. split; [congruence|].
    split.
    { rewrite Hid. destruct Hj1 as [->|[n ->]]; [reflexivity|].
      apply map_update_where. reflexivity. }
    split.
    { intros row Hin. apply Hrow in Hin as [Hin|Hin]; [|right; exact Hin].
      destruct Hj1 as [E|[n E]]; rewrite E in Hin; [left; exact Hin|].
      apply in_update_where in Hin as [Hin|Hin]; [left; exact Hin | | reflexivity].
      right. apply I1, in_or_app. right. left. symmetry. exact Hin. }
    intros id d Hl Hd. destruct (Hkeep id d Hl Hd) as (d1 & Hl1 & Hd1).
    exact (Hpend id d1 Hl1 Hd1).
Qed.

(** The world in which the rows to reschedule are selected. *)
Lemma scheduler_iteration_cases (now : Z) (w : World) :
  (exists e, hd None (faults w) = Some e /\
             scheduler_iteration parse_config clock now w
             = ([], set_faults (tl (faults w)) (set_scheduled_jobs (fun _ => pending w) w))) \/
  (hd None (faults w) = None /\
   scheduler_iteration parse_config clock now w
   = (let w1 := set_faults (tl (faults w)) (set_scheduled_jobs (fun _ => pending w) w) in
      let '(_, called, w2) := reschedule_each parse_config clock (overdue now w) [] w1 in
      (called, w2))).
Proof.
  unfold scheduler_iteration, _cleanup_completed_tasks, modify, _reschedule_jobs, session.
  unfold overdue, pending, JobManager.get_running_jobs.
  cbn [faults set_scheduled_jobs running_jobs scheduled_jobs jobs].
  destruct (faults w) as [|[e|] fs] eqn:E; cbn [hd tl].
  - right. split; [reflexivity|].
    replace (set_faults [] (set_scheduled_jobs _ w))
      with (set_scheduled_jobs
              (fun _ => filter (fun entry : Z * Dispatch => dispatch_done (snd entry) = false)
                          (scheduled_jobs w)) w)
      by (destruct w; cbn in *; subst; reflexivity).
    unfold set_scheduled_jobs. reflexivity.
  - left. exists e. split; reflexivity.
  - right. split; reflexivity.
Qed.

(** The loop calls [schedule_job] on due jobs only. *)
Lemma iteration_calls_due (now : Z) (w : World) (id : Z) :
  In id (fst (scheduler_iteration parse_config clock now w)) ->
  exists row : Job,
    In row (jobs w) /\ job_id row = id /\ job_enabled row = true /\
    (exists next_run, job_next_run row = Some next_run /\ next_run <= now) /\
    running_jobs w !! id = None /\ pending w !! id = None.
Proof.
  destruct (scheduler_iteration_cases now w) as [(e & _ & ->) | (_ & ->)]; [intros []|].
  cbv zeta.
  pose proof (reschedule_each_rows (overdue now w) []
                (set_faults (tl (faults w)) (set_scheduled_jobs (fun _ => pending w) w))) as H.
  destruct (reschedule_each _ _ _ _ _) as [[r called] w2]. cbn [fst].
  destruct H as (_ & H & _). intros Hin. apply H in Hin as [[]|Hin].
  apply in_map_iff in Hin as (row & <- & Hin).
  unfold overdue in Hin. apply filter_In in Hin as [Hin Hd].
  unfold JobManager.get_running_jobs in Hd. apply due_spec in Hd.
  exists row. tauto.
Qed.

(** X22.  After [unschedule_job], when the store accepted its write, an
    iteration of the maintenance loop does not call [schedule_job] on the
    job, at whatever time it runs: the row has no [next_run] to compare. *)
Theorem unscheduled_job_not_rescheduled (now job : Z) (w : World) :
  hd None (faults w) = None ->
  ~ In job (fst (scheduler_iteration parse_config clock now (snd (unschedule_job job w)))).
Proof.
  intros Hok Hin.
  destruct (unschedule_job_cases job w) as (w' & E & _ & _ & _ & _ & Hj & _).
  rewrite E in Hin. cbn [snd] in Hin.
  apply iteration_calls_due in Hin as (row & Hrow & Hid & _ & (t & Ht & _) & _).
  rewrite (Hj Hok) in Hrow. unfold update_where in Hrow.
  apply in_map_iff in Hrow as (r & <- & _).
  destruct (Z.eqb_spec (job_id r) job) as [Er|Er]; [discriminate | contradiction].
Qed.

End Maintenance.

(** ** The dispatch unit *)

Section DispatchUnit.

Import Scheduler.

(** [start_job] returns; it refuses and leaves the maps and the tables as
    they were, or it registers the unit of a new run. *)
Lemma start_job_cases (now job : Z) (cfg : JobConfig) (w : World) :
  exists (b : bool) (w' : World),
    JobManager.start_job now job cfg w = (Return b, w') /\
    ((b = false /\ running_jobs w' = running_jobs w /\ scheduled_jobs w' = scheduled_jobs w /\
      jobs w' = jobs w /\ job_runs w' = job_runs w /\ metrics w' = metrics w) \/
     (b = true /\ running_jobs w !! job = None /\ hd None (faults w) = None /\
      w' = started now job cfg (set_faults (tl (faults w)) w))).
Proof.
  unfold JobManager.start_job, JobManager._create_job_run. unfold_eff.
  destruct (running_jobs w !! job) as [task|] eqn:E.
  - exists false, w. split; [reflexivity|]. left. repeat split.
  - unfold session. destruct (faults w) as [|[e|] fs] eqn:F; cbn [hd tl].
    + pose proof (next_id_pos run_id (job_runs w)) as Hpos. cbn [fst snd run_id].
      destruct (next_id run_id (job_runs w) =? 0) eqn:Z0; [apply Z.eqb_eq in Z0; lia|].
      exists true. eexists. split; [reflexivity|]. right.
      repeat split. unfold started.
      replace (set_faults [] w) with w by (destruct w; cbn in *; subst; reflexivity).
      reflexivity.
    + exists false. eexists. split; [reflexivity|]. left. repeat split.
    + pose proof (next_id_pos run_id (job_runs (set_faults fs w))) as Hpos. cbn [fst snd run_id].
      destruct (next_id run_id (job_runs (set_faults fs w)) =? 0) eqn:Z0;
        [apply Z.eqb_eq in Z0; cbn in *; lia|].
      exists true. eexists. split; [reflexivity|]. right. repeat split.
Qed.

Lemma is_job_enabled_cases (job : Z) (w : World) :
  exists (b : bool) (w' : World),
    _is_job_enabled job w = (Return b, w') /\
    running_jobs w' = running_jobs w /\ scheduled_jobs w' = scheduled_jobs w /\
    jobs w' = jobs w /\ job_runs w' = job_runs w /\ metrics w' = metrics w /\
    faults w' = tl (faults w).
Proof.
  unfold _is_job_enabled, session. unfold_eff.
  destruct (faults w) as [|[e|] fs] eqn:F; cbn [fst snd tl].
  - destruct (List.filter _ (jobs w)) as [|row [|row' rows]];
      eexists _, _; (split; [reflexivity|]); repeat split; exact F.
  - eexists _, _. split; [reflexivity|]. repeat split.
  - cbn [jobs set_faults].
    destruct (List.filter _ (jobs w)) as [|row [|row' rows]];
      eexists _, _; (split; [reflexivity|]); repeat split.
Qed.

Lemma is_job_enabled_healthy (job : Z) (w : World) (row : Job) :
  faults w = [] -> List.filter (fun j => job_id j =? job) (jobs w) = [row] ->
  _is_job_enabled job w = (Return (job_enabled row), w).
Proof.
  intros F E. unfold _is_job_enabled. unfold_eff.
  rewrite session_healthy by exact F. cbn [fst snd]. rewrite E, orb_false_r. reflexivity.
Qed.

(** X25.  The dispatch unit of a job returns in every case, and when it
    ends the scheduled map holds no entry for the job; when the job is
    disabled, has no row, or the store does not answer, the unit starts
    nothing and writes nothing. *)
Theorem dispatch_ends_unregistered (now : Z) (next retry : Z * Z) (job : Z) (cfg : JobConfig)
    (w : World) :
  exists w' : World,
    _delayed_job_execution now next retry job cfg w = (Return tt, w') /\
    scheduled_jobs w' !! job = None /\
    (fst (_is_job_enabled job w) = Return false ->
     running_jobs w' = running_jobs w /\ jobs w' = jobs w /\ job_runs w' = job_runs w /\
     metrics w' = metrics w /\ scheduled_jobs w' = delete job (scheduled_jobs w)).
Proof.
  unfold _delayed_job_execution, finally. unfold_eff.
  destruct (is_job_enabled_cases job w) as (b & w1 & -> & R1 & S1 & J1 & JR1 & M1 & _).
  cbn [fst]. destruct b; cbn [negb].
  - destruct (start_job_cases now job cfg w1) as (b2 & w2 & -> & _).
    destruct b2;
      destruct (schedule_job_rows (fst next) (snd next) job cfg w2) as (b3 & w3 & -> & _);
      eexists; (split; [reflexivity|]); cbn [scheduled_jobs set_scheduled_jobs];
      (split; [apply lookup_delete_eq | discriminate]).
  - eexists. split; [reflexivity|]. cbn [scheduled_jobs set_scheduled_jobs].
    split; [apply lookup_delete_eq|]. intros _. cbn. rewrite R1, S1, J1, JR1, M1. auto.
Qed.

(** The unit of an enabled job that is not running, with a store that
    accepts the writes. *)
Lemma delayed_job_execution_starts (now : Z) (next retry : Z * Z) (job : Z) (cfg : JobConfig)
    (w : World) (row : Job) :
  faults w = [] -> running_jobs w !! job = None ->
  List.filter (fun j => job_id j =? job) (jobs w) = [row] -> job_enabled row = true ->
  _delayed_job_execution now next retry job cfg w
  = (Return tt, set_scheduled_jobs (delete job) (started now job cfg w)).
Proof.
  intros F R E En. unfold _delayed_job_execution, finally. unfold_eff.
  rewrite (is_job_enabled_healthy job w row F E), En. cbn [negb].
  rewrite (start_job_healthy now job cfg w F R).
  rewrite schedule_job_running; [reflexivity|].
  unfold started, set_running_jobs. cbn [running_jobs]. rewrite lookup_insert_eq. eauto.
Qed.

(** X27.  The dispatch unit of an enabled job whose run the store refuses:
    the retry registers a dispatch unit and writes the next run of the job,
    one interval after its clock reading, when that instant is in the range
    of [datetime], and does neither when it is not; the [finally] clause
    then takes the entry out of the scheduled map.  At the end the job is
    neither in the running map nor in the scheduled map, and no run was
    added. *)
Theorem dispatch_retry_leaves_no_entry (now : Z) (next retry : Z * Z) (job : Z) (cfg : JobConfig)
    (w : World) (row : Job) (e : exn) :
  faults w = [None; Some e] -> running_jobs w !! job = None ->
  List.filter (fun j => job_id j =? job) (jobs w) = [row] -> job_enabled row = true ->
  exists w' : World,
    _delayed_job_execution now next retry job cfg w = (Return tt, w') /\
    running_jobs w' !! job = None /\ scheduled_jobs w' !! job = None /\
    job_runs w' = job_runs w /\
    jobs w' = (if in_range (fst next) (jc_interval cfg)
               then update_where job_id job
                      (with_next_run (Some (fst next + timedelta_seconds (jc_interval cfg))))
                      (jobs w)
               else jobs w).
Proof.
  intros F R E En. unfold _delayed_job_execution, finally. unfold_eff.
  unfold _is_job_enabled. unfold_eff. unfold session at 1. rewrite F.
  cbn [fst snd jobs set_faults]. rewrite E, En. cbn [orb negb].
  unfold JobManager.start_job, JobManager._create_job_run. unfold_eff.
  cbn [running_jobs set_faults]. rewrite R. unfold session at 1. cbn [faults set_faults].
  destruct (in_range (fst next) (jc_interval cfg)) eqn:Hin.
  - match goal with |- context [schedule_job ?a ?b ?c ?d ?w0] =>
      destruct (schedule_job_rows a b c d w0) as (b3 & w3 & E3 & _ & JR & _);
      destruct (schedule_job_not_running a b c d w0) as (w' & E' & R' & S' & J' & _) end.
    { exact R. }
    { exact Hin. }
    rewrite E' in E3. injection E3 as <- <-. rewrite E'.
    eexists. split; [reflexivity|]. cbn in *.
    rewrite R', (J' eq_refl). repeat split; auto. apply lookup_delete_eq.
  - rewrite schedule_job_out_of_range by exact Hin.
    eexists. split; [reflexivity|]. cbn. repeat split; auto. apply lookup_delete_eq.
Qed.

End DispatchUnit.

(** * What the engine keeps *)

Section Keeping.

Import JobManager.

Variable get_destination_by_host : string -> outcome (option Destination).
Variable ping_host : string -> Z -> Z -> outcome PingResult.

Lemma collect_metrics_appends (now job destination : Z) (dc : DestinationConfig) (run : Z)
    (metric_types : list string) (n : Z) (w : World) :
  exists added : list MetricRecord,
    metrics (snd (collect_metrics ping_host now job destination dc run metric_types n w))
    = (metrics w ++ added)%list.
Proof.
  revert n w. induction metric_types as [|mt rest IH]; intros n w; cbn [collect_metrics].
  - exists []. cbn. rewrite app_nil_r. reflexivity.
  - destruct (String.eqb mt "ping"); [|apply IH].
    pose proof (collect_ping_metric_cases ping_host now job destination dc run w) as H.
    destruct (_collect_ping_metric ping_host now job destination dc run w) as [[[]|e] w1].
    + destruct H as (_ & _ & [[_ [m Hm]] | [e [He _]]]); [|discriminate].
      destruct (IH (n + 1) w1) as (added & Ha).
      exists (m :: added). rewrite Ha, Hm, <- app_assoc. reflexivity.
    + destruct H as (_ & _ & [[He _] | [e' [_ Hm]]]); [discriminate|].
      exists []. cbn. rewrite Hm, app_nil_r. reflexivity.
Qed.

Lemma collect_destinations_appends (now job run : Z) (cfg : JobConfig)
    (destinations : list DestinationConfig) (c : Counters) (w : World) :
  exists added : list MetricRecord,
    metrics (snd (collect_destinations get_destination_by_host ping_host now job run cfg
                    destinations c w))
    = (metrics w ++ added)%list.
Proof.
  revert c w. induction destinations as [|dc rest IH]; intros c w; cbn [collect_destinations].
  - exists []. cbn. rewrite app_nil_r. reflexivity.
  - unfold collect_destination.
    destruct (get_destination_by_host (dc_host dc)) as [[d|]|e]; try apply IH.
    destruct (collect_metrics_appends now job (dest_id d) dc run (jc_metrics cfg)
                (metrics_collected c) w) as (a1 & H1).
    destruct (collect_metrics ping_host now job (dest_id d) dc run (jc_metrics cfg)
                (metrics_collected c) w) as [[[[]|e] n'] w1]; cbn [snd] in H1.
    + match goal with |- context [collect_destinations _ _ _ _ _ _ _ ?c1 w1] =>
        destruct (IH c1 w1) as (a2 & H2) end.
      exists (a1 ++ a2)%list. rewrite H2, H1, <- app_assoc. reflexivity.
    + match goal with |- context [collect_destinations _ _ _ _ _ _ _ ?c1 w1] =>
        destruct (IH c1 w1) as (a2 & H2) end.
      exists (a1 ++ a2)%list. rewrite H2, H1, <- app_assoc. reflexivity.
Qed.

Lemma execute_job_extends (stamp end_time now job : Z) (cfg : JobConfig) (run : Z) (w : World) :
  extends w (snd (_execute_job get_destination_by_host ping_host stamp end_time now job cfg
                    run w)).
Proof.
  pose proof (execute_job_frame get_destination_by_host ping_host stamp end_time now job cfg
                run w) as F. cbv zeta in F.
  destruct (collect_destinations_appends stamp job run cfg (jc_destinations cfg) no_counts w)
    as (added & Ha).
  destruct (_execute_job _ _ _ _ _ _ _ _ _) as [r w']. cbn [snd].
  destruct F as (_ & Fm & _ & _ & _ & Fj & Fr).
  split; [exact Fj|]. split; [exists added; congruence | left; exact Fr].
Qed.

(** A destination whose host does not resolve makes the count of failures
    positive. *)
Lemma collect_destinations_failed (now job run : Z) (cfg : JobConfig)
    (destinations : list DestinationConfig) (c : Counters) (w : World) :
  0 <= destinations_failed c ->
  unresolved_destinations get_destination_by_host destinations <> [] ->
  0 < destinations_failed
        (fst (collect_destinations get_destination_by_host ping_host now job run cfg
                destinations c w)).
Proof.
  revert c w. induction destinations as [|dc rest IH]; intros c w Hc Hu; [contradiction|].
  cbn [collect_destinations].
  pose proof (collect_destination_counts get_destination_by_host ping_host now job run cfg
                c dc w) as H.
  destruct (collect_destination get_destination_by_host ping_host now job run cfg c dc w)
    as [c1 w1].
  destruct H as (_ & _ & _ & _ & _ & _ & Hf & _ & Hun & _).
  unfold unresolved_destinations in Hu. cbn [List.filter] in Hu.
  destruct (resolved get_destination_by_host (dc_host dc)) eqn:E; cbn [negb] in Hu.
  - apply IH; [lia | exact Hu].
  - destruct (Hun eq_refl) as [_ Hf1].
    pose proof (collect_destinations_total get_destination_by_host ping_host now job run cfg
                  rest c1 w1) as [_ T]. cbv zeta in T. lia.
Qed.

Lemma find_update_where (job : Z) (f : Job -> Job) (rows : list Job) :
  (forall r, job_id (f r) = job_id r) ->
  List.find (fun j => job_id j =? job) (update_where job_id job f rows)
  = option_map f (List.find (fun j => job_id j =? job) rows).
Proof.
  intros Hf. unfold update_where. induction rows as [|r rows IH]; [reflexivity|].
  cbn [map List.find]. destruct (job_id r =? job) eqn:E.
  - rewrite Hf, E. reflexivity.
  - rewrite E. exact IH.
Qed.

(** X16.  After a run in which the host of a destination did not resolve,
    with a store that accepts the writes, [get_job_status] answers
    "disabled" for the job, and an iteration of the maintenance loop does
    not call [schedule_job] on it, at whatever time it runs. *)
Theorem failed_run_disables_job (parse_config : Job -> outcome JobConfig) (clock : Z -> Z * Z)
    (stamp end_time now now' now'' job : Z) (cfg : JobConfig) (run : Z) (w : World) :
  faults w = [] -> has_row job w = true ->
  unresolved_destinations get_destination_by_host (jc_destinations cfg) <> [] ->
  fst (get_job_status now' job
         (snd (_execute_job get_destination_by_host ping_host stamp end_time now job cfg run w)))
  = Return (Some "disabled") /\
  ~ In job (fst (Scheduler.scheduler_iteration parse_config clock now''
                   (snd (_execute_job get_destination_by_host ping_host stamp end_time now
                           job cfg run w)))).
Proof.
  intros Hw Hrow Hu.
  pose proof (execute_job_healthy get_destination_by_host ping_host stamp end_time now job cfg
                run w Hw) as H. cbv zeta in H.
  pose proof (collect_destinations_failed stamp job run cfg (jc_destinations cfg) no_counts w
                (Z.le_refl 0) Hu) as Hf.
  destruct (_execute_job _ _ _ _ _ _ _ _ _) as [r w']. cbn [snd].
  destruct H as (_ & _ & Hj & Hr & Hw').
  apply Z.ltb_lt in Hf. split.
  - rewrite Hf in Hj. cbn [orb] in Hj.
    rewrite (get_job_status_healthy now' job w' Hw'). cbn [fst]. rewrite Hj.
    rewrite find_update_where by reflexivity.
    rewrite find_has_row in Hrow.
    destruct (List.find _ (jobs w)) as [row|]; [|discriminate]. cbn [option_map].
    rewrite bool_decide_eq_false_2.
    2:{ rewrite Hr, lookup_delete_eq. intros [? ?]; discriminate. }
    unfold after_run. cbn [job_enabled]. rewrite Hf. reflexivity.
  - rewrite Hf in Hj. cbn [orb] in Hj.
    intros Hin. apply iteration_calls_due in Hin as (row & Hin & Hid & Hen & _).
    rewrite Hj in Hin. unfold update_where in Hin. apply in_map_iff in Hin as (r0 & <- & _).
    destruct (Z.eqb_spec (job_id r0) job) as [E0|E0]; [|contradiction].
    unfold after_run in Hen. cbn [job_enabled] in Hen. rewrite Hf in Hen. discriminate.
Qed.

End Keeping.

Lemma extends_grows (w w' : World) : extends w w' -> grows w w'.
Proof.
  intros (Hj & Hm & [Hr|Hr]); (split; [exact Hj|]); (split; [exact Hm|]).
  - exists []. rewrite app_nil_r. exact Hr.
  - eexists. exact Hr.
Qed.

Lemma grows_refl (w : World) : grows w w.
Proof. repeat split; exists []; rewrite app_nil_r; reflexivity. Qed.

Lemma grows_trans (w1 w2 w3 : World) : grows w1 w2 -> grows w2 w3 -> grows w1 w3.
Proof.
  intros (Hj & (m & Hm) & (r & Hr)) (Hj' & (m' & Hm') & (r' & Hr')).
  split; [congruence|]. split.
  - exists (m ++ m')%list. rewrite Hm', Hm, <- app_assoc. reflexivity.
  - exists (r ++ r')%list. rewrite Hr', Hr, <- app_assoc. reflexivity.
Qed.

Lemma engine_step_extends (w w' : World) : engine_step w w' -> extends w w'.
Proof.
  intros Hstep. destruct Hstep.
  - destruct (start_job_cases now job cfg w) as (b & w' & -> & [H | H]); cbn [snd].
    + destruct H as (_ & _ & _ & Hj & Hr & Hm). split; [congruence|].
      split; [exists []; rewrite app_nil_r; exact Hm | left; congruence].
    + destruct H as (_ & _ & _ & ->). split; [reflexivity|].
      split; [exists []; cbn; rewrite app_nil_r; reflexivity|].
      right. cbn. rewrite map_app. reflexivity.
  - split; [reflexivity|]. split; [exists []; cbn; rewrite app_nil_r; reflexivity|].
    left. reflexivity.
  - apply execute_job_extends.
  - destruct (stop_job_frame job w) as (b & w' & -> & _ & _ & _ & Hr & Hm & Hj). cbn [snd].
    split; [exact Hj|]. split; [exists []; rewrite app_nil_r; exact Hm | left; congruence].
  - destruct (schedule_job_rows now now' job cfg w) as (b & w' & -> & _ & Hr & Hm & Hj & _).
    cbn [snd]. split.
    + destruct Hj as [->|[n ->]]; [reflexivity|]. apply map_update_where. reflexivity.
    + split; [exists []; rewrite app_nil_r; exact Hm | left; congruence].
  - destruct (scheduler_iteration_cases parse_config clock now w) as [(e & _ & ->) | (_ & ->)].
    + cbn [snd]. split; [reflexivity|].
      split; [exists []; cbn; rewrite app_nil_r; reflexivity | left; reflexivity].
    + cbv zeta.
      pose proof (reschedule_each_rows parse_config clock (overdue now w) []
                    (set_faults (tl (faults w)) (set_scheduled_jobs (fun _ => pending w) w)))
        as H.
      destruct (Scheduler.reschedule_each _ _ _ _ _) as [[r called] w2]. cbn [snd].
      destruct H as (_ & _ & _ & Hr & Hm & Hj & _).
      split; [exact Hj|].
      split; [exists []; rewrite app_nil_r; exact Hm | left; rewrite Hr; reflexivity].
Qed.

(** X19.  Over any number of steps of the engine, the rows of [jobs] keep
    their ids in their order, [metrics] only grows at its end, and the ids of
    [job_runs] only grow at their end: no step deletes or reorders a row. *)
Theorem engine_steps_keep_rows (w w' : World) : rtc engine_step w w' -> grows w w'.
Proof.
  induction 1 as [w | w1 w2 w3 Hstep _ IH]; [apply grows_refl|].
  eapply grows_trans; [|exact IH]. apply extends_grows, engine_step_extends, Hstep.
Qed.

Lemma extends_unique_runs (w w' : World) :
  extends w w' -> NoDup (map run_id (job_runs w)) -> NoDup (map run_id (job_runs w')).
Proof.
  intros (_ & _ & [->| ->]) H; [exact H|].
  apply NoDup_app. split; [exact H|]. split; [|apply NoDup_singleton].
  intros id Hin Hin'. apply list_elem_of_singleton in Hin'. subst id.
  apply list_elem_of_In, in_map_iff in Hin as (r & Hid & Hr).
  pose proof (next_id_above run_id (job_runs w)) as A.
  rewrite List.Forall_forall in A. specialize (A r Hr). cbv beta in A. lia.
Qed.

(** X20.  The ids of the runs stay pairwise distinct over any number of
    steps of the engine. *)
Theorem run_ids_stay_unique (w w' : World) :
  rtc engine_step w w' -> NoDup (map run_id (job_runs w)) -> NoDup (map run_id (job_runs w')).
Proof.
  induction 1 as [w | w1 w2 w3 Hstep _ IH]; [auto|].
  intros H. apply IH, (extends_unique_runs w1 w2); [|exact H].
  apply engine_step_extends, Hstep.
Qed.

(** * The registry of jobs *)

Section Registry.

Import Config.

Lemma named_insert (jobs : gmap string JobConfig) (job_config : JobConfig) :
  named jobs -> named (<[jc_name job_config := job_config]> jobs).
Proof.
  intros N name c. rewrite lookup_insert. case_decide as E.
  - intros [= <-]. exact E.
  - apply N.
Qed.

Lemma named_delete (jobs : gmap string JobConfig) (name : string) : named jobs -> named (delete name jobs).
Proof. intros N k c H. apply lookup_delete_Some in H as [_ H]. exact (N k c H). Qed.

Lemma named_load_from (jobs_data : list JobConfig) (jobs : gmap string JobConfig) :
  named jobs ->
  named (fold_left (fun jobs job_config => <[jc_name job_config := job_config]> jobs)
           jobs_data jobs).
Proof.
  revert jobs. induction jobs_data as [|c rest IH]; intros jobs N; [exact N|].
  cbn [fold_left]. apply IH, named_insert, N.
Qed.

Lemma named_empty : named ∅.
Proof. intros k c H. rewrite lookup_empty in H. discriminate. Qed.

Lemma registry_named (jobs jobs' : gmap string JobConfig) (name : string) (job_config : JobConfig) :
  named jobs ->
  add_job job_config jobs = Return jobs' \/
  update_job name job_config jobs = Return jobs' \/
  remove_job name jobs = Return jobs' ->
  named jobs'.
Proof.
  intros N [H|[H|H]].
  - unfold add_job in H. destruct (jobs !! jc_name job_config); [discriminate|].
    injection H as <-. apply named_insert, N.
  - unfold update_job in H. destruct (jobs !! name); [|discriminate].
    destruct (negb (String.eqb (jc_name job_config) name)).
    + destruct (jobs !! jc_name job_config); [discriminate|].
      injection H as <-. apply named_insert, named_delete, N.
    + injection H as <-. apply named_insert, N.
  - unfold remove_job in H. destruct (jobs !! name); [|discriminate].
    injection H as <-. apply named_delete, N.
Qed.

(** X29.  [update_job] returns exactly when the name is registered and the
    new name, when it differs, is free; the new configuration is then found
    under its name, the old name is free when the job was renamed, the other
    entries are as before and the number of entries is unchanged.  It raises
    when the name is not registered or the new name is taken. *)
Theorem update_job_spec (name : string) (job_config : JobConfig) (jobs : gmap string JobConfig) :
  match update_job name job_config jobs with
  | Return jobs' =>
      is_Some (jobs !! name) /\
      (jc_name job_config = name \/ jobs !! jc_name job_config = None) /\
      get_job jobs' (jc_name job_config) = Some job_config /\
      (jc_name job_config = name \/ get_job jobs' name = None) /\
      (forall other, other <> name -> other <> jc_name job_config ->
                     get_job jobs' other = get_job jobs other) /\
      size jobs' = size jobs
  | Raised e =>
      jobs !! name = None \/
      (jc_name job_config = name -> False) /\ is_Some (jobs !! jc_name job_config)
  end.
Proof.
  unfold update_job, get_job.
  destruct (jobs !! name) as [old|] eqn:E; [|left; reflexivity].
  destruct (String.eqb_spec (jc_name job_config) name) as [En|En]; cbn [negb].
  - split; [eauto|]. split; [left; exact En|]. split; [apply lookup_insert_eq|].
    split; [left; exact En|]. split.
    + intros other H1 H2. apply lookup_insert_ne. congruence.
    + apply map_size_insert_Some. rewrite En, E. eauto.
  - destruct (jobs !! jc_name job_config) as [taken|] eqn:T; [right; split; eauto|].
    split; [eauto|]. split; [right; reflexivity|]. split; [apply lookup_insert_eq|].
    split.
    + right. rewrite lookup_insert_ne by exact En. apply lookup_delete_eq.
    + split.
      * intros other H1 H2. rewrite lookup_insert_ne by congruence.
        apply lookup_delete_ne. congruence.
      * rewrite map_size_insert_None.
        -- rewrite map_size_delete_Some by (rewrite E; eauto).
           assert (size jobs <> 0%nat); [|lia].
           apply map_size_non_empty_iff. intros ->. rewrite lookup_empty in E. discriminate.
        -- rewrite lookup_delete_ne by congruence. exact T.
Qed.

(** X30.  A job that [add_job] registered is found under its name, the
    registry has one entry more, and [remove_job] under that name gives the
    registry back as it was. *)
Theorem add_job_then_remove_job (job_config : JobConfig) (jobs jobs' : gmap string JobConfig) :
  add_job job_config jobs = Return jobs' ->
  get_job jobs' (jc_name job_config) = Some job_config /\
  size jobs' = S (size jobs) /\
  remove_job (jc_name job_config) jobs' = Return jobs.
Proof.
  unfold add_job, remove_job, get_job.
  destruct (jobs !! jc_name job_config) eqn:E; [discriminate|]. intros [= <-].
  rewrite lookup_insert_eq. split; [reflexivity|].
  split; [apply map_size_insert_None, E|].
  rewrite delete_insert_id by exact E. reflexivity.
Qed.

End Registry.

(** * The properties at concrete inputs, and what remains of the engine *)

Section EngineWitnesses.

Import JobManager.

Lemma job_status_after_start_witness :
  running_jobs (idle []) !! 7 = None /\ faults (idle []) = [] /\
  fst (get_job_status 2 7 (snd (start_job 1 7 office (idle [])))) = Return (Some "running") /\
  fst (get_job_status 2 8 (snd (start_job 1 8 office (idle [])))) = Return None.
Proof.
  split; [reflexivity|]. split; [reflexivity|]. split.
  - apply (job_status_after_start 1 2 7 office (idle []) eq_refl eq_refl).
  - apply (job_status_after_start 1 2 8 office (idle []) eq_refl eq_refl).
Defined.

Lemma execute_job_without_ping_witness :
  ping_count (jc_metrics dns_job) = 0%nat /\
  let '(r, w') :=
    _execute_job only_gateway reply_in_12ms 400 450 500 7 dns_job 1 (executing dns_job true) in
  r = Return tt /\ metrics w' = [] /\ probes w' = [].
Proof.
  split; [reflexivity|].
  exact (execute_job_without_ping only_gateway reply_in_12ms 400 450 500 7 dns_job 1
           (executing dns_job true) eq_refl).
Defined.

Lemma start_then_execute_one_run_witness :
  faults (idle []) = [] /\ running_jobs (idle []) !! 7 = None /\
  exists (task : Task) (c : Counters),
    job_runs (snd (_execute_job only_gateway reply_in_12ms 400 450 500 7
                     (task_job_config task) (task_run_id task)
                     (snd (start_job 1 7 office (idle [])))))
    = [finalized 450 c (new_run 1 7 office (idle []))] /\
    destinations_successful c + destinations_failed c = 2.
Proof.
  split; [reflexivity|]. split; [reflexivity|].
  destruct (start_then_execute_one_run only_gateway reply_in_12ms 1 400 450 500 7 office
              (idle []) eq_refl eq_refl) as (task & c & _ & H1 & H2 & _).
  exists task, c. split; [exact H1 | exact H2].
Defined.

Lemma failed_run_disables_job_witness :
  faults (executing office true) = [] /\ has_row 7 (executing office true) = true /\
  unresolved_destinations only_gateway (jc_destinations office) <> [] /\
  fst (get_job_status 600 7
         (snd (_execute_job only_gateway reply_in_12ms 400 450 500 7 office 1
                 (executing office true))))
  = Return (Some "disabled").
Proof.
  split; [reflexivity|]. split; [reflexivity|]. split; [discriminate|].
  apply (failed_run_disables_job only_gateway reply_in_12ms (fun _ => Return office)
           (fun _ => (700, 701)) 400 450 500 600 700 7 office 1 (executing office true));
    [reflexivity | reflexivity | discriminate].
Defined.

End EngineWitnesses.

Section Shutdown.

Import JobManager.

Lemma shutdown_stops_every_job_witness :
  (forall job, is_Some (running_jobs (executing office false) !! job) -> In job [7]) /\
  exists w' : World,
    shutdown [7] (executing office false) = (Return tt, w') /\
    running_jobs w' = ∅ /\
    job_runs w' = [first_run 2].
Proof.
  assert (H : forall job, is_Some (running_jobs (executing office false) !! job) -> In job [7]).
  { intros job [t Ht]. cbn in Ht. apply lookup_singleton_Some in Ht as [<- _]. left. reflexivity. }
  split; [exact H|].
  destruct (shutdown_stops_every_job [7] (executing office false) H) as (w' & E & Hr & Hj & _).
  exists w'. split; [exact E|]. split; [exact Hr | exact Hj].
Defined.

(** X18.  In a world where every unit is registered under the id of its job
    and has begun, [shutdown] writes nothing to the store: no fault of the
    script is used up and the rows of [jobs] are as before, so no job is
    disabled. *)
Theorem shutdown_of_started_jobs_writes_nothing (jobs_to_stop : list Z) (w : World) :
  keyed w ->
  (forall job task, running_jobs w !! job = Some task -> task_started task = true) ->
  exists w' : World,
    shutdown jobs_to_stop w = (Return tt, w') /\
    jobs w' = jobs w /\ faults w' = faults w.
Proof.
  intros K H. destruct (stop_each_started jobs_to_stop w K H) as (w' & E & Hj & Hf & _).
  exists w'. auto.
Qed.

Lemma shutdown_of_started_jobs_writes_nothing_witness :
  keyed (executing office true) /\
  (forall job task, running_jobs (executing office true) !! job = Some task ->
                    task_started task = true) /\
  exists w' : World,
    shutdown [7] (executing office true) = (Return tt, w') /\
    jobs w' = [office_job] /\ job_enabled office_job = true.
Proof.
  assert (K : keyed (executing office true)).
  { intros job t Ht. cbn in Ht. apply lookup_singleton_Some in Ht as [<- <-]. reflexivity. }
  assert (H : forall job task, running_jobs (executing office true) !! job = Some task ->
                               task_started task = true).
  { intros job t Ht. cbn in Ht. apply lookup_singleton_Some in Ht as [_ <-]. reflexivity. }
  split; [exact K|]. split; [exact H|].
  destruct (shutdown_of_started_jobs_writes_nothing [7] (executing office true) K H)
    as (w' & E & Hj & _).
  exists w'. split; [exact E|]. split; [exact Hj | reflexivity].
Defined.

Lemma engine_steps_keep_rows_witness :
  rtc engine_step (idle []) (snd (start_job 1 7 office (idle []))) /\
  grows (idle []) (snd (start_job 1 7 office (idle []))).
Proof.
  assert (H : rtc engine_step (idle []) (snd (start_job 1 7 office (idle []))))
    by (apply rtc_once, step_start_job).
  split; [exact H|]. exact (engine_steps_keep_rows _ _ H).
Defined.

Lemma run_ids_stay_unique_witness :
  rtc engine_step (idle []) (snd (start_job 1 7 office (idle []))) /\
  NoDup (map run_id (job_runs (idle []))) /\
  NoDup (map run_id (job_runs (snd (start_job 1 7 office (idle []))))).
Proof.
  assert (H : rtc engine_step (idle []) (snd (start_job 1 7 office (idle []))))
    by (apply rtc_once, step_start_job).
  assert (N : NoDup (map run_id (job_runs (idle [])))) by apply NoDup_nil_2.
  split; [exact H|]. split; [exact N|]. exact (run_ids_stay_unique _ _ H N).
Defined.

End Shutdown.

Section Unscheduling.

Import Scheduler.

(** X21.  [unschedule_job] returns true in every case, also for a job that
    was not scheduled and when the store refuses the write: it takes the job
    out of the scheduled map, leaves the running map as it was, and clears
    the [next_run] of the row of the job when the store accepts the write and
    leaves the rows as they were when it does not. *)
Theorem unschedule_job_returns_true (job : Z) (w : World) :
  exists w' : World,
    unschedule_job job w = (Return true, w') /\
    scheduled_jobs w' = delete job (scheduled_jobs w) /\
    running_jobs w' = running_jobs w /\
    job_runs w' = job_runs w /\ metrics w' = metrics w /\
    (hd None (faults w) = None ->
       jobs w' = update_where job_id job (with_next_run None) (jobs w)) /\
    ((exists e, hd None (faults w) = Some e) -> jobs w' = jobs w).
Proof. exact (unschedule_job_cases job w). Qed.

Variable parse_config : Job -> outcome JobConfig.
Variable clock : Z -> Z * Z.

(** X23.  An iteration of the maintenance loop calls [schedule_job] only on
    jobs that have a row that is enabled and whose [next_run] is at or before
    the clock reading, and that are neither running nor, after the purge, in
    the scheduled map, whatever the store and the decoding of the rows
    do. *)
Theorem scheduler_iteration_calls_only_due (now : Z) (w : World) (id : Z) :
  In id (fst (scheduler_iteration parse_config clock now w)) ->
  exists row : Job,
    In row (jobs w) /\ job_id row = id /\ job_enabled row = true /\
    (exists next_run, job_next_run row = Some next_run /\ next_run <= now) /\
    running_jobs w !! id = None /\ pending w !! id = None.
Proof. exact (iteration_calls_due parse_config clock now w id). Qed.

End Unscheduling.

Section SchedulerWitnesses.

Import Scheduler.

Lemma unscheduled_job_not_rescheduled_witness :
  hd None (faults (idle [])) = None /\
  fst (scheduler_iteration (fun _ => Return office) (fun _ => (500, 501)) 500 (idle [])) = [7] /\
  ~ In 7 (fst (scheduler_iteration (fun _ => Return office) (fun _ => (500, 501)) 500
                 (snd (unschedule_job 7 (idle []))))).
Proof.
  split; [reflexivity|]. split; [reflexivity|].
  exact (unscheduled_job_not_rescheduled (fun _ => Return office) (fun _ => (500, 501)) 500 7
           (idle []) eq_refl).
Defined.

Lemma scheduler_iteration_calls_only_due_witness :
  In 7 (fst (scheduler_iteration (fun _ => Return office) (fun _ => (500, 501)) 500 (idle []))) /\
  exists row : Job,
    In row (jobs (idle [])) /\ job_id row = 7 /\ job_enabled row = true /\
    (exists next_run, job_next_run row = Some next_run /\ next_run <= 500).
Proof.
  assert (H : In 7 (fst (scheduler_iteration (fun _ => Return office) (fun _ => (500, 501)) 500
                           (idle [])))) by (left; reflexivity).
  split; [exact H|].
  destruct (scheduler_iteration_calls_only_due (fun _ => Return office) (fun _ => (500, 501))
              500 (idle []) 7 H) as (row & H1 & H2 & H3 & H4 & _).
  exists row. auto.
Defined.

End SchedulerWitnesses.

Section Dispatch.

Import Scheduler.

(** X26.  The dispatch unit of an enabled job that is not running, with a
    store that accepts the writes, starts the job and does not schedule its
    next run: the call of [schedule_job] after the start is refused because
    the job runs, so the rows of [jobs] are as before and the job has left
    the scheduled map. *)
Theorem dispatch_starts_without_rescheduling (now : Z) (next retry : Z * Z) (job : Z)
    (cfg : JobConfig) (w : World) (row : Job) :
  faults w = [] -> running_jobs w !! job = None ->
  List.filter (fun j => job_id j =? job) (jobs w) = [row] -> job_enabled row = true ->
  exists w' : World,
    _delayed_job_execution now next retry job cfg w = (Return tt, w') /\
    running_jobs w' !! job = Some (new_task job cfg w) /\
    scheduled_jobs w' = delete job (scheduled_jobs w) /\
    jobs w' = jobs w /\
    job_runs w' = (job_runs w ++ [new_run now job cfg w])%list /\
    schedule_job (fst next) (snd next) job cfg (started now job cfg w)
    = (Return false, started now job cfg w).
Proof.
  intros F R E En. eexists. split; [exact (delayed_job_execution_starts now next retry job cfg w
                                             row F R E En)|].
  cbn [running_jobs scheduled_jobs jobs job_runs set_scheduled_jobs started set_running_jobs
       set_job_runs].
  split; [apply lookup_insert_eq|]. repeat split.
  apply schedule_job_running. cbn. rewrite lookup_insert_eq. eauto.
Qed.

Lemma dispatch_starts_without_rescheduling_witness :
  faults (idle []) = [] /\ running_jobs (idle []) !! 7 = None /\
  List.filter (fun j => job_id j =? 7) (jobs (idle [])) = [office_job] /\
  job_enabled office_job = true /\
  exists w' : World,
    _delayed_job_execution 500 (510, 511) (520, 521) 7 office (idle []) = (Return tt, w') /\
    is_Some (running_jobs w' !! 7) /\ scheduled_jobs w' !! 7 = None /\
    jobs w' = [office_job].
Proof.
  split; [reflexivity|]. split; [reflexivity|]. split; [reflexivity|]. split; [reflexivity|].
  destruct (dispatch_starts_without_rescheduling 500 (510, 511) (520, 521) 7 office (idle [])
              office_job eq_refl eq_refl eq_refl eq_refl) as (w' & E & Hr & Hs & Hj & _).
  exists w'. split; [exact E|]. split; [rewrite Hr; eauto|]. split; [|exact Hj].
  rewrite Hs. apply lookup_delete_eq.
Defined.

Lemma dispatch_retry_leaves_no_entry_witness :
  faults (idle [None; Some (Exception "database is locked")])
  = [None; Some (Exception "database is locked")] /\
  running_jobs (idle [None; Some (Exception "database is locked")]) !! 7 = None /\
  List.filter (fun j => job_id j =? 7) (jobs (idle [None; Some (Exception "database is locked")]))
  = [office_job] /\
  job_enabled office_job = true /\
  exists w' : World,
    _delayed_job_execution 500 (510, 511) (520, 521) 7 office
      (idle [None; Some (Exception "database is locked")]) = (Return tt, w') /\
    running_jobs w' !! 7 = None /\ scheduled_jobs w' !! 7 = None /\
    jobs w' = [with_next_run (Some 60000510) office_job].
Proof.
  split; [reflexivity|]. split; [reflexivity|]. split; [reflexivity|]. split; [reflexivity|].
  destruct (dispatch_retry_leaves_no_entry 500 (510, 511) (520, 521) 7 office
              (idle [None; Some (Exception "database is locked")]) office_job
              (Exception "database is locked") eq_refl eq_refl eq_refl eq_refl)
    as (w' & E & Hr & Hs & _ & Hj).
  exists w'. split; [exact E|]. split; [exact Hr|]. split; [exact Hs | exact Hj].
Defined.

End Dispatch.

Section RegistryByName.

Import Config.

(** X28.  The registry of jobs is keyed by name: the dictionary that
    [_load_config] builds has every configuration under its own name, and
    [add_job], [update_job] and [remove_job] keep it so. *)
Theorem registry_keyed_by_name (jobs_data : list JobConfig) (jobs jobs' : gmap string JobConfig)
    (name : string) (job_config : JobConfig) :
  named (load_jobs jobs_data) /\
  (named jobs ->
   add_job job_config jobs = Return jobs' \/
   update_job name job_config jobs = Return jobs' \/
   remove_job name jobs = Return jobs' ->
   named jobs').
Proof.
  split; [apply named_load_from, named_empty|].
  exact (registry_named jobs jobs' name job_config).
Qed.

Lemma registry_keyed_by_name_witness :
  named (load_jobs [office; lobby]) /\
  add_job office (load_jobs [lobby]) = Return (load_jobs [lobby; office]) /\
  named (load_jobs [lobby; office]).
Proof.
  split; [exact (proj1 (registry_keyed_by_name [office; lobby] ∅ ∅ "" office))|].
  split; [reflexivity|].
  exact (proj2 (registry_keyed_by_name [] (load_jobs [lobby]) (load_jobs [lobby; office]) ""
                  office)
           (proj1 (registry_keyed_by_name [lobby] ∅ ∅ "" office))
           (or_introl eq_refl)).
Defined.

Lemma add_job_then_remove_job_witness :
  add_job office (load_jobs [lobby]) = Return (load_jobs [lobby; office]) /\
  get_job (load_jobs [lobby; office]) "office" = Some office /\
  remove_job "office" (load_jobs [lobby; office]) = Return (load_jobs [lobby]).
Proof.
  split; [reflexivity|].
  destruct (add_job_then_remove_job office (load_jobs [lobby]) (load_jobs [lobby; office])
              eq_refl) as (H1 & _ & H2).
  split; [exact H1 | exact H2].
Defined.

End RegistryByName.
